(** * Reflected-light phase curves: the tutorial notebook

    A model of [docs/notebooks/9g_ReflectedPhaseCurve.ipynb].  The notebook is
    a straight-line script: it builds two synthetic datasets with numpy and
    xarray, drives the picaso library through two phase-curve cases (a
    cloud-free one and a cloudy one) and plots what the library returns.

    - Numbers are IEEE binary64 values, written as the rationals they denote;
      every arithmetic operation is the exact operation followed by rounding
      to nearest, ties to even, at 53 bits.  Overflow, subnormals and NaN are
      outside the model: no value the notebook computes comes near them.
    - numpy arrays are nested lists, xarray datasets are records of named
      variables and coordinates.
    - The script is a tree of library calls.  The library's answers are not
      known here, so a run is parametrised by a [library]: any function from
      the calls made so far and the current call to a reply, which is a
      result or a raised exception. *)

From Stdlib Require Import ZArith QArith Qabs Qround Qpower Qreduction Lqa Lia.
From stdpp Require Import base option list strings gmap pretty.

(** ** Binary64 arithmetic *)

Section Binary64.
Local Open Scope Q_scope.

Definition pow2 (e : Z) : Q := Qpower 2 e.

(** [ilog2 q] is the binary exponent of a positive [q]:
    [2^(ilog2 q) <= q < 2^(ilog2 q + 1)]. *)
Definition ilog2 (q : Q) : Z :=
  let e0 := (Z.log2 (Qnum q) - Z.log2 (Zpos (Qden q)))%Z in
  if Qle_bool (pow2 e0) q then e0 else (e0 - 1)%Z.

Definition round_half_even (q : Q) : Z :=
  let f := Qfloor q in
  match Qcompare (q - inject_Z f) (1 # 2) with
  | Lt => f
  | Gt => (f + 1)%Z
  | Eq => if Z.even f then f else (f + 1)%Z
  end.

(** A positive number keeps a 53-bit significand. *)
Definition rnd_pos (q : Q) : Q :=
  let e := (ilog2 q - 52)%Z in
  inject_Z (round_half_even (q / pow2 e)) * pow2 e.

(** Rounding to the nearest double.  The result is a reduced fraction, so
    equal doubles are equal terms. *)
Definition rnd (q : Q) : Q :=
  Qred (match Qcompare q 0 with
        | Eq => 0
        | Gt => rnd_pos q
        | Lt => - rnd_pos (- q)
        end).

Definition fadd (x y : Q) : Q := rnd (x + y).
Definition fsub (x y : Q) : Q := rnd (x - y).
Definition fmul (x y : Q) : Q := rnd (x * y).
Definition fdiv (x y : Q) : Q := rnd (x / y).

(** A decimal literal of the source denotes the nearest double. *)
Definition lit (q : Q) : Q := rnd q.

Definition flt (x y : Q) : bool :=
  match Qcompare x y with Lt => true | _ => false end.
Definition fgt (x y : Q) : bool := flt y x.

(** [np.pi], the double nearest to pi. *)
Definition np_pi : Q := 884279719003555 # 281474976710656.

(** [int(x)] truncates toward zero. *)
Definition py_int (x : Q) : Z :=
  if flt x 0 then Qceiling x else Qfloor x.

(** The doubles end at 2^1024 - 2^971; a result rounds to inf from
    2^1024 - 2^970 on, halfway to the next power of two. *)
Definition overflows (q : Q) : bool :=
  Qle_bool (pow2 1024 - pow2 970) (Qabs q).

End Binary64.

(** ** numpy arrays *)

#[local] Unset Elimination Schemes.
Inductive ndarray : Type :=
| Scalar (x : Q)
| Array (xs : list ndarray).
#[local] Set Elimination Schemes.

(** [np.full(shape, v)]; [np.zeros(shape)] is [np_full shape 0]. *)
Fixpoint np_full (shape : list nat) (v : Q) : ndarray :=
  match shape with
  | [] => Scalar v
  | n :: shape' => Array (replicate n (np_full shape' v))
  end.

Definition np_zeros (shape : list nat) : ndarray := np_full shape 0%Q.

(** A one-dimensional array of the given values. *)
Definition np_array (xs : list Q) : ndarray := Array (Scalar <$> xs).

(** [a[i, j, ...]]: [None] when an index is out of range or there are more
    indices than axes (numpy raises IndexError). *)
Fixpoint nd_get (idx : list nat) (a : ndarray) : option ndarray :=
  match idx with
  | [] => Some a
  | i :: idx' =>
      match a with
      | Scalar _ => None
      | Array xs => xs !! i ≫= nd_get idx'
      end
  end.

(** Elementwise application, as in [a * 0.1 + 0.1] or [1 - a]. *)
Fixpoint nd_map (f : Q → Q) (a : ndarray) : ndarray :=
  match a with
  | Scalar x => Scalar (f x)
  | Array xs => Array (nd_map f <$> xs)
  end.

(** [a[i, j, ..., :] = v]: the scalar is broadcast over the remaining axes;
    [None] stands for numpy's IndexError. *)
Fixpoint nd_assign (idx : list nat) (v : Q) (a : ndarray) : option ndarray :=
  match idx with
  | [] => Some (nd_map (λ _, v) a)
  | i :: idx' =>
      match a with
      | Scalar _ => None
      | Array xs =>
          x ← xs !! i;
          x' ← nd_assign idx' v x;
          Some (Array (<[i := x']> xs))
      end
  end.

Fixpoint where_from (i : nat) (mask : list bool) : list nat :=
  match mask with
  | [] => []
  | b :: mask' => (if b then [i] else []) ++ where_from (S i) mask'
  end.

(** [np.where(mask)[0]]: the indices at which the mask holds, ascending. *)
Definition np_where (mask : list bool) : list nat := where_from 0 mask.

(** [np.linspace(start, stop, num)] with the default [endpoint=True], after
    numpy's implementation: the points are [arange(num) * step + start] and
    the last one is overwritten with [stop]. *)
Definition np_linspace (start stop : Q) (num : nat) : list Q :=
  let div := (num - 1)%nat in
  let delta := fsub stop start in
  let step := fdiv delta (inject_Z (Z.of_nat div)) in
  let arange := (λ i : nat, inject_Z (Z.of_nat i)) <$> seq 0 num in
  let y :=
    if (0 <? div)%nat then
      if Qeq_bool step 0
      then (λ y, fmul (fdiv y (inject_Z (Z.of_nat div))) delta) <$> arange
      else (λ y, fmul y step) <$> arange
    else (λ y, fmul y delta) <$> arange in
  let y := (λ y, fadd y start) <$> y in
  if (1 <? num)%nat then <[div := stop]> y else y.

(** A [for] loop whose body may raise. *)
Fixpoint for_each {A S : Type} (xs : list A) (body : A → S → option S) (s : S)
  : option S :=
  match xs with
  | [] => Some s
  | x :: xs' => s' ← body x s; for_each xs' body s'
  end.

(** ** xarray datasets *)

Record DataArray := mkDataArray {
  dims : list string;
  values : ndarray;
  da_attrs : list (string * string)
}.

Record Coordinate := mkCoordinate {
  c_dims : list string;
  c_values : list Q;
  c_attrs : list (string * string)
}.

(** [sizes] is xarray's [Dataset.sizes]: the length of every dimension,
    with or without a coordinate.  xarray keeps a data variable and a
    dimension under different names. *)
Record Dataset := mkDataset {
  data_vars : gmap string DataArray;
  coords : gmap string Coordinate;
  sizes : gmap string nat;
  attrs : list (string * string)
}.

(** The index xarray gives a dimension that has no coordinate: 0 .. n-1. *)
Definition default_index (n : nat) : list Q :=
  (λ i : nat, inject_Z (Z.of_nat i)) <$> seq 0 n.

(** [ds.coords.get(name).values]: the values of the coordinate; for a name
    that is a dimension without a coordinate, its default index; [None]
    when the name is neither ([get] gives Python's None, whose [.values]
    raises AttributeError). *)
Definition coord_values (ds : Dataset) (name : string) : option (list Q) :=
  match coords ds !! name with
  | Some c => Some (c_values c)
  | None => default_index <$> sizes ds !! name
  end.

(** [self.update(other)]: the variables and coordinates of [other] replace or
    extend those of [self]; the attributes of [self] stay.  This is the
    update of a dataset by one whose coordinates have the values they have
    in [self] wherever both have them, as in cell 6; where they differ
    xarray first aligns [other] to the index of [self], which is not
    modelled. *)
Definition ds_update (self other : Dataset) : Dataset :=
  {| data_vars := data_vars other ∪ data_vars self;
     coords := coords other ∪ coords self;
     sizes := sizes other ∪ sizes self;
     attrs := attrs self |}.

(** [ds[var].values[idx]], when the index reaches a number. *)
Definition ds_value (ds : Dataset) (var : string) (idx : list nat) : option Q :=
  da ← data_vars ds !! var;
  match nd_get idx (values da) with
  | Some (Scalar v) => Some v
  | _ => None
  end.

(** ** The synthetic chemistry (cell 6) *)

(** [np.random.rand] draws doubles from [0, 1); the largest is 1 - 2^-53. *)
Definition last_draw : Q := 9007199254740991 # 9007199254740992.

Definition fake_chem_H2O (draws : ndarray) : ndarray :=
  nd_map (λ r, fadd (fmul r (lit (1 # 10))) (lit (1 # 10))) draws.

Definition fake_chem_H2 (h2o : ndarray) : ndarray :=
  nd_map (λ h, fsub 1 h) h2o.

Definition ds_chem (lon lat pres : list Q) (draws : ndarray) : Dataset :=
  {| data_vars :=
       {[ "H2O" := mkDataArray ["lon"; "lat"; "pressure"]
                     (fake_chem_H2O draws) [("units", "v/v")];
          "H2" := mkDataArray ["lon"; "lat"; "pressure"]
                    (fake_chem_H2 (fake_chem_H2O draws)) [("units", "v/v")] ]};
     coords :=
       {[ "lon" := mkCoordinate ["lon"] lon [("units", "degrees")];
          "lat" := mkCoordinate ["lat"] lat [("units", "degrees")];
          "pressure" := mkCoordinate ["pressure"] pres [("units", "bar")] ]};
     sizes :=
       {[ "lon" := length lon; "lat" := length lat; "pressure" := length pres ]};
     attrs := [("description", "coords with vectors")] |}.

(** ** The synthetic cloud (cell 24) *)

Definition wno_grid : list Q := np_linspace 33333 10000 10.

Definition where_lat (lat : list Q) : list nat :=
  np_where ((λ x, fgt x (-50) && flt x 50) <$> lat).

Definition where_lon (lon : list Q) : list nat :=
  np_where ((λ x, fgt x (-90) && flt x 0) <$> lon).

Definition where_pres (pres : list Q) : list nat :=
  np_where ((λ x, flt x (lit (1 # 100)) && fgt x (lit (1 # 100000))) <$> pres).

Definition cloud_shape (lon lat pres : list Q) : list nat :=
  [length lon; length lat; length pres; length wno_grid].

Definition fake_opd (lon lat pres : list Q) : option ndarray :=
  for_each (where_lat lat) (λ il,
    for_each (where_lon lon) (λ ilon,
      for_each (where_pres pres) (λ ip,
        nd_assign [ilon; il; ip] 10%Q)))
    (np_zeros (cloud_shape lon lat pres)).

Definition fake_asymmetry_g0 (lon lat pres : list Q) : ndarray :=
  nd_map (fadd (lit (1 # 2))) (np_zeros (cloud_shape lon lat pres)).

Definition fake_ssa_w0 (lon lat pres : list Q) : ndarray :=
  nd_map (fadd (lit (9 # 10))) (np_zeros (cloud_shape lon lat pres)).

(** [values[:-1]] *)
Definition drop_last {A : Type} (l : list A) : list A :=
  take (length l - 1) l.

Definition ds_cld_of (lon lat pres : list Q) (opd : ndarray) : Dataset :=
  {| data_vars :=
       {[ "opd" := mkDataArray ["lon"; "lat"; "pressure"; "wno"] opd
                     [("units", "depth per layer")];
          "g0" := mkDataArray ["lon"; "lat"; "pressure"; "wno"]
                    (fake_asymmetry_g0 lon lat pres) [("units", "none")];
          "w0" := mkDataArray ["lon"; "lat"; "pressure"; "wno"]
                    (fake_ssa_w0 lon lat pres) [("units", "none")] ]};
     coords :=
       {[ "lon" := mkCoordinate ["lon"] lon [("units", "degrees")];
          "lat" := mkCoordinate ["lat"] lat [("units", "degrees")];
          "pressure" := mkCoordinate ["pressure"] pres [("units", "bar")];
          "wno" := mkCoordinate ["wno"] wno_grid [("units", "cm^(-1)")] ]};
     sizes :=
       {[ "lon" := length lon; "lat" := length lat; "pressure" := length pres;
          "wno" := length wno_grid ]};
     attrs := [("description", "coords with vectors")] |}.

(** ** The phase grid (cells 9 and 28) *)

Definition n_phases : nat := 8.
Definition min_phase : Q := 0.
Definition max_phase : Q := fmul 2 np_pi.
Definition phase_grid : list Q := np_linspace min_phase max_phase n_phases.

(** ** The library interface *)

(** An inputs object of picaso, numbered in order of creation. *)
Definition obj := nat.
(** A dataset object held by a notebook variable. *)
Definition ref := nat.
(** A library value the notebook only passes on: the opacity connection, a
    figure, a palette, a profile. *)
Definition pyobj := nat.

(** A dataset handed to the library: the object and its contents at the
    time of the call. *)
Record dsarg := mkArg { arg_ref : ref; arg_ds : Dataset }.

Definition spectrum := gmap string ndarray.

(** Modelled from the spec: [phase_curve] of picaso's [justdoit.inputs]
    (not among the sources) returns "a dictionary of per-phase output
    spectra keyed by phase angle".  A Python dict keeps insertion order, so
    the dictionary is the list of its items.  A phase angle is a number:
    the keys are finite, inf and NaN are no keys of this model. *)
Definition phase_curve_output := list (Q * spectrum).

(** [d[key]] on such a dictionary. *)
Definition dict_get {V : Type} (d : list (Q * V)) (key : Q) : option V :=
  snd <$> find (λ kv, Qeq_bool kv.1 key) d.

(** What [Dataset.update] returns: the receiver up to xarray 2025.9 (a
    return value deprecated since xarray 0.17), None from 2025.10 on. *)
Inductive update_returns : Type :=
| Receiver
| PyNone.

Inductive call : Type → Type :=
(* picaso.justplotit *)
| jpi_output_notebook : call unit
| jpi_phase_curve (allout : phase_curve_output) (to_plot collapse : string)
    (R : Z) (plot_width : option Z) (reorder_output : bool)
  : call (ndarray * ndarray * ndarray * pyobj)
| jpi_show (fig : pyobj) : call unit
| jpi_spectrum (wno fpfs : list ndarray) (plot_width : Z)
    (legend : list string) (palette : pyobj) : call pyobj
| jpi_pals_viridis (n : nat) : call pyobj
(* picaso.justdoit *)
| jdi_opannection (wave_range : Q * Q) (resample : Z) : call pyobj
| jdi_HJ_pt_3d (as_xarray : bool) : call Dataset
| jdi_inputs (self : obj) : call unit
| jdi_mean_regrid (x y : ndarray) (R : Z) : call (ndarray * ndarray)
| phase_curve_geometry (self : obj) (calculation : string)
    (phase_grid : list Q) (num_gangle num_tangle : Z) : call unit
| atmosphere_4d (self : obj) (ds : dsarg) (shift : ndarray)
    (zero_point : string) (plot verbose : bool) : call unit
| clouds_4d (self : obj) (ds : dsarg) (iz_plot : Z) (plot : bool) : call unit
| inputs_profile (self : obj) : call pyobj
| gravity (self : obj) (radius : Q) (radius_unit : string)
    (mass : Q) (mass_unit : string) : call unit
| star (self : obj) (opacity : pyobj) (temp metal logg radius : Q)
    (radius_unit : string) (semi_major : Q) (semi_major_unit : string)
  : call unit
| phase_curve (self : obj) (opacity : pyobj) (n_cpu : Z) (full_output : bool)
  : call phase_curve_output
(* numpy *)
| np_random_rand (shape : list nat) : call ndarray
(* xarray *)
| xr_Dataset (d : Dataset) : call unit
| xr_update (self other : dsarg) : call update_returns
| xr_plot (ds : dsarg) (var : string) (isel : list (string * nat))
    (x y : string) : call unit
| xr_isel (profile : pyobj) (isel : list (string * nat)) : call pyobj
(* matplotlib.pyplot *)
| plt_figure (figsize : Q * Q) : call unit
| plt_plot (x y : ndarray) (label : string) : call unit
| plt_xlabel (s : string) : call unit
| plt_ylabel (s : string) : call unit
| plt_title (s : string) : call unit
| plt_legend (loc : string) : call unit
| plt_rcParams_set (key : string) (v : Z) : call unit.

(** The module a call goes to. *)
Definition module_of {R : Type} (c : call R) : string :=
  match c with
  | jpi_output_notebook | jpi_phase_curve _ _ _ _ _ _ | jpi_show _
  | jpi_spectrum _ _ _ _ _ | jpi_pals_viridis _ => "picaso.justplotit"
  | jdi_opannection _ _ | jdi_HJ_pt_3d _ | jdi_inputs _ | jdi_mean_regrid _ _ _
  | phase_curve_geometry _ _ _ _ _ | atmosphere_4d _ _ _ _ _ _
  | clouds_4d _ _ _ _ | inputs_profile _ | gravity _ _ _ _ _
  | star _ _ _ _ _ _ _ _ _ | phase_curve _ _ _ _ => "picaso.justdoit"
  | np_random_rand _ => "numpy"
  | xr_Dataset _ | xr_update _ _ | xr_plot _ _ _ _ _ | xr_isel _ _ => "xarray"
  | plt_figure _ | plt_plot _ _ _ | plt_xlabel _ | plt_ylabel _ | plt_title _
  | plt_legend _ | plt_rcParams_set _ _ => "matplotlib.pyplot"
  end.

(** The import statements of the notebook (cells 1 and 33). *)
Definition imports : list string :=
  ["pandas"; "numpy"; "astropy.units"; "xarray"; "picaso.justdoit";
   "picaso.justplotit"; "matplotlib.pyplot"].

Inductive exn : Type :=
| AttributeError
| KeyError
| IndexError
| TypeError
| OverflowError
| LibraryError (code : nat).

Inductive reply (R : Type) : Type :=
| Returns (r : R)
| Raises (e : exn).
Arguments Returns {R} r.
Arguments Raises {R} e.

(** One entry of the trace: a call and what came back. *)
Inductive event : Type :=
| Ev {R : Type} (c : call R) (r : reply R).

(** What the libraries do is a parameter: any function of the calls so far
    and the current call. *)
Definition library := ∀ R : Type, list event → call R → reply R.

(** ** Scripts *)

Inductive script : Type :=
| Done
| Raise (e : exn)
| Call {R : Type} (c : call R) (k : R → script)
| NewObj (k : obj → script)
| DsNew (d : Dataset) (k : ref → script)
| DsRead (r : ref) (k : dsarg → script)
| DsWrite (r : ref) (d : Dataset) (k : script)
| TryExcept (body : script) (handler : exn → script) (k : script).

Record state := mkState {
  trace : list event;
  heap : list Dataset;
  next_obj : obj
}.

Definition init : state := mkState [] [] 0.

Definition log (ev : event) (st : state) : state :=
  mkState (trace st ++ [ev]) (heap st) (next_obj st).

Inductive outcome : Type :=
| Finished
| Uncaught (e : exn).

Fixpoint run (lib : library) (p : script) (st : state) : state * outcome :=
  match p with
  | Done => (st, Finished)
  | Raise e => (st, Uncaught e)
  | Call c k =>
      match lib _ (trace st) c with
      | Returns r => run lib (k r) (log (Ev c (Returns r)) st)
      | Raises e => (log (Ev c (Raises e)) st, Uncaught e)
      end
  | NewObj k =>
      run lib (k (next_obj st)) (mkState (trace st) (heap st) (S (next_obj st)))
  | DsNew d k =>
      run lib (k (length (heap st)))
        (mkState (trace st) (heap st ++ [d]) (next_obj st))
  | DsRead r k =>
      match heap st !! r with
      | Some d => run lib (k (mkArg r d)) st
      | None => (st, Uncaught AttributeError)
      end
  | DsWrite r d k =>
      run lib k (mkState (trace st) (<[r := d]> (heap st)) (next_obj st))
  | TryExcept body handler k =>
      match run lib body st with
      | (st', Finished) => run lib k st'
      | (st', Uncaught e) =>
          match run lib (handler e) st' with
          | (st'', Finished) => run lib k st''
          | halted => halted
          end
      end
  end.

(** A [for] loop of the script, in continuation-passing style: [s] holds the
    variables the body rebinds. *)
Fixpoint for_in {A S : Type} (xs : list A)
    (body : A → S → (S → script) → script) (s : S) (k : S → script) : script :=
  match xs with
  | [] => k s
  | x :: xs' => body x s (λ s', for_in xs' body s' k)
  end.

(** [jdi.inputs()]: a new object, then its constructor. *)
Definition new_inputs (k : obj → script) : script :=
  NewObj (λ o, Call (jdi_inputs o) (λ _, k o)).

(** [xr.Dataset(...)]: the constructor, then a new dataset object. *)
Definition new_dataset (d : Dataset) (k : ref → script) : script :=
  Call (xr_Dataset d) (λ _, DsNew d k).

(** The value of [self.update(other)]: [self], or Python's None. *)
Definition returned_dataset (self : ref) (ret : update_returns) : option ref :=
  match ret with
  | Receiver => Some self
  | PyNone => None
  end.

(** [self.update(other)]: xarray updates [self] in place, whatever the call
    returns. *)
Definition update (self other : ref) (k : option ref → script) : script :=
  DsRead self (λ s, DsRead other (λ o,
    Call (xr_update s o) (λ ret,
      DsWrite self (ds_update (arg_ds s) (arg_ds o))
        (k (returned_dataset self ret))))).

(** An expression that raises when a value is missing. *)
Definition or_raise {A : Type} (e : exn) (x : option A) (k : A → script) : script :=
  match x with
  | Some a => k a
  | None => Raise e
  end.

(** ** The notebook *)

(** Statements are chained by their continuations: [let* x := c in k] runs
    [c] and binds what it yields in the rest of the script. *)
Notation "'let*' x := c 'in' k" := (c (fun x => k))
  (at level 10, x binder, c at level 100, k at level 200, only parsing).

Definition to_plot : string := "fpfs_reflected".
Definition collapse : string := "np.mean".

(** [int(iphase*180/np.pi)].  When the product overflows it is inf, so is
    the quotient, and [int(inf)] raises OverflowError: [None]. *)
Definition degrees (iphase : Q) : option Z :=
  if overflows (iphase * 180) then None
  else Some (py_int (fdiv (fmul iphase 180) np_pi)).

(** The legend entry of a phase, [str(int(iphase*180/np.pi))], where the
    product does not overflow. *)
Definition legend_entry (iphase : Q) : string :=
  pretty (py_int (fdiv (fmul iphase 180) np_pi)).

(** The loop of cells 22 and 35 over the keys of a [phase_curve] result. *)
Definition spectra_of (allout : phase_curve_output)
    (k : list ndarray * list ndarray * list string → script) : script :=
  for_in allout.*1
    (λ iphase '(wno, fpfs, legend) continue,
       let* out := or_raise KeyError (dict_get allout iphase) in
       let* wavenumber := or_raise KeyError (out !! "wavenumber") in
       let* fpfs_reflected := or_raise KeyError (out !! "fpfs_reflected") in
       let* '(w, f) := Call (jdi_mean_regrid wavenumber fpfs_reflected 100) in
       let* deg := or_raise OverflowError (degrees iphase) in
       continue (wno ++ [w],
                 fpfs ++ [nd_map (λ x, fmul x 1000000) f],
                 legend ++ [pretty deg]))
    ([], [], []) k.

Definition plot_spectra (allout : phase_curve_output) (k : script) : script :=
  let* '(wno, fpfs, legend) := spectra_of allout in
  let* palette := Call (jpi_pals_viridis n_phases) in
  let* fig := Call (jpi_spectrum wno fpfs 500 legend palette) in
  let* _ := Call (jpi_show fig) in
  k.

Definition notebook : script :=
  (* cell 1 *)
  let* _ := Call jpi_output_notebook in
  (* cell 3 *)
  let* opacity := Call (jdi_opannection (lit (1 # 2), lit (9 # 10)) 100) in
  (* cell 4 *)
  let* gcm := Call (jdi_HJ_pt_3d true) in
  let* gcm_out := DsNew gcm in
  (* cell 6 *)
  let* g := DsRead gcm_out in
  let* lon := or_raise AttributeError (coord_values (arg_ds g) "lon") in
  let* lat := or_raise AttributeError (coord_values (arg_ds g) "lat") in
  let* pres := or_raise AttributeError (coord_values (arg_ds g) "pressure") in
  let* draws := Call (np_random_rand [length lon; length lat; length pres]) in
  let* ds_chem := new_dataset (ds_chem lon lat pres draws) in
  let* all_gcm := update gcm_out ds_chem in
  (* cell 7: None['temperature'] raises TypeError; past this cell
     all_gcm is a dataset *)
  let* all_gcm := or_raise TypeError all_gcm in
  let* a := DsRead all_gcm in
  let* _ := Call (xr_plot a "temperature" [("pressure", 34)] "lon" "lat") in
  (* cell 9 *)
  let* case_3d := new_inputs in
  let* _ := Call (phase_curve_geometry case_3d "reflected" phase_grid 6 6) in
  (* cell 11 *)
  let* a := DsRead all_gcm in
  let* _ := Call (atmosphere_4d case_3d a (np_zeros [n_phases])
                    "secondary_eclipse" true false) in
  (* cell 13 *)
  let* _ := Call (inputs_profile case_3d) in
  (* cell 15 *)
  let* _ := Call (gravity case_3d 1 "R_jup" 1 "M_jup") in
  let* _ := Call (star case_3d opacity 5000 0 4 1 "R_sun" (lit (6 # 100)) "au") in
  (* cell 17 *)
  let* profile := Call (inputs_profile case_3d) in
  let* _ := Call (xr_isel profile [("phase", 1)]) in
  (* cell 18 *)
  let* allout := Call (phase_curve case_3d opacity 3 true) in
  (* cell 20 *)
  let* '(phases, all_curves, all_ws, fig) :=
    Call (jpi_phase_curve allout to_plot collapse 10 None true) in
  let* _ := Call (jpi_show fig) in
  (* cell 22 *)
  plot_spectra allout (
  (* cell 24 *)
  let* g := DsRead gcm_out in
  let* lon := or_raise AttributeError (coord_values (arg_ds g) "lon") in
  let* lat := or_raise AttributeError (coord_values (arg_ds g) "lat") in
  let* pres := or_raise AttributeError
                 (drop_last <$> coord_values (arg_ds g) "pressure") in
  let* opd := or_raise IndexError (fake_opd lon lat pres) in
  let* ds_cld := new_dataset (ds_cld_of lon lat pres opd) in
  (* cell 26 *)
  let* ip := or_raise IndexError (head (where_pres pres)) in
  let* c := DsRead ds_cld in
  let* _ := Call (xr_plot c "opd" [("pressure", ip); ("wno", 0)] "lon" "lat") in
  (* cell 28 *)
  let* case_3d_clouds := new_inputs in
  let* _ := Call (phase_curve_geometry case_3d_clouds "reflected" phase_grid 6 6) in
  let* _ := Call (inputs_profile case_3d_clouds) in
  let* g := DsRead gcm_out in
  let* _ := Call (atmosphere_4d case_3d_clouds g (np_zeros [n_phases])
                    "secondary_eclipse" true false) in
  let* c := DsRead ds_cld in
  let* _ := Call (clouds_4d case_3d_clouds c 34 true) in
  (* cell 30 *)
  let* _ := Call (gravity case_3d_clouds 1 "R_jup" 1 "M_jup") in
  let* _ := Call (star case_3d_clouds opacity 5000 0 4 1 "R_sun"
                    (lit (6 # 100)) "au") in
  let* allout_clouds := Call (phase_curve case_3d_clouds opacity 3 false) in
  (* cell 31 *)
  let* '(phases, all_curves, all_ws, fig) :=
    Call (jpi_phase_curve allout to_plot collapse 10 (Some 1500%Z) true) in
  let* '(phases_clouds, all_curves_clouds, all_ws_clouds, fig_clouds) :=
    Call (jpi_phase_curve allout_clouds to_plot collapse 10 (Some 1500%Z) true) in
  (* cell 33 *)
  let* _ := Call (plt_figure (15, 15 # 2)%Q) in
  let* _ := Call (plt_plot phases (nd_map (λ x, fmul x 1000000) all_curves)
                    "Cloudless") in
  let* _ := Call (plt_plot phases_clouds
                    (nd_map (λ x, fmul x 1000000) all_curves_clouds) "Cloudy") in
  let* _ := Call (plt_xlabel "Orbital Phase") in
  let* _ := Call (plt_ylabel "F$_{P}$/F$_{S}$ (ppm)") in
  let* _ := Call (plt_title "Reflected Light Phase Curves") in
  let* _ := Call (plt_legend "upper left") in
  let* _ := Call (plt_rcParams_set "font.size" 15) in
  (* cell 35 *)
  plot_spectra allout_clouds Done).

(** The two cases, by order of creation of their inputs objects. *)
Definition case_3d : obj := 0.
Definition case_3d_clouds : obj := 1.

(** ** Runs of the notebook *)

Definition trace_of (lib : library) : list event := trace (run lib notebook init).1.
Definition outcome_of (lib : library) : outcome := (run lib notebook init).2.

(** A library under which the notebook runs to its end, on a GCM with two
    longitudes, one latitude and three pressure levels. *)
Definition demo_gcm : Dataset :=
  {| data_vars :=
       {[ "temperature" := mkDataArray ["lon"; "lat"; "pressure"]
                             (np_full [2; 1; 3] 1000%Q) [("units", "K")] ]};
     coords :=
       {[ "lon" := mkCoordinate ["lon"] [-45; 45]%Q [("units", "degrees")];
          "lat" := mkCoordinate ["lat"] [0%Q] [("units", "degrees")];
          "pressure" := mkCoordinate ["pressure"] [lit (1 # 1000); 1; 10]%Q
                          [("units", "bar")] ]};
     sizes := {[ "lon" := 2; "lat" := 1; "pressure" := 3 ]};
     attrs := [] |}.

Definition demo_spectrum : spectrum :=
  {[ "wavenumber" := np_array [11111; 20000]%Q;
     "fpfs_reflected" := np_array [lit (1 # 1000000); lit (2 # 1000000)] ]}.

Definition demo_lib : library :=
  λ R _ c,
    match c in call R return reply R with
    | jpi_output_notebook => Returns ()
    | jpi_phase_curve _ _ _ _ _ _ =>
        Returns (np_array [0%Q], np_array [0%Q], np_array [0%Q], 7)
    | jpi_show _ => Returns ()
    | jpi_spectrum _ _ _ _ _ => Returns 8
    | jpi_pals_viridis _ => Returns 9
    | jdi_opannection _ _ => Returns 1
    | jdi_HJ_pt_3d _ => Returns demo_gcm
    | jdi_inputs _ => Returns ()
    | jdi_mean_regrid x y _ => Returns (x, y)
    | phase_curve_geometry _ _ _ _ _ => Returns ()
    | atmosphere_4d _ _ _ _ _ _ => Returns ()
    | clouds_4d _ _ _ _ => Returns ()
    | inputs_profile _ => Returns 2
    | gravity _ _ _ _ _ => Returns ()
    | star _ _ _ _ _ _ _ _ _ => Returns ()
    | phase_curve _ _ _ _ =>
        Returns [(0%Q, demo_spectrum); (np_pi, demo_spectrum)]
    | np_random_rand shape => Returns (np_full shape (1 # 2)%Q)
    | xr_Dataset _ => Returns ()
    | xr_update _ _ => Returns Receiver
    | xr_plot _ _ _ _ _ => Returns ()
    | xr_isel _ _ => Returns 3
    | plt_figure _ => Returns ()
    | plt_plot _ _ _ => Returns ()
    | plt_xlabel _ => Returns ()
    | plt_ylabel _ => Returns ()
    | plt_title _ => Returns ()
    | plt_legend _ => Returns ()
    | plt_rcParams_set _ _ => Returns ()
    end.

(** The library of [demo_lib], except that [atmosphere_4d] fails. *)
Definition failing_lib : library :=
  λ R tr c,
    match c in call R return reply R → reply R with
    | atmosphere_4d _ _ _ _ _ _ => λ _, Raises (LibraryError 1)
    | _ => λ r, r
    end (demo_lib R tr c).

(** ** Monitors

  A safety property of the trace is stated through a monitor: a state that
  follows the events and a condition every event must meet in the state
  it arrives in. *)

Section Monitor.
Context {M : Type} (mstep : M → event → M) (mok : M → event → Prop).
Context (mfinal : M → Prop).

Fixpoint accepted (m : M) (tr : list event) : Prop :=
  match tr with
  | [] => True
  | ev :: tr' => mok m ev ∧ accepted (mstep m ev) tr'
  end.

(** [safe p m h n]: whatever the library answers, every event of [p],
    started with the monitor in [m], the datasets [h] and [n] objects,
    meets the condition, and [mfinal] holds if [p] runs to its end. *)
Fixpoint safe (p : script) (m : M) (h : list Dataset) (n : obj) : Prop :=
  match p with
  | Done => mfinal m
  | Raise _ => True
  | Call c k =>
      (∀ e, mok m (Ev c (Raises e))) ∧
      (∀ r, mok m (Ev c (Returns r)) ∧ safe (k r) (mstep m (Ev c (Returns r))) h n)
  | NewObj k => safe (k n) m h (S n)
  | DsNew d k => safe (k (length h)) m (h ++ [d]) n
  | DsRead r k =>
      match h !! r with
      | Some d => safe (k (mkArg r d)) m h n
      | None => True
      end
  | DsWrite r d k => safe k m (<[r := d]> h) n
  | TryExcept _ _ _ => False
  end.
End Monitor.

(** A script without [try]. *)
Fixpoint handler_free (p : script) : Prop :=
match p with
| Done | Raise _ => True
| Call c k => ∀ r, handler_free (k r)
| NewObj k | DsNew _ k => ∀ x, handler_free (k x)
| DsRead _ k => ∀ d, handler_free (k d)
| DsWrite _ _ k => handler_free k
| TryExcept _ _ _ => False
end.

(** What a reply was. *)
Definition returned {R : Type} (r : reply R) : bool :=
  match r with Returns _ => true | Raises _ => false end.

Definition raised (ev : event) : option exn :=
  match ev with
  | Ev _ (Raises e) => Some e
  | Ev _ (Returns _) => None
  end.

(** History monitors: the state is the list of the events kept so far. *)
Definition hstep (keep : event → bool) (m : list event) (ev : event) : list event :=
  if keep ev then m ++ [ev] else m.

(** ** The properties, as monitors *)

(** *** The order of the stages *)

Inductive stage : Type :=
| LoadOpacity
| BuildDataset
| SetGeometry
| MapAtmosphere
| MapClouds
| SetGravityStar
| ComputePhaseCurve
| PostProcess.

Definition stage_rank (s : stage) : nat :=
  match s with
  | LoadOpacity => 0
  | BuildDataset => 1
  | SetGeometry => 2
  | MapAtmosphere => 3
  | MapClouds => 4
  | SetGravityStar => 5
  | ComputePhaseCurve => 6
  | PostProcess => 7
  end.

(** The stage a call belongs to.  Displaying an input (a map of a dataset,
    a profile) and configuring the notebook output belong to none. *)
Definition stage_of {R : Type} (c : call R) : option stage :=
  match c with
  | jdi_opannection _ _ => Some LoadOpacity
  | jdi_HJ_pt_3d _ | np_random_rand _ | xr_Dataset _ | xr_update _ _ =>
      Some BuildDataset
  | jdi_inputs _ | phase_curve_geometry _ _ _ _ _ => Some SetGeometry
  | atmosphere_4d _ _ _ _ _ _ => Some MapAtmosphere
  | clouds_4d _ _ _ _ => Some MapClouds
  | gravity _ _ _ _ _ | star _ _ _ _ _ _ _ _ _ => Some SetGravityStar
  | phase_curve _ _ _ _ => Some ComputePhaseCurve
  | jpi_phase_curve _ _ _ _ _ _ | jpi_show _ | jpi_spectrum _ _ _ _ _
  | jpi_pals_viridis _ | jdi_mean_regrid _ _ _
  | plt_figure _ | plt_plot _ _ _ | plt_xlabel _ | plt_ylabel _ | plt_title _
  | plt_legend _ | plt_rcParams_set _ _ => Some PostProcess
  | jpi_output_notebook | xr_plot _ _ _ _ _ | inputs_profile _ | xr_isel _ _ => None
  end.

(** The inputs object a call is made on. *)
Definition subject {R : Type} (c : call R) : option obj :=
  match c with
  | jdi_inputs self | phase_curve_geometry self _ _ _ _
  | atmosphere_4d self _ _ _ _ _ | clouds_4d self _ _ _ | inputs_profile self
  | gravity self _ _ _ _ | star self _ _ _ _ _ _ _ _ | phase_curve self _ _ _ =>
      Some self
  | _ => None
  end.

(** The calls of the pipeline up to the computation, with the object they
    are made on. *)
Definition pipeline_step (ev : event) : option (option obj * stage) :=
  match ev with
  | Ev c _ =>
      match stage_of c with
      | Some PostProcess | None => None
      | Some s => Some (subject c, s)
      end
  end.

Definition keep_pipeline (ev : event) : bool :=
  match pipeline_step ev with Some _ => true | None => false end.

Definition in_order (ev' ev : event) : bool :=
  match pipeline_step ev', pipeline_step ev with
  | Some (Some o', s'), Some (Some o, s) =>
      if Nat.eqb o' o then Nat.leb (stage_rank s') (stage_rank s) else true
  | _, _ => true
  end.

Definition ok_pipeline (m : list event) (ev : event) : Prop :=
  forallb (λ ev', in_order ev' ev) m = true ∧
  match ev with
  | Ev c _ =>
      (is_Some (subject c) →
         (∃ wave_range resample opacity,
            Ev (jdi_opannection wave_range resample) (Returns opacity) ∈ m) ∧
         (∃ s d, Ev (xr_update s d) (Returns Receiver) ∈ m)) ∧
      (stage_of c = Some PostProcess →
         ∃ self opacity n_cpu full_output out,
           Ev (phase_curve self opacity n_cpu full_output) (Returns out) ∈ m) ∧
      match c with
      | jpi_phase_curve allout _ _ _ _ _ =>
          ∃ self opacity n_cpu full_output,
            Ev (phase_curve self opacity n_cpu full_output) (Returns allout) ∈ m
      | _ => True
      end
  end.

Definition pipeline : list (option obj * stage) :=
  [(None, LoadOpacity);
   (None, BuildDataset); (None, BuildDataset); (None, BuildDataset);
   (None, BuildDataset);
   (Some case_3d, SetGeometry); (Some case_3d, SetGeometry);
   (Some case_3d, MapAtmosphere);
   (Some case_3d, SetGravityStar); (Some case_3d, SetGravityStar);
   (Some case_3d, ComputePhaseCurve);
   (None, BuildDataset);
   (Some case_3d_clouds, SetGeometry); (Some case_3d_clouds, SetGeometry);
   (Some case_3d_clouds, MapAtmosphere);
   (Some case_3d_clouds, MapClouds);
   (Some case_3d_clouds, SetGravityStar); (Some case_3d_clouds, SetGravityStar);
   (Some case_3d_clouds, ComputePhaseCurve)].

Definition final_pipeline (m : list event) : Prop :=
  omap pipeline_step m = pipeline.

(** *** The spectra of a phase curve *)

Definition keep_spectra (ev : event) : bool :=
  match ev with
  | Ev c r =>
      match c with
      | phase_curve _ _ _ _ | jdi_mean_regrid _ _ _ => returned r
      | _ => false
      end
  end.




(** *** Clouds after the atmosphere *)

Definition keep_clouds (ev : event) : bool :=
  match ev with
  | Ev c r =>
      match c with
      | atmosphere_4d _ _ _ _ _ _ | phase_curve _ _ _ _ => returned r
      | clouds_4d _ _ _ _ => true
      | _ => false
      end
  end.

Definition ok_clouds (m : list event) (ev : event) : Prop :=
  match ev with
  | Ev c _ =>
      match c with
      | clouds_4d self _ _ _ =>
          self = case_3d_clouds ∧
          ∃ ds shift zero_point plot verbose,
            Ev (atmosphere_4d self ds shift zero_point plot verbose) (Returns ()) ∈ m
      | _ => True
      end
  end.

Definition final_clouds (m : list event) : Prop :=
  (∃ ds iz_plot plot r, Ev (clouds_4d case_3d_clouds ds iz_plot plot) r ∈ m) ∧
  (∃ opacity n_cpu full_output out,
     Ev (phase_curve case_3d opacity n_cpu full_output) (Returns out) ∈ m).

(** *** The worker count *)

Definition concurrency_modules : list string :=
  ["threading"; "multiprocessing"; "concurrent.futures"; "asyncio";
   "subprocess"; "joblib"; "queue"; "signal"; "sched"].

Definition keep_workers (ev : event) : bool :=
  match ev with
  | Ev c r => match c with phase_curve _ _ _ _ => returned r | _ => false end
  end.

Definition ok_workers (m : list event) (ev : event) : Prop :=
  match ev with
  | Ev c _ =>
      module_of c ∈ imports ∧
      match c with
      | phase_curve _ _ n_cpu _ => n_cpu = 3%Z
      | _ => True
      end
  end.

Definition final_workers (m : list event) : Prop :=
  (∃ opacity out, Ev (phase_curve case_3d opacity 3 true) (Returns out) ∈ m) ∧
  (∃ opacity out, Ev (phase_curve case_3d_clouds opacity 3 false) (Returns out) ∈ m).

(** *** The phase geometry *)

Definition keep_geometry (ev : event) : bool :=
  match ev with
  | Ev c r => match c with phase_curve_geometry _ _ _ _ _ => returned r | _ => false end
  end.

Definition ok_geometry (m : list event) (ev : event) : Prop :=
  match ev with
  | Ev c _ =>
      match c with
      | phase_curve_geometry _ calculation grid num_gangle num_tangle =>
          calculation = "reflected" ∧ grid = phase_grid ∧
          num_gangle = 6%Z ∧ num_tangle = 6%Z
      | _ => True
      end
  end.

Definition final_geometry (m : list event) : Prop :=
  Ev (phase_curve_geometry case_3d "reflected" phase_grid 6 6) (Returns ()) ∈ m ∧
  Ev (phase_curve_geometry case_3d_clouds "reflected" phase_grid 6 6) (Returns ()) ∈ m.

(** *** The dataset handed to atmosphere_4d *)









(** The library of [demo_lib] with xarray from 2025.10 on: [update]
    returns None. *)
Definition none_lib : library :=
  λ R tr c,
    match c in call R return reply R → reply R with
    | xr_update _ _ => λ _, Returns PyNone
    | _ => λ r, r
    end (demo_lib R tr c).

(** *** The grid of the cloud dataset *)

Definition keep_cloud_grid (ev : event) : bool :=
  match ev with
  | Ev c r => match c with jdi_HJ_pt_3d _ => returned r | _ => false end
  end.

Definition ok_cloud_grid (m : list event) (ev : event) : Prop :=
  match ev with
  | Ev c _ =>
      match c with
      | clouds_4d _ ds _ _ =>
          ∃ gcm lon lat pres opd,
            Ev (jdi_HJ_pt_3d true) (Returns gcm) ∈ m ∧
            coord_values gcm "lon" = Some lon ∧
            coord_values gcm "lat" = Some lat ∧
            coord_values gcm "pressure" = Some pres ∧
            fake_opd lon lat (drop_last pres) = Some opd ∧
            arg_ds ds = ds_cld_of lon lat (drop_last pres) opd
      | _ => True
      end
  end.

(** *** The cloud box *)

(** Every slice [a[i, j, k, :]] is constant: 10 where [W] holds, else 0. *)
Definition slab (lon lat pres : list Q) (W : nat → nat → nat → Prop)
    (a : ndarray) : Prop :=
  ∀ i j k, i < length lon → j < length lat → k < length pres →
    ∃ v, nd_get [i; j; k] a = Some (np_full [length wno_grid] v) ∧
         (W i j k → v = 10%Q) ∧ (¬ W i j k → v = 0%Q).

(** ** Further properties *)

(** *** Shapes *)

(** [a.shape == shape]. *)
Fixpoint has_shape (shape : list nat) (a : ndarray) : bool :=
  match a with
  | Scalar _ => match shape with [] => true | _ => false end
  | Array xs =>
      match shape with
      | [] => false
      | n :: shape' => Nat.eqb (length xs) n && forallb (has_shape shape') xs
      end
  end.

(** The sizes of the named dimensions, from the coordinates of a dataset. *)
Definition dim_sizes (ds : Dataset) (ds_dims : list string) : option (list nat) :=
  mapM (λ d, length <$> coord_values ds d) ds_dims.

(** Every variable has the shape its dimensions' coordinates give; the
    constructor of [xr.Dataset] raises ValueError otherwise. *)
Definition aligned (ds : Dataset) : Prop :=
  ∀ var da, data_vars ds !! var = Some da →
    ∃ shape, dim_sizes ds (dims da) = Some shape ∧ has_shape shape (values da) = true.

(** *** The opacity connection *)

Definition keep_opacity (ev : event) : bool :=
  match ev with
  | Ev c _ => match c with jdi_opannection _ _ => true | _ => false end
  end.

Definition ok_opacity (m : list event) (ev : event) : Prop :=
  match ev with
  | Ev c _ =>
      match c with
      | jdi_opannection wave_range resample =>
          m = [] ∧ wave_range = (lit (1 # 2), lit (9 # 10)) ∧ resample = 100%Z
      | star _ opacity _ _ _ _ _ _ _ | phase_curve _ opacity _ _ =>
          ∃ wave_range resample,
            Ev (jdi_opannection wave_range resample) (Returns opacity) ∈ m
      | _ => True
      end
  end.

(** *** Parts per million *)

(** [f*1e6], elementwise. *)
Definition ppm (f : ndarray) : ndarray := nd_map (λ x, fmul x 1000000) f.

(** *** The plotted phase curves *)

Definition keep_curves (ev : event) : bool :=
  match ev with
  | Ev c r =>
      match c with
      | phase_curve _ _ _ _ | jpi_phase_curve _ _ _ _ _ _ => returned r
      | plt_plot _ _ _ => true
      | _ => false
      end
  end.

Definition ok_curves (m : list event) (ev : event) : Prop :=
  match ev with
  | Ev c _ =>
      match c with
      | plt_plot x y label =>
          ∃ self opacity n_cpu full_output out curves ws fig,
            Ev (jpi_phase_curve out to_plot collapse 10 (Some 1500%Z) true)
               (Returns (x, curves, ws, fig)) ∈ m ∧
            Ev (phase_curve self opacity n_cpu full_output) (Returns out) ∈ m ∧
            y = ppm curves ∧
            ((label = "Cloudless" ∧ self = case_3d) ∨
             (label = "Cloudy" ∧ self = case_3d_clouds))
      | _ => True
      end
  end.

Definition final_curves (m : list event) : Prop :=
  ∃ x y r x' y' r',
    Ev (plt_plot x y "Cloudless") r ∈ m ∧ Ev (plt_plot x' y' "Cloudy") r' ∈ m.

(** *** The plotted spectra *)

(** The [k]-th entries of the lists of a loop over [out] come from its key
    [iphase]: the regridded wavenumbers, the regridded flux in parts per
    million, and the legend entry. *)
Definition from_key (out : phase_curve_output) (m : list event)
    (wno fpfs : list ndarray) (legend : list string) (k : nat) (iphase : Q) : Prop :=
  ∃ sp wavenumber fpfs_reflected w f,
    dict_get out iphase = Some sp ∧
    sp !! "wavenumber" = Some wavenumber ∧
    sp !! "fpfs_reflected" = Some fpfs_reflected ∧
    Ev (jdi_mean_regrid wavenumber fpfs_reflected 100) (Returns (w, f)) ∈ m ∧
    wno !! k = Some w ∧ fpfs !! k = Some (ppm f) ∧
    legend !! k = Some (legend_entry iphase).

Definition ok_by_key (m : list event) (ev : event) : Prop :=
  match ev with
  | Ev c _ =>
      match c with
      | jpi_spectrum wno fpfs plot_width legend _ =>
          plot_width = 500%Z ∧
          ∃ self opacity n_cpu full_output out,
            Ev (phase_curve self opacity n_cpu full_output) (Returns out) ∈ m ∧
            length wno = length out ∧ length fpfs = length out ∧
            length legend = length out ∧
            ∀ k iphase, out.*1 !! k = Some iphase →
                        from_key out m wno fpfs legend k iphase
      | _ => True
      end
  end.

(** *** The configuration of a case *)

(** The call that configures the inputs object [o], written as a call on
    [case_3d]: the phase geometry, the atmosphere, gravity and the star. *)
Definition config_of (o : obj) (ev : event) : option event :=
  match ev with
  | Ev c r =>
      match c in call R return reply R → option event with
      | phase_curve_geometry self calculation grid num_gangle num_tangle =>
          λ r, if Nat.eqb self o
               then Some (Ev (phase_curve_geometry case_3d calculation grid
                                num_gangle num_tangle) r)
               else None
      | atmosphere_4d self ds shift zero_point plot verbose =>
          λ r, if Nat.eqb self o
               then Some (Ev (atmosphere_4d case_3d ds shift zero_point plot verbose) r)
               else None
      | gravity self radius radius_unit mass mass_unit =>
          λ r, if Nat.eqb self o
               then Some (Ev (gravity case_3d radius radius_unit mass mass_unit) r)
               else None
      | star self opacity temp metal logg radius radius_unit semi_major
          semi_major_unit =>
          λ r, if Nat.eqb self o
               then Some (Ev (star case_3d opacity temp metal logg radius radius_unit
                                semi_major semi_major_unit) r)
               else None
      | _ => λ _, None
      end r
  end.

Definition keep_config (ev : event) : bool :=
  match ev with
  | Ev c _ =>
      match c with
      | phase_curve_geometry _ _ _ _ _ | atmosphere_4d _ _ _ _ _ _
      | gravity _ _ _ _ _ | star _ _ _ _ _ _ _ _ _ => true
      | _ => false
      end
  end.

Definition final_config (m : list event) : Prop :=
  omap (config_of case_3d) m = omap (config_of case_3d_clouds) m ∧
  length (omap (config_of case_3d) m) = 4.

(** *** The random draw *)

Definition keep_draw (ev : event) : bool :=
  match ev with
  | Ev c r =>
      match c with
      | jdi_HJ_pt_3d _ => returned r
      | np_random_rand _ => true
      | _ => false
      end
  end.

Definition is_draw (ev : event) : bool :=
  match ev with
  | Ev c _ => match c with np_random_rand _ => true | _ => false end
  end.

Definition ok_draw (m : list event) (ev : event) : Prop :=
  match ev with
  | Ev c _ =>
      match c with
      | np_random_rand shape =>
          (∀ ev', ev' ∈ m → is_draw ev' = false) ∧
          ∃ gcm lon lat pres,
            Ev (jdi_HJ_pt_3d true) (Returns gcm) ∈ m ∧
            coord_values gcm "lon" = Some lon ∧
            coord_values gcm "lat" = Some lat ∧
            coord_values gcm "pressure" = Some pres ∧
            shape = [length lon; length lat; length pres]
      | xr_update self other =>
          ∃ gcm lon lat pres draws,
            Ev (jdi_HJ_pt_3d true) (Returns gcm) ∈ m ∧
            coord_values gcm "lon" = Some lon ∧
            coord_values gcm "lat" = Some lat ∧
            coord_values gcm "pressure" = Some pres ∧
            Ev (np_random_rand [length lon; length lat; length pres])
               (Returns draws) ∈ m ∧
            arg_ds self = gcm ∧
            arg_ds other = ds_chem lon lat pres draws
      | _ => True
      end
  end.

(** *** The cloud band in pressure *)

(** The GCM that was loaded has a pressure level in the cloud band, not
    counting its last level; [ip] is the first one. *)
Definition has_band (m : list event) : Prop :=
  ∃ gcm pres ip,
    Ev (jdi_HJ_pt_3d true) (Returns gcm) ∈ m ∧
    coord_values gcm "pressure" = Some pres ∧
    head (where_pres (drop_last pres)) = Some ip.

Definition keep_band (ev : event) : bool :=
  match ev with
  | Ev c _ => match c with jdi_HJ_pt_3d _ => true | _ => false end
  end.

Definition ok_band (m : list event) (ev : event) : Prop :=
  match ev with
  | Ev c _ =>
      match c with
      | jdi_HJ_pt_3d _ => m = []
      | xr_plot ds var isel x y =>
          var = "opd" →
          ∃ lon lat pres opd ip,
            fake_opd lon lat pres = Some opd ∧
            arg_ds ds = ds_cld_of lon lat pres opd ∧
            head (where_pres pres) = Some ip ∧
            isel = [("pressure", ip); ("wno", 0)] ∧ x = "lon" ∧ y = "lat"
      | _ => subject c = Some case_3d_clouds → has_band m
      end
  end.

(** The dataset a returned [HJ_pt_3d] call gave. *)
Definition loaded_gcm (ev : event) : option Dataset :=
  match ev with
  | Ev c r =>
      match c in call R return reply R → option Dataset with
      | jdi_HJ_pt_3d _ =>
          λ r, match r with Returns gcm => Some gcm | Raises _ => None end
      | _ => λ _, None
      end r
  end.

(** A GCM whose pressure levels, from 1 bar on, all lie deeper than the
    cloud band, and the library of [demo_lib] returning it. *)
Definition deep_gcm : Dataset :=
  {| data_vars := data_vars demo_gcm;
     coords :=
       {[ "lon" := mkCoordinate ["lon"] [-45; 45]%Q [("units", "degrees")];
          "lat" := mkCoordinate ["lat"] [0%Q] [("units", "degrees")];
          "pressure" := mkCoordinate ["pressure"] [1; 10; 100]%Q
                          [("units", "bar")] ]};
     sizes := sizes demo_gcm;
     attrs := [] |}.

Definition deep_lib : library :=
  λ R tr c,
    match c in call R return reply R → reply R with
    | jdi_HJ_pt_3d _ => λ _, Returns deep_gcm
    | _ => λ r, r
    end (demo_lib R tr c).

(** *** What the notebook itself raises *)

Section Explained.
Context {M : Type} (mstep : M → event → M) (mraise : M → exn → Prop).

(** [explained p m h n]: whatever the library answers, an exception that [p]
    raises by itself, not a library call, meets [mraise] in the state the
    monitor is in, and no dataset is read before it exists. *)
Fixpoint explained (p : script) (m : M) (h : list Dataset) (n : obj) : Prop :=
  match p with
  | Done => True
  | Raise e => mraise m e
  | Call c k => ∀ r, explained (k r) (mstep m (Ev c (Returns r))) h n
  | NewObj k => explained (k n) m h (S n)
  | DsNew d k => explained (k (length h)) m (h ++ [d]) n
  | DsRead r k =>
      match h !! r with
      | Some d => explained (k (mkArg r d)) m h n
      | None => False
      end
  | DsWrite r d k => explained k m (<[r := d]> h) n
  | TryExcept _ _ _ => False
  end.
End Explained.

Definition keep_cause (ev : event) : bool :=
  match ev with
  | Ev c r =>
      match c with
      | jdi_HJ_pt_3d _ | phase_curve _ _ _ _ | xr_update _ _ => returned r
      | _ => false
      end
  end.

(** [name] is neither a coordinate nor a dimension of [ds]. *)
Definition absent (ds : Dataset) (name : string) : Prop :=
  coords ds !! name = None ∧ sizes ds !! name = None.

(** Why the notebook raises [e], from the calls made so far. *)
Definition cause (m : list event) (e : exn) : Prop :=
  match e with
  | AttributeError =>
      ∃ gcm,
        Ev (jdi_HJ_pt_3d true) (Returns gcm) ∈ m ∧
        (absent gcm "lon" ∨ absent gcm "lat" ∨ absent gcm "pressure")
  | TypeError =>
      ∃ self other, Ev (xr_update self other) (Returns PyNone) ∈ m
  | OverflowError =>
      ∃ self opacity n_cpu full_output out iphase,
        Ev (phase_curve self opacity n_cpu full_output) (Returns out) ∈ m ∧
        iphase ∈ out.*1 ∧ overflows (iphase * 180) = true
  | KeyError =>
      ∃ self opacity n_cpu full_output out iphase sp,
        Ev (phase_curve self opacity n_cpu full_output) (Returns out) ∈ m ∧
        dict_get out iphase = Some sp ∧
        (sp !! "wavenumber" = None ∨ sp !! "fpfs_reflected" = None)
  | IndexError =>
      ∃ gcm pres,
        Ev (jdi_HJ_pt_3d true) (Returns gcm) ∈ m ∧
        coord_values gcm "pressure" = Some pres ∧
        where_pres (drop_last pres) = []
  | LibraryError _ => False
  end.

(** A GCM in which lat is neither a coordinate nor a dimension, and the
    library of [demo_lib] returning it. *)
Definition bare_gcm : Dataset :=
  {| data_vars :=
       {[ "temperature" := mkDataArray ["lon"; "pressure"]
                             (np_full [2; 3] 1000%Q) [("units", "K")] ]};
     coords := delete "lat" (coords demo_gcm);
     sizes := {[ "lon" := 2; "pressure" := 3 ]};
     attrs := [] |}.

Definition bare_lib : library :=
  λ R tr c,
    match c in call R return reply R → reply R with
    | jdi_HJ_pt_3d _ => λ _, Returns bare_gcm
    | _ => λ r, r
    end (demo_lib R tr c).

(** A GCM in which lat is a dimension without a coordinate, and the library
    of [demo_lib] returning it. *)
Definition unindexed_gcm : Dataset :=
  {| data_vars := data_vars demo_gcm;
     coords := delete "lat" (coords demo_gcm);
     sizes := sizes demo_gcm;
     attrs := [] |}.

Definition unindexed_lib : library :=
  λ R tr c,
    match c in call R return reply R → reply R with
    | jdi_HJ_pt_3d _ => λ _, Returns unindexed_gcm
    | _ => λ r, r
    end (demo_lib R tr c).

(** *** The maps of cells 7 and 26 *)

Definition keep_maps (ev : event) : bool :=
  match ev with
  | Ev c r => match c with xr_plot _ _ _ _ _ => returned r | _ => false end
  end.

Definition ok_maps (m : list event) (ev : event) : Prop :=
  match ev with
  | Ev c _ =>
      match c with
      | atmosphere_4d _ ds _ _ _ _ =>
          Ev (xr_plot ds "temperature" [("pressure", 34)] "lon" "lat") (Returns ()) ∈ m
      | clouds_4d _ ds _ _ =>
          ∃ ip,
            Ev (xr_plot ds "opd" [("pressure", ip); ("wno", 0)] "lon" "lat")
               (Returns ()) ∈ m
      | _ => True
      end
  end.

(** *** Spectra without their arrays *)

(** Every spectrum of a [phase_curve] result has the two arrays the loops
    of cells 22 and 35 read. *)
Definition complete (out : phase_curve_output) : Prop :=
  ∀ iphase, iphase ∈ out.*1 →
    ∃ sp, dict_get out iphase = Some sp ∧
          is_Some (sp !! "wavenumber") ∧ is_Some (sp !! "fpfs_reflected").

(** What a returned [phase_curve] computation gave. *)
Definition computed (ev : event) : option phase_curve_output :=
  match ev with
  | Ev c r =>
      match c in call R return reply R → option phase_curve_output with
      | phase_curve _ _ _ _ =>
          λ r, match r with Returns out => Some out | Raises _ => None end
      | _ => λ _, None
      end r
  end.

Definition keep_complete (ev : event) : bool :=
  match computed ev with Some _ => true | None => false end.

Definition all_complete (m : list event) : Prop :=
  ∀ ev out, ev ∈ m → computed ev = Some out → complete out.

Definition ok_complete (m : list event) (ev : event) : Prop :=
  match ev with
  | Ev c _ => subject c = Some case_3d_clouds → all_complete m
  end.

(** The library of [demo_lib], except that the second spectrum of every
    [phase_curve] result has no 'wavenumber'. *)
Definition hollow_lib : library :=
  λ R tr c,
    match c in call R return reply R → reply R with
    | phase_curve _ _ _ _ =>
        λ _, Returns [(0%Q, demo_spectrum);
                      (np_pi, delete "wavenumber" demo_spectrum)]
    | _ => λ r, r
    end (demo_lib R tr c).

(** * Proofs *)

(** ** Rounding *)

Section Rounding.
Local Open Scope Q_scope.

#[local] Instance round_half_even_comp : Proper (Qeq ==> eq) round_half_even.
Proof.
  intros x y Hxy. unfold round_half_even.
  rewrite (Qfloor_comp _ _ Hxy).
  assert (H : x - inject_Z (Qfloor y) == y - inject_Z (Qfloor y)) by (rewrite Hxy; reflexivity).
  rewrite (Qcompare_comp _ _ H _ _ (Qeq_refl (1#2))). reflexivity.
Qed.

Lemma Qfloor_bounds (q : Q) : inject_Z (Qfloor q) <= q /\ q < inject_Z (Qfloor q) + 1.
Proof.
  split; [apply Qfloor_le|].
  pose proof (Qlt_floor q) as H. rewrite inject_Z_plus in H. exact H.
Qed.

Lemma round_half_even_near (q : Q) :
  q - (1#2) <= inject_Z (round_half_even q) /\ inject_Z (round_half_even q) <= q + (1#2).
Proof.
  unfold round_half_even. destruct (Qfloor_bounds q) as [Hl Hu].
  destruct (Qcompare_spec (q - inject_Z (Qfloor q)) (1#2)) as [He|Hlt|Hgt];
    [destruct (Z.even (Qfloor q))|..]; rewrite ?inject_Z_plus; simpl inject_Z at 1; split; try lra.
  all: change (inject_Z 1) with 1; lra.
Qed.

Lemma round_half_even_mono (x y : Q) : x <= y -> (round_half_even x <= round_half_even y)%Z.
Proof.
  intros Hxy.
  pose proof (Qfloor_resp_le _ _ Hxy) as Hf.
  destruct (Z.eq_dec (Qfloor x) (Qfloor y)) as [E|NE].
  - unfold round_half_even. rewrite E.
    destruct (Qcompare_spec (x - inject_Z (Qfloor y)) (1#2)) as [He|Hlt|Hgt];
    destruct (Qcompare_spec (y - inject_Z (Qfloor y)) (1#2)) as [He'|Hlt'|Hgt'];
      try destruct (Z.even (Qfloor y)); try lia; exfalso; lra.
  - assert (Hlt : (Qfloor x + 1 <= Qfloor y)%Z) by lia.
    transitivity (Qfloor x + 1)%Z.
    + unfold round_half_even. destruct (Qcompare _ _); try destruct (Z.even _); lia.
    + transitivity (Qfloor y); [exact Hlt|].
      unfold round_half_even. destruct (Qcompare _ _); try destruct (Z.even _); lia.
Qed.

Lemma round_half_even_Z (z : Z) : round_half_even (inject_Z z) = z.
Proof.
  unfold round_half_even. rewrite Qfloor_Z.
  destruct (Qcompare_spec (inject_Z z - inject_Z z) (1#2)) as [He|Hlt|Hgt]; [exfalso; lra| reflexivity | exfalso; lra].
Qed.

Lemma pow2_pos (e : Z) : 0 < pow2 e.
Proof. apply Qpower_0_lt. reflexivity. Qed.

Lemma pow2_plus (a b : Z) : pow2 (a + b) == pow2 a * pow2 b.
Proof. apply Qpower_plus. discriminate. Qed.

Lemma pow2_le (a b : Z) : (a <= b)%Z -> pow2 a <= pow2 b.
Proof. intros H. apply Qpower_le_compat_l; [exact H | discriminate]. Qed.

Lemma pow2_lt (a b : Z) : (a < b)%Z -> pow2 a < pow2 b.
Proof. intros H. apply Qpower_lt_compat_l; [exact H | reflexivity]. Qed.

Lemma pow2_Z (e : Z) : (0 <= e)%Z -> pow2 e == inject_Z (2 ^ e).
Proof. intros H. unfold pow2. rewrite Zpower_Qpower by exact H. reflexivity. Qed.

Lemma pow2_succ (e : Z) : pow2 (e + 1) == 2 * pow2 e.
Proof. rewrite pow2_plus. change (pow2 1) with 2. ring. Qed.

Lemma ilog2_spec (q : Q) : 0 < q -> pow2 (ilog2 q) <= q /\ q < pow2 (ilog2 q + 1).
Proof.
  intros Hq. destruct q as [n d].
  assert (Hn : (0 < n)%Z) by (unfold Qlt in Hq; simpl in Hq; lia).
  unfold ilog2; cbn [Qnum Qden].
  set (ln := Z.log2 n). set (ld := Z.log2 (Z.pos d)).
  destruct (Z.log2_spec n Hn) as [Hn1 Hn2]. fold ln in Hn1, Hn2.
  destruct (Z.log2_spec (Z.pos d) (Pos2Z.is_pos d)) as [Hd1 Hd2]. fold ld in Hd1, Hd2.
  assert (Hln : (0 <= ln)%Z) by apply Z.log2_nonneg.
  assert (Hld : (0 <= ld)%Z) by apply Z.log2_nonneg.
  assert (HN1 : pow2 ln <= inject_Z n) by (rewrite pow2_Z by lia; rewrite <- Zle_Qle; exact Hn1).
  assert (HN2 : inject_Z n < pow2 (ln + 1)) by (rewrite pow2_Z by lia; rewrite <- Zlt_Qlt; lia).
  assert (HD1 : pow2 ld <= inject_Z (Z.pos d)) by (rewrite pow2_Z by lia; rewrite <- Zle_Qle; exact Hd1).
  assert (HD2 : inject_Z (Z.pos d) < pow2 (ld + 1)) by (rewrite pow2_Z by lia; rewrite <- Zlt_Qlt; lia).
  assert (HD0 : 0 < inject_Z (Z.pos d)) by (rewrite <- (Zlt_Qlt 0); lia).
  assert (Hqd : (n # d) * inject_Z (Z.pos d) == inject_Z n).
  { rewrite (Qmake_Qdiv n d). field. intros E. rewrite E in HD0. discriminate. }
  destruct (Qle_bool (pow2 (ln - ld)) (n # d)) eqn:Hb.
  - apply Qle_bool_iff in Hb. split; [exact Hb|].
    apply (Qmult_lt_r _ _ _ HD0). rewrite Hqd.
    eapply Qlt_le_trans; [exact HN2|].
    replace (ln + 1)%Z with ((ln - ld + 1) + ld)%Z by ring.
    rewrite pow2_plus. apply Qmult_le_l; [apply pow2_pos | exact HD1].
  - assert (Hlt : n # d < pow2 (ln - ld)).
    { apply Qnot_le_lt. intros H. apply Qle_bool_iff in H. congruence. }
    replace (ln - ld - 1 + 1)%Z with (ln - ld)%Z by ring. split; [|exact Hlt].
    apply (Qmult_le_r _ _ _ HD0). rewrite Hqd.
    eapply Qle_trans; [|exact HN1].
    replace ln with ((ln - ld - 1) + (ld + 1))%Z at 2 by ring.
    rewrite pow2_plus. apply Qmult_le_l; [apply pow2_pos | apply Qlt_le_weak; exact HD2].
Qed.

Lemma ilog2_unique (q : Q) (e : Z) : pow2 e <= q -> q < pow2 (e + 1) -> ilog2 q = e.
Proof.
  intros H1 H2.
  assert (Hq : 0 < q) by (eapply Qlt_le_trans; [apply pow2_pos | exact H1]).
  destruct (ilog2_spec q Hq) as [S1 S2].
  destruct (Z.lt_trichotomy (ilog2 q) e) as [L|[E|G]]; [exfalso | exact E | exfalso].
  - assert (pow2 (ilog2 q + 1) <= pow2 e) by (apply pow2_le; lia). lra.
  - assert (pow2 (e + 1) <= pow2 (ilog2 q)) by (apply pow2_le; lia). lra.
Qed.

Lemma ilog2_comp (x y : Q) : 0 < x -> x == y -> ilog2 x = ilog2 y.
Proof.
  intros Hx Hxy. destruct (ilog2_spec x Hx) as [S1 S2].
  symmetry. apply ilog2_unique; rewrite <- Hxy; assumption.
Qed.

Lemma ilog2_mono (x y : Q) : 0 < x -> x <= y -> (ilog2 x <= ilog2 y)%Z.
Proof.
  intros Hx Hxy.
  assert (Hy : 0 < y) by lra.
  destruct (ilog2_spec x Hx) as [X1 X2]. destruct (ilog2_spec y Hy) as [Y1 Y2].
  destruct (Z_le_gt_dec (ilog2 x) (ilog2 y)) as [L|G]; [exact L | exfalso].
  assert (pow2 (ilog2 y + 1) <= pow2 (ilog2 x)) by (apply pow2_le; lia). lra.
Qed.

Lemma rnd_pos_comp (x y : Q) : 0 < x -> x == y -> rnd_pos x == rnd_pos y.
Proof.
  intros Hx Hxy. unfold rnd_pos. rewrite (ilog2_comp x y Hx Hxy).
  assert (E : x / pow2 (ilog2 y - 52) == y / pow2 (ilog2 y - 52)) by (rewrite Hxy; reflexivity).
  rewrite (round_half_even_comp _ _ E). reflexivity.
Qed.

(** The scaled significand of a positive number lies in [2^52, 2^53). *)
Lemma scaled_bounds (q : Q) : 0 < q ->
  inject_Z (2 ^ 52) <= q / pow2 (ilog2 q - 52) /\ q / pow2 (ilog2 q - 52) < inject_Z (2 ^ 53).
Proof.
  intros Hq. destruct (ilog2_spec q Hq) as [S1 S2].
  pose proof (pow2_pos (ilog2 q - 52)) as Hp.
  rewrite <- (pow2_Z 52), <- (pow2_Z 53) by lia. split.
  - apply Qle_shift_div_l; [exact Hp|]. rewrite <- pow2_plus.
    replace (52 + (ilog2 q - 52))%Z with (ilog2 q) by ring. exact S1.
  - apply Qlt_shift_div_r; [exact Hp|]. rewrite <- pow2_plus.
    replace (53 + (ilog2 q - 52))%Z with (ilog2 q + 1)%Z by ring. exact S2.
Qed.

Lemma rnd_pos_bounds (q : Q) : 0 < q ->
  pow2 (ilog2 q) <= rnd_pos q /\ rnd_pos q <= pow2 (ilog2 q + 1).
Proof.
  intros Hq. destruct (scaled_bounds q Hq) as [B1 B2].
  pose proof (pow2_pos (ilog2 q - 52)) as Hp.
  unfold rnd_pos; cbv zeta. split.
  - replace (ilog2 q) with (52 + (ilog2 q - 52))%Z at 1 by ring.
    rewrite pow2_plus. apply Qmult_le_compat_r; [|apply Qlt_le_weak; exact Hp].
    rewrite (pow2_Z 52) by lia. rewrite <- Zle_Qle.
    rewrite <- (round_half_even_Z (2 ^ 52)). apply round_half_even_mono. exact B1.
  - replace (ilog2 q + 1)%Z with (53 + (ilog2 q - 52))%Z by ring.
    rewrite pow2_plus. apply Qmult_le_compat_r; [|apply Qlt_le_weak; exact Hp].
    rewrite (pow2_Z 53) by lia. rewrite <- Zle_Qle.
    rewrite <- (round_half_even_Z (2 ^ 53)). apply round_half_even_mono.
    apply Qlt_le_weak. exact B2.
Qed.

Lemma rnd_pos_pos (q : Q) : 0 < q -> 0 < rnd_pos q.
Proof.
  intros Hq. destruct (rnd_pos_bounds q Hq) as [B _].
  eapply Qlt_le_trans; [apply pow2_pos | exact B].
Qed.

Lemma rnd_pos_mono (x y : Q) : 0 < x -> x <= y -> rnd_pos x <= rnd_pos y.
Proof.
  intros Hx Hxy. assert (Hy : 0 < y) by lra.
  pose proof (ilog2_mono x y Hx Hxy) as He.
  destruct (Z.eq_dec (ilog2 x) (ilog2 y)) as [E|NE].
  - unfold rnd_pos; cbv zeta. rewrite E.
    pose proof (pow2_pos (ilog2 y - 52)) as Hp.
    apply Qmult_le_compat_r; [|apply Qlt_le_weak; exact Hp].
    rewrite <- Zle_Qle. apply round_half_even_mono.
    apply Qle_shift_div_l; [exact Hp|].
    assert (K : x / pow2 (ilog2 y - 52) * pow2 (ilog2 y - 52) == x) by (field; lra).
    rewrite K. exact Hxy.
  - destruct (rnd_pos_bounds x Hx) as [_ Bx]. destruct (rnd_pos_bounds y Hy) as [By _].
    assert (pow2 (ilog2 x + 1) <= pow2 (ilog2 y)) by (apply pow2_le; lia). lra.
Qed.

Lemma rnd_correct (q : Q) :
  rnd q == match Qcompare q 0 with Eq => 0 | Gt => rnd_pos q | Lt => - rnd_pos (- q) end.
Proof. unfold rnd. apply Qred_correct. Qed.

Lemma rnd_of_pos (q : Q) : 0 < q -> rnd q == rnd_pos q.
Proof.
  intros H. rewrite rnd_correct.
  destruct (Qcompare_spec q 0); [exfalso; lra | exfalso; lra | reflexivity].
Qed.

Lemma rnd_of_neg (q : Q) : q < 0 -> rnd q == - rnd_pos (- q).
Proof.
  intros H. rewrite rnd_correct.
  destruct (Qcompare_spec q 0); [exfalso; lra | reflexivity | exfalso; lra].
Qed.

Lemma rnd_of_zero (q : Q) : q == 0 -> rnd q == 0.
Proof.
  intros H. rewrite rnd_correct.
  destruct (Qcompare_spec q 0); [reflexivity | exfalso; lra | exfalso; lra].
Qed.

Lemma rnd_comp (x y : Q) : x == y -> rnd x = rnd y.
Proof.
  intros Hxy. unfold rnd. apply Qred_complete.
  rewrite (Qcompare_comp _ _ Hxy _ _ (Qeq_refl 0)).
  destruct (Qcompare_spec y 0) as [E|L|G]; [reflexivity | |].
  - assert (H : 0 < - x) by lra. apply Qopp_comp. apply rnd_pos_comp; [exact H | rewrite Hxy; reflexivity].
  - apply rnd_pos_comp; [rewrite Hxy; exact G | exact Hxy].
Qed.

(** Rounding to nearest is monotone. *)
Lemma rnd_mono (x y : Q) : x <= y -> rnd x <= rnd y.
Proof.
  intros Hxy.
  destruct (Q_dec x 0) as [[Hx|Hx]|Hx]; destruct (Q_dec y 0) as [[Hy|Hy]|Hy]; try (exfalso; lra).
  - rewrite (rnd_of_neg x Hx), (rnd_of_neg y Hy).
    assert (rnd_pos (- y) <= rnd_pos (- x)) by (apply rnd_pos_mono; lra). lra.
  - rewrite (rnd_of_neg x Hx), (rnd_of_pos y Hy).
    assert (0 < rnd_pos (- x)) by (apply rnd_pos_pos; lra).
    pose proof (rnd_pos_pos y Hy). lra.
  - rewrite (rnd_of_neg x Hx), (rnd_of_zero y Hy).
    assert (0 < rnd_pos (- x)) by (apply rnd_pos_pos; lra). lra.
  - rewrite (rnd_of_pos x Hx), (rnd_of_pos y Hy). apply rnd_pos_mono; assumption.
  - rewrite (rnd_of_zero x Hx), (rnd_of_pos y Hy). pose proof (rnd_pos_pos y Hy). lra.
  - rewrite (rnd_of_zero x Hx), (rnd_of_zero y Hy). lra.
Qed.

Lemma Qfloor_unique (x : Q) (n : Z) : inject_Z n <= x -> x < inject_Z n + 1 -> Qfloor x = n.
Proof.
  intros H1 H2. destruct (Qfloor_bounds x) as [F1 F2].
  assert (A : (Qfloor x < n + 1)%Z).
  { rewrite Zlt_Qlt, inject_Z_plus. change (inject_Z 1) with 1. lra. }
  assert (B : (n < Qfloor x + 1)%Z).
  { rewrite Zlt_Qlt, inject_Z_plus. change (inject_Z 1) with 1. lra. }
  lia.
Qed.

Lemma round_half_even_above (x : Q) (z : Z) :
  inject_Z z <= x -> x < inject_Z z + (1 # 2) -> round_half_even x = z.
Proof.
  intros H1 H2. unfold round_half_even.
  rewrite (Qfloor_unique x z) by lra.
  destruct (Qcompare_spec (x - inject_Z z) (1 # 2)); [exfalso; lra | reflexivity | exfalso; lra].
Qed.

Lemma round_half_even_below (x : Q) (z : Z) :
  Z.even z = true -> inject_Z z - (1 # 2) <= x -> x < inject_Z z -> round_half_even x = z.
Proof.
  intros Hev H1 H2. unfold round_half_even.
  assert (Hz : inject_Z (z - 1) == inject_Z z - 1).
  { unfold Z.sub. rewrite inject_Z_plus. reflexivity. }
  rewrite (Qfloor_unique x (z - 1)) by (rewrite Hz; lra).
  assert (Hodd : Z.even (z - 1) = false).
  { rewrite Z.even_sub, Hev. reflexivity. }
  rewrite Hodd.
  destruct (Qcompare_spec (x - inject_Z (z - 1)) (1 # 2)) as [E|L|G]; try lia.
  exfalso. rewrite Hz in L. lra.
Qed.

(** Rounding error in the binade [1/2, 1): at most half a unit in the last
    place, 2^-54. *)
Lemma rnd_error_half_one (t : Q) :
  1 # 2 <= t -> t < 1 -> t - pow2 (-54) <= rnd t /\ rnd t <= t + pow2 (-54).
Proof.
  intros H1 H2.
  assert (Ht : 0 < t) by lra.
  rewrite (rnd_of_pos t Ht). unfold rnd_pos; cbv zeta.
  rewrite (ilog2_unique t (-1)) by assumption.
  change (-1 - 52)%Z with (-53)%Z.
  destruct (round_half_even_near (t / pow2 (-53))) as [N1 N2].
  revert N1 N2. generalize (round_half_even (t / pow2 (-53))). intros m.
  change (pow2 (-53)) with (1 # 9007199254740992).
  change (pow2 (-54)) with (1 # 18014398509481984).
  intros N1 N2.
  assert (E : t / (1 # 9007199254740992) == t * 9007199254740992) by (field).
  rewrite E in N1, N2. split; lra.
Qed.

(** Numbers within 2^-54 of one round to one (the tie below one goes to the
    even significand 2^53). *)
Lemma rnd_near_one (s : Q) :
  1 - pow2 (-54) <= s -> s <= 1 + pow2 (-54) -> rnd s = 1.
Proof.
  change (pow2 (-54)) with (1 # 18014398509481984). intros H1 H2.
  change (rnd s = Qred 1). unfold rnd. apply Qred_complete.
  destruct (Qcompare_spec s 0) as [E|L|G]; [exfalso; lra | exfalso; lra |].
  unfold rnd_pos; cbv zeta.
  destruct (Qlt_le_dec s 1) as [Hlt|Hge].
  - rewrite (ilog2_unique s (-1)) by (change (pow2 (-1)) with (1#2); change (pow2 (-1 + 1)) with 1; lra).
    change (-1 - 52)%Z with (-53)%Z. change (pow2 (-53)) with (1 # 9007199254740992).
    assert (E : s / (1 # 9007199254740992) == s * 9007199254740992) by (field).
    rewrite (round_half_even_below _ (2 ^ 53)); [reflexivity | reflexivity | |];
      rewrite E; change (inject_Z (2 ^ 53)) with 9007199254740992; lra.
  - rewrite (ilog2_unique s 0) by (change (pow2 0) with 1; change (pow2 (0 + 1)) with 2; lra).
    change (0 - 52)%Z with (-52)%Z. change (pow2 (-52)) with (1 # 4503599627370496).
    assert (E : s / (1 # 4503599627370496) == s * 4503599627370496) by (field).
    rewrite (round_half_even_above _ (2 ^ 52)); [reflexivity | |];
      rewrite E; change (inject_Z (2 ^ 52)) with 4503599627370496; lra.
Qed.

End Rounding.

(** ** Arrays *)

Lemma nd_get_map f idx : ∀ a, nd_get idx (nd_map f a) = nd_map f <$> nd_get idx a.
Proof.
  induction idx as [|i idx IH]; intros a; [done|].
  destruct a as [x|xs]; simpl; [done|].
  rewrite list_lookup_fmap. destruct (xs !! i) as [x|]; simpl; [apply IH | done].
Qed.

Section Chemistry.
Local Open Scope Q_scope.

Lemma lit_tenth : lit (1 # 10) = 3602879701896397 # 36028797018963968.
Proof. vm_compute. reflexivity. Qed.

Lemma lit_fifth : lit (2 # 10) = 3602879701896397 # 18014398509481984.
Proof. vm_compute. reflexivity. Qed.

Lemma H2O_range (r : Q) :
  0 <= r → r < 1 →
  lit (1 # 10) <= fadd (fmul r (lit (1 # 10))) (lit (1 # 10)) <= lit (2 # 10).
Proof.
  intros H0 H1. unfold fadd, fmul.
  set (c := lit (1 # 10)).
  assert (Hc : c == 3602879701896397 # 36028797018963968) by (unfold c; rewrite lit_tenth; reflexivity).
  assert (Hm0 : 0 <= rnd (r * c)).
  { change 0 with (rnd 0). apply rnd_mono. rewrite Hc. nra. }
  assert (Hm1 : rnd (r * c) <= c).
  { assert (E : c = rnd c) by (unfold c; vm_compute; reflexivity).
    rewrite E at 2. apply rnd_mono. rewrite Hc. nra. }
  split.
  - assert (E : c = rnd c) by (unfold c; vm_compute; reflexivity).
    rewrite E at 1. apply rnd_mono. lra.
  - assert (E : lit (2 # 10) = rnd (c + c)) by (unfold c; vm_compute; reflexivity).
    rewrite E. apply rnd_mono. lra.
Qed.

Lemma H2O_H2_sum (h : Q) :
  lit (1 # 10) <= h → h <= lit (2 # 10) → fadd h (fsub 1 h) = 1.
Proof.
  rewrite lit_tenth, lit_fifth. intros H1 H2. unfold fadd, fsub.
  assert (Ht1 : 1 # 2 <= 1 - h) by lra.
  assert (Ht2 : 1 - h < 1) by lra.
  destruct (rnd_error_half_one (1 - h) Ht1 Ht2) as [E1 E2].
  apply rnd_near_one; lra.
Qed.

End Chemistry.

Lemma ds_chem_value lon lat pres draws idx r :
  nd_get idx draws = Some (Scalar r) →
  ds_value (ds_chem lon lat pres draws) "H2O" idx =
    Some (fadd (fmul r (lit (1 # 10))) (lit (1 # 10))) ∧
  ds_value (ds_chem lon lat pres draws) "H2" idx =
    Some (fsub 1 (fadd (fmul r (lit (1 # 10))) (lit (1 # 10)))).
Proof.
  intros Hget. unfold ds_value, ds_chem; cbn [data_vars]. split.
  - rewrite lookup_insert_eq. cbn [mbind option_bind values].
    unfold fake_chem_H2O. by rewrite nd_get_map, Hget.
  - rewrite lookup_insert_ne by done. rewrite lookup_singleton_eq.
    cbn [mbind option_bind values].
    unfold fake_chem_H2, fake_chem_H2O. by rewrite !nd_get_map, Hget.
Qed.

(** C3, as amended.  In the chemistry dataset, at every grid point and for
    every draw r with 0 <= r < 1, the H2O mixing ratio lies in the closed
    interval from 0.1 to the double nearest 0.2, the H2 mixing ratio is the
    double-precision difference 1 - H2O, and the double-precision sum
    H2O + H2 is exactly 1. *)
Theorem chem_mixing_ratios (lon lat pres : list Q) (draws : ndarray)
    (idx : list nat) (r : Q) :
  nd_get idx draws = Some (Scalar r) → (0 <= r)%Q → (r < 1)%Q →
  ∃ h2o h2,
    ds_value (ds_chem lon lat pres draws) "H2O" idx = Some h2o ∧
    ds_value (ds_chem lon lat pres draws) "H2" idx = Some h2 ∧
    (1 # 10 <= h2o)%Q ∧ (h2o <= lit (2 # 10))%Q ∧
    h2 = fsub 1 h2o ∧
    fadd h2o h2 = 1%Q.
Proof.
  intros Hget H0 H1.
  destruct (ds_chem_value lon lat pres draws idx r Hget) as [Hh2o Hh2].
  destruct (H2O_range r H0 H1) as [Hlo Hhi].
  eexists _, _. split; [exact Hh2o|]. split; [exact Hh2|].
  split.
  { eapply Qle_trans; [|exact Hlo]. rewrite lit_tenth. discriminate. }
  split; [exact Hhi|]. split; [reflexivity|].
  apply H2O_H2_sum; assumption.
Qed.

Lemma chem_mixing_ratios_witness :
  ∃ h2o h2,
    ds_value (ds_chem [0%Q] [0%Q] [1%Q] (np_full [1; 1; 1] (1 # 2))) "H2O" [0; 0; 0] =
      Some h2o ∧
    ds_value (ds_chem [0%Q] [0%Q] [1%Q] (np_full [1; 1; 1] (1 # 2))) "H2" [0; 0; 0] =
      Some h2 ∧
    (1 # 10 <= h2o)%Q ∧ (h2o <= lit (2 # 10))%Q ∧
    h2 = fsub 1 h2o ∧
    fadd h2o h2 = 1%Q.
Proof.
  apply (chem_mixing_ratios [0%Q] [0%Q] [1%Q] (np_full [1; 1; 1] (1 # 2))
           [0; 0; 0] (1 # 2)).
  - reflexivity.
  - discriminate.
  - reflexivity.
Defined.

(** C3 as stated fails: [last_draw], the largest double below 1, is a
    value [np.random.rand] can return; with it the H2O mixing ratio is the
    double nearest 0.2, which is not below 0.2. *)
Lemma H2O_reaches_upper_bound :
  (0 <= last_draw)%Q ∧ (last_draw < 1)%Q ∧ rnd last_draw = last_draw ∧
  nd_get [0; 0; 0] (np_full [1; 1; 1] last_draw) = Some (Scalar last_draw) ∧
  ds_value (ds_chem [0%Q] [0%Q] [1%Q] (np_full [1; 1; 1] last_draw)) "H2O" [0; 0; 0] =
    Some (lit (2 # 10)) ∧
  ¬ (lit (2 # 10) < 2 # 10)%Q.
Proof.
  split; [discriminate|]. split; [reflexivity|].
  split; [vm_compute; reflexivity|]. split; [reflexivity|].
  split; [vm_compute; reflexivity|].
  rewrite lit_fifth. discriminate.
Qed.

(** ** The cloud box *)

(** *** Arrays *)

Lemma nd_get_full_cons i idx n shape v :
  i < n → nd_get (i :: idx) (np_full (n :: shape) v) = nd_get idx (np_full shape v).
Proof. intros Hi. simpl. by rewrite lookup_replicate_2. Qed.

Lemma nd_map_full f shape : ∀ v, nd_map f (np_full shape v) = np_full shape (f v).
Proof.
  induction shape as [|n shape IH]; intros v; simpl; [done|].
  by rewrite fmap_replicate, IH.
Qed.

Lemma nd_assign_spec v idx : ∀ a sub,
  nd_get idx a = Some sub →
  ∃ a', nd_assign idx v a = Some a' ∧
        nd_get idx a' = Some (nd_map (λ _, v) sub) ∧
        ∀ idx', length idx' = length idx → idx' ≠ idx → nd_get idx' a' = nd_get idx' a.
Proof.
  induction idx as [|i idx IH]; intros a sub Hget.
  - simpl in *. simplify_eq. eexists. split; [done|]. split; [done|].
    intros [|??] ? ?; done.
  - destruct a as [x|xs]; simpl in Hget; [done|].
    destruct (xs !! i) as [x|] eqn:Hx; simpl in Hget; [|done].
    destruct (IH x sub Hget) as (x' & Hx' & Hsame & Hother).
    exists (Array (<[i := x']> xs)). simpl. rewrite Hx. simpl. rewrite Hx'. simpl.
    split; [done|]. split.
    + rewrite list_lookup_insert_eq by (by eapply lookup_lt_Some). done.
    + intros [|i' idx'] Hlen Hne; [done|]. simpl in *.
      destruct (decide (i' = i)) as [->|Hi].
      * rewrite list_lookup_insert_eq by (by eapply lookup_lt_Some).
        rewrite Hx. simpl. apply Hother; [lia | congruence].
      * by rewrite list_lookup_insert_ne.
Qed.

Lemma for_each_inv {A S : Type} (P : list A → S → Prop) (body : A → S → option S) xs :
  ∀ done s,
    P done s →
    (∀ done x s, P done s → x ∈ xs → ∃ s', body x s = Some s' ∧ P (done ++ [x]) s') →
    ∃ s', for_each xs body s = Some s' ∧ P (done ++ xs) s'.
Proof.
  induction xs as [|x xs IH]; intros done s HP Hbody; simpl.
  - exists s. by rewrite app_nil_r.
  - destruct (Hbody done x s HP) as (s' & Hs' & HP'); [left|].
    rewrite Hs'. simpl.
    destruct (IH (done ++ [x]) s' HP') as (s'' & Hs'' & HP'').
    { intros d y t Ht Hy. apply Hbody; [done | by right]. }
    exists s''. split; [done|]. by rewrite <- app_assoc in HP''.
Qed.

Lemma where_from_spec mask : ∀ i j,
  j ∈ where_from i mask ↔ i ≤ j ∧ mask !! (j - i) = Some true.
Proof.
  induction mask as [|b mask IH]; intros i j; simpl.
  - split; [by intros ?%elem_of_nil | by intros [_ ?]].
  - rewrite elem_of_app, IH. split.
    + intros [H|[Hle Hl]].
      * destruct b; [|by apply elem_of_nil in H].
        apply list_elem_of_singleton in H as ->.
        split; [lia|]. by rewrite Nat.sub_diag.
      * split; [lia|]. replace (j - i) with (S (j - S i)) by lia. done.
    + intros [Hle Hl]. destruct (decide (j = i)) as [->|Hne].
      * left. rewrite Nat.sub_diag in Hl. simpl in Hl. simplify_eq.
        apply list_elem_of_singleton. done.
      * right. split; [lia|]. replace (j - i) with (S (j - S i)) in Hl by lia. done.
Qed.

Lemma np_where_spec mask j : j ∈ np_where mask ↔ mask !! j = Some true.
Proof.
  unfold np_where. rewrite where_from_spec, Nat.sub_0_r. split; [by intros [_ ?] | split; [lia | done]].
Qed.

Lemma np_where_fmap {A} (f : A → bool) (l : list A) j :
  j ∈ np_where (f <$> l) ↔ ∃ x, l !! j = Some x ∧ f x = true.
Proof.
  rewrite np_where_spec, list_lookup_fmap. split.
  - destruct (l !! j) as [x|]; simpl; [|done]. intros [= H]. eauto.
  - intros (x & -> & H). simpl. by rewrite H.
Qed.

Lemma flt_spec x y : flt x y = true ↔ (x < y)%Q.
Proof.
  unfold flt. destruct (Qcompare_spec x y) as [E|L|G]; split; try done.
  - intros H. rewrite E in H. by apply Qlt_irrefl in H.
  - intros H. exfalso. eapply Qlt_irrefl, Qlt_trans; eassumption.
Qed.

Lemma fgt_spec x y : fgt x y = true ↔ (y < x)%Q.
Proof. apply flt_spec. Qed.

(** *** The cloud box *)

Section Cloud.
Context (lon lat pres : list Q).

Lemma slab_zeros : slab lon lat pres (λ _ _ _, False) (np_zeros (cloud_shape lon lat pres)).
Proof.
  intros i j k Hi Hj Hk. exists 0%Q. unfold np_zeros, cloud_shape.
  rewrite !nd_get_full_cons by done. split; [done|]. tauto.
Qed.

Lemma slab_iff W W' a :
  (∀ i j k, W i j k ↔ W' i j k) → slab lon lat pres W a → slab lon lat pres W' a.
Proof.
  intros HW Hs i j k Hi Hj Hk. destruct (Hs i j k Hi Hj Hk) as (v & Hv & H1 & H0).
  exists v. rewrite <- HW. done.
Qed.

Lemma slab_assign W a i0 j0 k0 :
  i0 < length lon → j0 < length lat → k0 < length pres → slab lon lat pres W a →
  ∃ a', nd_assign [i0; j0; k0] 10%Q a = Some a' ∧
        slab lon lat pres (λ i j k, W i j k ∨ (i = i0 ∧ j = j0 ∧ k = k0)) a'.
Proof.
  intros Hi0 Hj0 Hk0 Hs.
  destruct (Hs i0 j0 k0 Hi0 Hj0 Hk0) as (v0 & Hv0 & _).
  destruct (nd_assign_spec 10%Q _ _ _ Hv0) as (a' & Ha' & Hsame & Hother).
  exists a'. split; [done|].
  intros i j k Hi Hj Hk.
  destruct (decide ([i; j; k] = [i0; j0; k0])) as [E|NE].
  - simplify_eq. exists 10%Q. rewrite Hsame, nd_map_full. split; [done|]. tauto.
  - destruct (Hs i j k Hi Hj Hk) as (v & Hv & H1 & H0).
    exists v. rewrite Hother by done. split; [done|].
    split; [|tauto]. intros [HW|(-> & -> & ->)]; [tauto | done].
Qed.

Lemma where_lt {A} (f : A → bool) (l : list A) j : j ∈ np_where (f <$> l) → j < length l.
Proof. intros (x & Hx & _)%np_where_fmap. by eapply lookup_lt_Some. Qed.

Lemma fake_opd_slab :
  ∃ opd, fake_opd lon lat pres = Some opd ∧
         slab lon lat pres (λ i j k, j ∈ where_lat lat ∧ i ∈ where_lon lon ∧ k ∈ where_pres pres) opd.
Proof.
  unfold fake_opd.
  destruct (for_each_inv
    (λ done a, slab lon lat pres (λ i j k, j ∈ done ∧ i ∈ where_lon lon ∧ k ∈ where_pres pres) a)
    (λ il, for_each (where_lon lon) (λ ilon,
       for_each (where_pres pres) (λ ip, nd_assign [ilon; il; ip] 10%Q)))
    (where_lat lat) [] (np_zeros (cloud_shape lon lat pres))) as (opd & Hopd & Hs).
  { eapply slab_iff; [|apply slab_zeros]. intros i j k. set_solver. }
  { intros done_lat il a Ha Hil.
    destruct (for_each_inv
      (λ done b, slab lon lat pres (λ i j k,
         (j ∈ done_lat ∧ i ∈ where_lon lon ∧ k ∈ where_pres pres) ∨
         (j = il ∧ i ∈ done ∧ k ∈ where_pres pres)) b)
      (λ ilon, for_each (where_pres pres) (λ ip, nd_assign [ilon; il; ip] 10%Q))
      (where_lon lon) [] a) as (b & Hb & Hsb).
    { eapply slab_iff; [|exact Ha]. intros i j k. set_solver. }
    { intros done_lon ilon b Hb Hilon.
      destruct (for_each_inv
        (λ done c, slab lon lat pres (λ i j k,
           ((j ∈ done_lat ∧ i ∈ where_lon lon ∧ k ∈ where_pres pres) ∨
            (j = il ∧ i ∈ done_lon ∧ k ∈ where_pres pres)) ∨
           (j = il ∧ i = ilon ∧ k ∈ done)) c)
        (λ ip, nd_assign [ilon; il; ip] 10%Q)
        (where_pres pres) [] b) as (c & Hc & Hsc).
      { eapply slab_iff; [|exact Hb]. intros i j k. set_solver. }
      { intros done_p ip c Hc Hip.
        assert (Hb1 : ilon < length lon) by (eapply where_lt; exact Hilon).
        assert (Hb2 : il < length lat) by (eapply where_lt; exact Hil).
        assert (Hb3 : ip < length pres) by (eapply where_lt; exact Hip).
        destruct (slab_assign _ c ilon il ip Hb1 Hb2 Hb3 Hc) as (c' & Hc' & Hsc').
        exists c'. split; [done|]. eapply slab_iff; [|exact Hsc'].
        intros i j k. set_solver. }
      exists c. split; [done|]. eapply slab_iff; [|exact Hsc].
      intros i j k. set_solver. }
    exists b. split; [done|]. eapply slab_iff; [|exact Hsb].
    intros i j k. set_solver. }
  exists opd. split; [done|]. eapply slab_iff; [|exact Hs]. intros i j k. set_solver.
Qed.
End Cloud.

Lemma nd_get_row (a : ndarray) (i j k w n : nat) (u : Q) :
  w < n →
  nd_get [i; j; k] a = Some (np_full [n] u) →
  nd_get [i; j; k; w] a = Some (Scalar u).
Proof.
  intros Hw Ha. destruct a as [?|xs]; [done|]. simpl in *.
  destruct (xs !! i) as [[?|ys]|]; simpl in *; try done.
  destruct (ys !! j) as [[?|zs]|]; simpl in *; try done.
  destruct (zs !! k) as [c|]; simpl in *; try done.
  injection Ha as ->. simpl. by rewrite lookup_replicate_2.
Qed.

(** C2.  The synthetic cloud dataset is a box of optical depth: at every
    grid point (lon, lat, pressure, wavenumber), [opd] is 10 when the
    latitude is strictly between -50 and 50, the longitude strictly between
    -90 and 0 and the pressure strictly between the doubles 1e-5 and 0.01,
    and 0 otherwise; [g0] is 0.5 and [w0] is the double 0.9 everywhere.  The
    loops that fill the box never index out of range. *)
Theorem cloud_box (lon lat pres : list Q) :
  ∃ opd,
    fake_opd lon lat pres = Some opd ∧
    ∀ i j k w x y p,
      lon !! i = Some x → lat !! j = Some y → pres !! k = Some p →
      w < length wno_grid →
      let in_box :=
        ((-50 < y)%Q ∧ (y < 50)%Q) ∧ ((-90 < x)%Q ∧ (x < 0)%Q) ∧
        ((lit (1 # 100000) < p)%Q ∧ (p < lit (1 # 100))%Q) in
      let ds_cld := ds_cld_of lon lat pres opd in
      (in_box → ds_value ds_cld "opd" [i; j; k; w] = Some 10%Q) ∧
      (¬ in_box → ds_value ds_cld "opd" [i; j; k; w] = Some 0%Q) ∧
      ds_value ds_cld "g0" [i; j; k; w] = Some (1 # 2)%Q ∧
      ds_value ds_cld "w0" [i; j; k; w] = Some (lit (9 # 10)).
Proof.
  destruct (fake_opd_slab lon lat pres) as (opd & Hopd & Hs).
  exists opd. split; [exact Hopd|].
  intros i j k w x y p Hx Hy Hp Hw in_box ds_cld.
  assert (Hi : i < length lon) by (by eapply lookup_lt_Some).
  assert (Hj : j < length lat) by (by eapply lookup_lt_Some).
  assert (Hk : k < length pres) by (by eapply lookup_lt_Some).
  assert (Hbox : in_box ↔
            j ∈ where_lat lat ∧ i ∈ where_lon lon ∧ k ∈ where_pres pres).
  { unfold in_box, where_lat, where_lon, where_pres. rewrite !np_where_fmap.
    split.
    - intros ([? ?] & [? ?] & [? ?]).
      split; [|split]; eexists; (split; [eassumption|]);
        apply andb_true_iff; split; by (apply flt_spec || apply fgt_spec).
    - intros ((y' & Hy' & [H1 H2]%andb_true_iff) & (x' & Hx' & [H3 H4]%andb_true_iff)
              & (p' & Hp' & [H5 H6]%andb_true_iff)).
      rewrite Hy in Hy'. rewrite Hx in Hx'. rewrite Hp in Hp'.
      injection Hy' as <-. injection Hx' as <-. injection Hp' as <-.
      apply fgt_spec in H1, H3, H6. apply flt_spec in H2, H4, H5.
      repeat split; assumption. }
  destruct (Hs i j k Hi Hj Hk) as (v & Hv & H1 & H0).
  assert (Hopd_at : ds_value ds_cld "opd" [i; j; k; w] = Some v).
  { unfold ds_value, ds_cld, ds_cld_of; cbn [data_vars].
    rewrite lookup_insert_eq. cbn [mbind option_bind values].
    by rewrite (nd_get_row opd i j k w _ v Hw Hv). }
  split; [|split; [|split]].
  - intros Hb. rewrite Hopd_at, H1; [done | by apply Hbox].
  - intros Hb. rewrite Hopd_at, H0; [done | by rewrite <- Hbox].
  - unfold ds_value, ds_cld, ds_cld_of; cbn [data_vars].
    rewrite lookup_insert_ne by done. rewrite lookup_insert_eq.
    cbn [mbind option_bind values].
    rewrite (nd_get_row _ i j k w (length wno_grid) (1 # 2)%Q Hw); [done|].
    unfold fake_asymmetry_g0, np_zeros, cloud_shape.
    rewrite nd_map_full, !nd_get_full_cons by done. cbn [nd_get].
    replace (fadd (lit (1 # 2)) 0) with (1 # 2)%Q by (vm_compute; reflexivity).
    reflexivity.
  - unfold ds_value, ds_cld, ds_cld_of; cbn [data_vars].
    rewrite !lookup_insert_ne by done. rewrite lookup_singleton_eq.
    cbn [mbind option_bind values].
    rewrite (nd_get_row _ i j k w (length wno_grid) (lit (9 # 10)) Hw); [done|].
    unfold fake_ssa_w0, np_zeros, cloud_shape.
    rewrite nd_map_full, !nd_get_full_cons by done. cbn [nd_get].
    replace (fadd (lit (9 # 10)) 0) with (lit (9 # 10)) by (vm_compute; reflexivity).
    reflexivity.
Qed.

Lemma cloud_box_witness :
  ∃ opd,
    fake_opd [-45; 45]%Q [0%Q] [lit (1 # 1000); 1%Q] = Some opd ∧
    ds_value (ds_cld_of [-45; 45]%Q [0%Q] [lit (1 # 1000); 1%Q] opd) "opd"
      [0; 0; 0; 3] = Some 10%Q ∧
    ds_value (ds_cld_of [-45; 45]%Q [0%Q] [lit (1 # 1000); 1%Q] opd) "opd"
      [1; 0; 0; 3] = Some 0%Q ∧
    ds_value (ds_cld_of [-45; 45]%Q [0%Q] [lit (1 # 1000); 1%Q] opd) "w0"
      [1; 0; 1; 9] = Some (lit (9 # 10)).
Proof.
  destruct (cloud_box [-45; 45]%Q [0%Q] [lit (1 # 1000); 1%Q]) as (opd & Hopd & Hall).
  exists opd. split; [exact Hopd|].
  assert (Hw3 : 3 < length wno_grid) by (vm_compute; lia).
  assert (Hw9 : 9 < length wno_grid) by (vm_compute; lia).
  split; [|split].
  - apply (Hall 0 0 0 3 (-45)%Q 0%Q (lit (1 # 1000)) eq_refl eq_refl eq_refl Hw3).
    vm_compute. repeat split.
  - apply (Hall 1 0 0 3 45%Q 0%Q (lit (1 # 1000)) eq_refl eq_refl eq_refl Hw3).
    vm_compute. intros (_ & [_ H] & _). discriminate H.
  - apply (Hall 1 0 1 9 45%Q 0%Q 1%Q eq_refl eq_refl eq_refl Hw9).
Defined.

(** ** Monitors *)

Section AcceptedFacts.
Context {M : Type} (mstep : M → event → M) (mok : M → event → Prop).

Lemma accepted_app m tr1 tr2 :
  accepted mstep mok m (tr1 ++ tr2) ↔
  accepted mstep mok m tr1 ∧ accepted mstep mok (foldl mstep m tr1) tr2.
Proof.
  revert m. induction tr1 as [|ev tr1 IH]; intros m; simpl.
  - tauto.
  - rewrite IH. tauto.
Qed.

Lemma accepted_lookup m tr i ev :
  accepted mstep mok m tr → tr !! i = Some ev →
  mok (foldl mstep m (take i tr)) ev.
Proof.
  revert m i. induction tr as [|e tr IH]; intros m [|i] Hacc Hl; simplify_eq/=.
  - tauto.
  - apply IH; tauto.
Qed.

End AcceptedFacts.

Section MonitorFacts.
Context {M : Type} (mstep : M → event → M) (mok : M → event → Prop).
Context (mfinal : M → Prop).

Lemma safe_run lib p : ∀ st m0,
  accepted mstep mok m0 (trace st) →
  safe mstep mok mfinal p (foldl mstep m0 (trace st)) (heap st) (next_obj st) →
  accepted mstep mok m0 (trace (run lib p st).1) ∧
  ((run lib p st).2 = Finished → mfinal (foldl mstep m0 (trace (run lib p st).1))).
Proof.
  induction p as [|e|R c k IH|k IH|d k IH|r k IH|r d k IH|body IHb handler IHh k IHk];
    intros st m0 Hacc Hsafe; simpl in *.
  - auto.
  - split; [done|discriminate].
  - destruct Hsafe as [Hraise Hret].
    destruct (lib R (trace st) c) as [r|e]; simpl.
    + destruct (Hret r) as [Hok Hk].
      apply IH; simpl.
      * apply accepted_app. simpl. auto.
      * rewrite foldl_app. exact Hk.
    + split; [|discriminate]. apply accepted_app. simpl. auto.
  - apply IH; auto.
  - apply IH; auto.
  - destruct (heap st !! r) as [d|]; simpl.
    + apply IH; auto.
    + split; [done|discriminate].
  - apply IH; auto.
  - done.
Qed.

Lemma safe_notebook_run lib p m0 :
  safe mstep mok mfinal p m0 [] 0 →
  accepted mstep mok m0 (trace (run lib p init).1) ∧
  ((run lib p init).2 = Finished → mfinal (foldl mstep m0 (trace (run lib p init).1))).
Proof. intros H. apply safe_run; simpl; auto. Qed.
End MonitorFacts.

Section SafeFacts.
Context {M : Type} (mstep : M → event → M) (mok : M → event → Prop).
Context (mfinal : M → Prop).

Lemma safe_for_in {A S : Type} (body : A → S → (S → script) → script)
    (k : S → script) m h n (xs : list A) : ∀ s,
  (∀ x s k', (∀ s', safe mstep mok mfinal (k' s') m h n) →
             safe mstep mok mfinal (body x s k') m h n) →
  (∀ s', safe mstep mok mfinal (k s') m h n) →
  safe mstep mok mfinal (for_in xs body s k) m h n.
Proof.
  induction xs as [|x xs IH]; intros s Hbody Hk; simpl.
  - apply Hk.
  - apply Hbody. intros s'. apply IH; assumption.
Qed.

Lemma safe_Call {R} (c : call R) k m h n :
  (∀ e, mok m (Ev c (Raises e))) →
  (∀ r, mok m (Ev c (Returns r)) ∧
        safe mstep mok mfinal (k r) (mstep m (Ev c (Returns r))) h n) →
  safe mstep mok mfinal (Call c k) m h n.
Proof. intros H1 H2. split; assumption. Qed.

Lemma safe_NewObj k m h n :
  safe mstep mok mfinal (k n) m h (S n) → safe mstep mok mfinal (NewObj k) m h n.
Proof. intros H. exact H. Qed.

Lemma safe_DsNew d k m h n :
  safe mstep mok mfinal (k (length h)) m (h ++ [d]) n →
  safe mstep mok mfinal (DsNew d k) m h n.
Proof. intros H. exact H. Qed.

Lemma safe_DsRead r d k m h n :
  h !! r = Some d →
  safe mstep mok mfinal (k (mkArg r d)) m h n →
  safe mstep mok mfinal (DsRead r k) m h n.
Proof. intros E H. simpl. rewrite E. exact H. Qed.

Lemma safe_DsWrite r d k m h n :
  safe mstep mok mfinal k m (<[r := d]> h) n →
  safe mstep mok mfinal (DsWrite r d k) m h n.
Proof. intros H. exact H. Qed.

Lemma safe_or_raise {A} e (o : option A) k m h n :
  (∀ a, o = Some a → safe mstep mok mfinal (k a) m h n) →
  safe mstep mok mfinal (or_raise e o k) m h n.
Proof. intros H. destruct o; simpl; auto. Qed.
End SafeFacts.

(** *** What a script raises by itself *)

Section ExplainedFacts.
Context {M : Type} (mstep : M → event → M) (mraise : M → exn → Prop).

Lemma explained_run lib p : ∀ st m0 e,
  explained mstep mraise p (foldl mstep m0 (trace st)) (heap st) (next_obj st) →
  (run lib p st).2 = Uncaught e →
  (∃ R (c : call R), last (trace (run lib p st).1) = Some (Ev c (Raises e))) ∨
  mraise (foldl mstep m0 (trace (run lib p st).1)) e.
Proof.
  induction p as [|e'|R c k IH|k IH|d k IH|r k IH|r d k IH|body IHb handler IHh k IHk];
    intros st m0 e Hexp Hrun; simpl in *.
  - discriminate.
  - injection Hrun as <-. by right.
  - destruct (lib R (trace st) c) as [r|e'] eqn:E; simpl in *.
    + apply IH; [|exact Hrun]. simpl. rewrite foldl_app. apply Hexp.
    + injection Hrun as <-. left. exists R, c. by rewrite last_snoc.
  - by apply IH.
  - by apply IH.
  - destruct (heap st !! r) as [d|]; [|done]. by apply IH.
  - by apply IH.
  - done.
Qed.

Lemma explained_for_in {A S : Type} (body : A → S → (S → script) → script)
    (k : S → script) m h n (xs : list A) :
  (∀ x s k', x ∈ xs →
     (∀ s', explained mstep mraise (k' s') m h n) →
     explained mstep mraise (body x s k') m h n) →
  (∀ s', explained mstep mraise (k s') m h n) →
  ∀ s, explained mstep mraise (for_in xs body s k) m h n.
Proof.
  intros Hbody Hk. induction xs as [|x xs IH]; intros s; simpl.
  - apply Hk.
  - apply Hbody; [left|]. apply IH. intros y t k' Hy. apply Hbody. by right.
Qed.

Lemma explained_Call {R} (c : call R) k m h n :
  (∀ r, explained mstep mraise (k r) (mstep m (Ev c (Returns r))) h n) →
  explained mstep mraise (Call c k) m h n.
Proof. intros H. exact H. Qed.

Lemma explained_NewObj k m h n :
  explained mstep mraise (k n) m h (S n) → explained mstep mraise (NewObj k) m h n.
Proof. intros H. exact H. Qed.

Lemma explained_DsNew d k m h n :
  explained mstep mraise (k (length h)) m (h ++ [d]) n →
  explained mstep mraise (DsNew d k) m h n.
Proof. intros H. exact H. Qed.

Lemma explained_DsRead r d k m h n :
  h !! r = Some d →
  explained mstep mraise (k (mkArg r d)) m h n →
  explained mstep mraise (DsRead r k) m h n.
Proof. intros E H. simpl. rewrite E. exact H. Qed.

Lemma explained_DsWrite r d k m h n :
  explained mstep mraise k m (<[r := d]> h) n →
  explained mstep mraise (DsWrite r d k) m h n.
Proof. intros H. exact H. Qed.

Lemma explained_or_raise {A} e (o : option A) k m h n :
  (o = None → mraise m e) →
  (∀ a, o = Some a → explained mstep mraise (k a) m h n) →
  explained mstep mraise (or_raise e o k) m h n.
Proof. intros H1 H2. destruct o; simpl; auto. Qed.
End ExplainedFacts.

Lemma coord_values_update (self : Dataset) lon lat pres draws name v :
  coord_values (ds_chem lon lat pres draws) name = Some v →
  coord_values (ds_update self (ds_chem lon lat pres draws)) name = Some v.
Proof.
  unfold coord_values. intros H.
  destruct (coords (ds_chem lon lat pres draws) !! name) as [c|] eqn:E.
  - cbn [ds_update coords]. erewrite lookup_union_Some_l; [exact H | exact E].
  - exfalso. cbn [ds_chem coords sizes] in E, H.
    destruct (decide (name = "lon")) as [->|H1];
      [by rewrite lookup_insert_eq in E|].
    rewrite lookup_insert_ne in H by done.
    destruct (decide (name = "lat")) as [->|H2];
      [by rewrite lookup_insert_ne, lookup_insert_eq in E|].
    rewrite lookup_insert_ne in H by done.
    destruct (decide (name = "pressure")) as [->|H3];
      [by rewrite !lookup_insert_ne, lookup_singleton_eq in E|].
    by rewrite lookup_singleton_ne in H.
Qed.

(** *** History monitors *)

Lemma foldl_hstep (keep : event → bool) tr : ∀ m,
  foldl (hstep keep) m tr = m ++ filter (λ ev, keep ev) tr.
Proof.
  induction tr as [|ev tr IH]; intros m; simpl.
  - by rewrite app_nil_r.
  - rewrite IH. unfold hstep. rewrite filter_cons.
    destruct (keep ev); simpl; [by rewrite <- app_assoc | done].
Qed.

Lemma kept_before (keep : event → bool) (tr : list event) i ev :
  ev ∈ filter (λ ev, keep ev) (take i tr) → ∃ j, j < i ∧ tr !! j = Some ev.
Proof.
  intros H. apply list_elem_of_filter in H as [_ H].
  apply list_elem_of_lookup in H as [j Hj].
  apply lookup_take_Some in Hj as [Hj Hlt]. eauto.
Qed.

Lemma kept_somewhere (keep : event → bool) (tr : list event) ev :
  ev ∈ filter (λ ev, keep ev) tr → ∃ j, tr !! j = Some ev.
Proof.
  intros H. apply list_elem_of_filter in H as [_ H].
  by apply list_elem_of_lookup in H.
Qed.

Lemma before_kept (keep : event → bool) (tr : list event) i j ev :
  j < i → tr !! j = Some ev → keep ev = true →
  ev ∈ filter (λ ev, keep ev) (take i tr).
Proof.
  intros Hlt Hj Hk. apply list_elem_of_filter. split; [by rewrite Hk|].
  apply list_elem_of_lookup. exists j. by apply lookup_take_Some.
Qed.

Section History.
Context (keep : event → bool) (ok : list event → event → Prop).
Context (final : list event → Prop).
Context (Hsafe : safe (hstep keep) ok final notebook [] [] 0).

Lemma history_ok lib i ev :
  trace_of lib !! i = Some ev →
  ok (filter (λ ev, keep ev) (take i (trace_of lib))) ev.
Proof.
  intros Hi.
  pose proof (safe_notebook_run (hstep keep) ok final lib notebook [] Hsafe) as [Hacc _].
  pose proof (accepted_lookup (hstep keep) ok [] _ i ev Hacc Hi) as H.
  by rewrite foldl_hstep in H.
Qed.

Lemma history_final lib :
  outcome_of lib = Finished → final (filter (λ ev, keep ev) (trace_of lib)).
Proof.
  intros Hfin.
  pose proof (safe_notebook_run (hstep keep) ok final lib notebook [] Hsafe) as [_ H].
  specialize (H Hfin). by rewrite foldl_hstep in H.
Qed.
End History.

(** *** Symbolic execution of the notebook *)

Ltac safe_step solve_ok :=
  lazymatch goal with
  | |- safe _ _ _ (or_raise _ (returned_dataset _ ?ret) _) _ _ _ =>
      apply safe_or_raise; destruct ret; intros ? [= <-]
  | |- safe _ _ _ (or_raise _ _ _) _ _ _ =>
      apply safe_or_raise; intros ? ?
  | |- safe _ _ _ (new_inputs _) _ _ _ => unfold new_inputs
  | |- safe _ _ _ (new_dataset _ _) _ _ _ => unfold new_dataset
  | |- safe _ _ _ (update _ _ _) _ _ _ => unfold update
  | |- safe _ _ _ (plot_spectra _ _) _ _ _ => unfold plot_spectra
  | |- safe _ _ _ (Call _ _) _ _ _ =>
      apply safe_Call; [intros ?; solve_ok | intros ?; split; [solve_ok | ]]
  | |- safe _ _ _ (NewObj _) _ _ _ => apply safe_NewObj
  | |- safe _ _ _ (DsNew _ _) _ _ _ => apply safe_DsNew; cbn [length app]
  | |- safe _ _ _ (DsRead _ _) _ _ _ =>
      eapply safe_DsRead; [reflexivity | cbn [arg_ds arg_ref]]
  | |- safe _ _ _ (DsWrite ?r ?d _) _ ?h _ =>
      let v := eval cbv [insert list_insert] in (<[r := d]> h) in
      apply safe_DsWrite; change (<[r := d]> h) with v
  | |- safe _ _ _ (let '(_, _) := ?r in _) _ _ _ => destruct r
  end.

Lemma degrees_legend (iphase : Q) (deg : Z) :
  degrees iphase = Some deg → pretty deg = legend_entry iphase.
Proof.
  unfold degrees, legend_entry. destruct (overflows _); [done|]. by intros [= <-].
Qed.

Lemma safe_spectra_of keep ok final out k m h n :
  (∀ x y R r, ok m (Ev (jdi_mean_regrid x y R) r)) →
  (∀ x y R r, keep (Ev (jdi_mean_regrid x y R) r) = false) →
  (∀ s, safe (hstep keep) ok final (k s) m h n) →
  safe (hstep keep) ok final (spectra_of out k) m h n.
Proof.
  intros Hok Hkeep Hk. unfold spectra_of. apply safe_for_in; [|exact Hk].
  intros iphase [[wno fpfs] legend] k' Hk'.
  do 3 (apply safe_or_raise; intros ? ?).
  apply safe_Call; [intros e; apply Hok|].
  intros [w f]. split; [apply Hok|].
  unfold hstep. rewrite Hkeep. apply safe_or_raise; intros deg _. apply Hk'.
Qed.

Ltac in_history :=
  solve [ apply list_elem_of_here
        | apply list_elem_of_further; in_history ].

Ltac run_notebook solve_ok simp :=
  unfold notebook;
  repeat first
    [ safe_step solve_ok; simp
    | apply safe_spectra_of; [intros; solve_ok | intros; reflexivity | intros [[? ?] ?]] ].

Ltac destruct_units := repeat match goal with u : () |- _ => destruct u end.

Ltac explained_step solve_raise solve_loop :=
  lazymatch goal with
  | |- explained _ _ (or_raise _ (returned_dataset _ ?ret) _) _ _ _ =>
      destruct ret; cbn [returned_dataset];
      (apply explained_or_raise;
       [ first [solve [intros [=]] | intros ?; solve_raise] | intros ? [= <-] ])
  | |- explained _ _ (or_raise _ _ _) _ _ _ =>
      apply explained_or_raise; [intros ?; solve_raise | intros ? ?]
  | |- explained _ _ (new_inputs _) _ _ _ => unfold new_inputs
  | |- explained _ _ (new_dataset _ _) _ _ _ => unfold new_dataset
  | |- explained _ _ (update _ _ _) _ _ _ => unfold update
  | |- explained _ _ (plot_spectra _ _) _ _ _ => unfold plot_spectra
  | |- explained _ _ (spectra_of _ _) _ _ _ => solve_loop
  | |- explained _ _ (Call _ _) _ _ _ => apply explained_Call; intros ?
  | |- explained _ _ (NewObj _) _ _ _ => apply explained_NewObj
  | |- explained _ _ (DsNew _ _) _ _ _ => apply explained_DsNew; cbn [length app]
  | |- explained _ _ (DsRead _ _) _ _ _ =>
      eapply explained_DsRead; [reflexivity | cbn [arg_ds arg_ref]]
  | |- explained _ _ (DsWrite ?r ?d _) _ ?h _ =>
      let v := eval cbv [insert list_insert] in (<[r := d]> h) in
      apply explained_DsWrite; change (<[r := d]> h) with v
  | |- explained _ _ (let '(_, _) := ?r in _) _ _ _ => destruct r
  end.


(** ** The order of the stages *)

Ltac pipeline_ok :=
  destruct_units;
  split; [reflexivity|];
  split; [first [solve [intros [? [=]]] | intros _; split; repeat eexists; in_history]|];
  split; [first [solve [intros [=]] | intros _; repeat eexists; in_history]|];
  first [exact I | repeat eexists; in_history].

Lemma pipeline_safe :
  safe (hstep keep_pipeline) ok_pipeline final_pipeline notebook [] [] 0.
Proof.
  run_notebook pipeline_ok
    ltac:(cbn [hstep keep_pipeline pipeline_step stage_of subject app]).
  destruct_units. reflexivity.
Qed.

Lemma in_order_rank {R1 R2} (c1 : call R1) r1 (c2 : call R2) r2 o s1 s2 :
  subject c1 = Some o → subject c2 = Some o →
  stage_of c1 = Some s1 → stage_of c2 = Some s2 →
  in_order (Ev c1 r1) (Ev c2 r2) = true →
  stage_rank s1 ≤ stage_rank s2.
Proof.
  intros Ho1 Ho2 Hs1 Hs2.
  destruct c1; simplify_eq/=; destruct c2; simplify_eq/=;
    unfold in_order; simpl; rewrite Nat.eqb_refl; intros H;
    try (apply Nat.leb_le in H; simpl in H); simpl; lia.
Qed.

Lemma subject_kept {R} (c : call R) r o s :
  subject c = Some o → stage_of c = Some s → keep_pipeline (Ev c r) = true.
Proof. intros Ho Hs. by destruct c; simplify_eq/=. Qed.

Lemma omap_pipeline_filter (tr : list event) :
  omap pipeline_step (filter (λ ev, keep_pipeline ev) tr) = omap pipeline_step tr.
Proof.
  induction tr as [|ev tr IH]; [done|].
  assert (Hcons : ∀ l, omap pipeline_step (ev :: l) =
                       match pipeline_step ev with
                       | Some x => x :: omap pipeline_step l
                       | None => omap pipeline_step l
                       end) by reflexivity.
  destruct (keep_pipeline ev) eqn:K.
  - rewrite filter_cons_True by (cbv beta; rewrite K; exact I).
    rewrite !Hcons, IH. reflexivity.
  - rewrite filter_cons_False by (cbv beta; rewrite K; exact id).
    rewrite Hcons, IH.
    unfold keep_pipeline in K. by destruct (pipeline_step ev).
Qed.

(** C1.  In every run of the notebook, whatever the libraries answer:
    calls made on the same inputs object follow the order of the stages
    (geometry, atmosphere_4d, clouds_4d, gravity and star, phase_curve);
    every call on an inputs object comes after the opacity connection was
    loaded and the atmosphere dataset was augmented; every post-processing
    or plotting call comes after a phase curve was computed, and
    [jpi.phase_curve] plots a result an earlier [phase_curve] returned.  In a
    run that reaches its end, the calls up to the computation are exactly
    [pipeline]: opacity, dataset, then for each case a fresh inputs object,
    its geometry, atmosphere_4d, clouds_4d for the cloudy case only,
    gravity, star and phase_curve. *)
Theorem stage_order (lib : library) :
  (∀ i j R1 (c1 : call R1) r1 R2 (c2 : call R2) r2 o s1 s2,
     i < j →
     trace_of lib !! i = Some (Ev c1 r1) → trace_of lib !! j = Some (Ev c2 r2) →
     subject c1 = Some o → subject c2 = Some o →
     stage_of c1 = Some s1 → stage_of c2 = Some s2 →
     stage_rank s1 ≤ stage_rank s2) ∧
  (∀ j R (c : call R) r o,
     trace_of lib !! j = Some (Ev c r) → subject c = Some o →
     (∃ i wave_range resample opacity,
        i < j ∧
        trace_of lib !! i =
          Some (Ev (jdi_opannection wave_range resample) (Returns opacity))) ∧
     (∃ i s d,
        i < j ∧ trace_of lib !! i = Some (Ev (xr_update s d) (Returns Receiver)))) ∧
  (∀ j R (c : call R) r,
     trace_of lib !! j = Some (Ev c r) → stage_of c = Some PostProcess →
     ∃ i self opacity n_cpu full_output out,
       i < j ∧
       trace_of lib !! i =
         Some (Ev (phase_curve self opacity n_cpu full_output) (Returns out))) ∧
  (∀ j allout to_plot collapse R plot_width reorder_output r,
     trace_of lib !! j =
       Some (Ev (jpi_phase_curve allout to_plot collapse R plot_width reorder_output) r) →
     ∃ i self opacity n_cpu full_output,
       i < j ∧
       trace_of lib !! i =
         Some (Ev (phase_curve self opacity n_cpu full_output) (Returns allout))) ∧
  (outcome_of lib = Finished → omap pipeline_step (trace_of lib) = pipeline).
Proof.
  split; [|split; [|split; [|split]]].
  - intros i j R1 c1 r1 R2 c2 r2 o s1 s2 Hij Hi Hj Ho1 Ho2 Hs1 Hs2.
    pose proof (history_ok _ _ _ pipeline_safe lib j _ Hj) as [Hall _].
    rewrite forallb_forall in Hall.
    apply (in_order_rank c1 r1 c2 r2 o s1 s2 Ho1 Ho2 Hs1 Hs2).
    apply Hall, list_elem_of_In. eapply before_kept; [exact Hij | exact Hi|].
    by eapply subject_kept.
  - intros j R c r o Hj Ho.
    pose proof (history_ok _ _ _ pipeline_safe lib j _ Hj) as [_ [HB _]].
    destruct HB as [(wr & rs & op & H1) (s & d & H2)]; [by rewrite Ho|].
    apply kept_before in H1 as (i1 & ? & ?). apply kept_before in H2 as (i2 & ? & ?).
    split; eauto 10.
  - intros j R c r Hj Hs.
    pose proof (history_ok _ _ _ pipeline_safe lib j _ Hj) as [_ [_ [HC _]]].
    destruct (HC Hs) as (self & op & n & f & out & H).
    apply kept_before in H as (i & ? & ?). eauto 10.
  - intros j allout tp col R pw ro r Hj.
    pose proof (history_ok _ _ _ pipeline_safe lib j _ Hj) as [_ [_ [_ HC]]].
    destruct HC as (self & op & n & f & H).
    apply kept_before in H as (i & ? & ?). eauto 10.
  - intros Hfin.
    pose proof (history_final _ _ _ pipeline_safe lib Hfin) as H.
    unfold final_pipeline in H. by rewrite omap_pipeline_filter in H.
Qed.

Lemma stage_order_witness :
  outcome_of demo_lib = Finished ∧
  omap pipeline_step (trace_of demo_lib) = pipeline ∧
  (∃ R1 (c1 : call R1) r1 R2 (c2 : call R2) r2 s1 s2,
     trace_of demo_lib !! 28 = Some (Ev c1 r1) ∧
     trace_of demo_lib !! 29 = Some (Ev c2 r2) ∧
     subject c1 = Some case_3d_clouds ∧ subject c2 = Some case_3d_clouds ∧
     stage_of c1 = Some s1 ∧ stage_of c2 = Some s2 ∧
     stage_rank s1 ≤ stage_rank s2) ∧
  (∃ R (c : call R) r,
     trace_of demo_lib !! 43 = Some (Ev c r) ∧ stage_of c = Some PostProcess ∧
     ∃ i self opacity n_cpu full_output out,
       i < 43 ∧
       trace_of demo_lib !! i =
         Some (Ev (phase_curve self opacity n_cpu full_output) (Returns out))).
Proof.
  assert (Hfin : outcome_of demo_lib = Finished) by (vm_compute; reflexivity).
  split; [exact Hfin|]. split.
  { exact (proj2 (proj2 (proj2 (proj2 (stage_order demo_lib)))) Hfin). }
  split.
  - lazymatch eval vm_compute in (trace_of demo_lib !! 28, trace_of demo_lib !! 29) with
    | (Some (@Ev ?R1 ?c1 ?r1), Some (@Ev ?R2 ?c2 ?r2)) =>
        exists R1, c1, r1, R2, c2, r2, MapAtmosphere, MapClouds;
        assert (H28 : trace_of demo_lib !! 28 = Some (Ev c1 r1))
          by (vm_compute; reflexivity);
        assert (H29 : trace_of demo_lib !! 29 = Some (Ev c2 r2))
          by (vm_compute; reflexivity)
    end.
    do 6 (split; [first [exact H28 | exact H29 | reflexivity]|]).
    eapply (proj1 (stage_order demo_lib) 28 29); first [exact H28 | exact H29 | reflexivity | lia].
  - lazymatch eval vm_compute in (trace_of demo_lib !! 43) with
    | Some (@Ev ?R ?c ?r) =>
        exists R, c, r;
        assert (H43 : trace_of demo_lib !! 43 = Some (Ev c r))
          by (vm_compute; reflexivity)
    end.
    split; [exact H43|]. split; [reflexivity|].
    exact (proj1 (proj2 (proj2 (stage_order demo_lib))) 43 _ _ _ H43 eq_refl).
Defined.

(** ** The spectra of a phase curve *)

(** C4 *)

Section Loops.
Context {M : Type} (mstep : M → event → M) (mok : M → event → Prop).
Context (mfinal : M → Prop).

Lemma safe_for_in_inv {A S : Type} (I : list A → S → M → Prop)
    (body : A → S → (S → script) → script) (k : S → script) h n all :
  (∀ done x rest s m k',
     done ++ x :: rest = all → I done s m →
     (∀ s' m', I (done ++ [x]) s' m' → safe mstep mok mfinal (k' s') m' h n) →
     safe mstep mok mfinal (body x s k') m h n) →
  (∀ s' m', I all s' m' → safe mstep mok mfinal (k s') m' h n) →
  ∀ xs done s m,
    done ++ xs = all → I done s m →
    safe mstep mok mfinal (for_in xs body s k) m h n.
Proof.
  intros Hbody Hk xs. induction xs as [|x xs IH]; intros done s m Hall HI; simpl.
  - rewrite app_nil_r in Hall. subst. by apply Hk.
  - eapply Hbody; [exact Hall | exact HI |].
    intros s' m' HI'. apply (IH (done ++ [x])); [|done].
    by rewrite <- app_assoc.
Qed.
End Loops.





(** ** Clouds after the atmosphere *)

Lemma clouds_safe : safe (hstep keep_clouds) ok_clouds final_clouds notebook [] [] 0.
Proof.
  run_notebook ltac:(try exact I) ltac:(cbn [hstep keep_clouds returned app]).
  all: repeat match goal with u : () |- _ => destruct u end.
  - split; [reflexivity|]. repeat eexists. in_history.
  - split; [reflexivity|]. repeat eexists. in_history.
  - split; repeat eexists; in_history.
Qed.

(** C5.  [clouds_4d] is only ever invoked on the inputs object of the
    cloudy case, never on that of the cloud-free case, and only after
    [atmosphere_4d] has returned on that same object.  In a run that reaches
    its end the cloudy case did invoke [clouds_4d], and the cloud-free case
    computed its phase curve without it. *)
Theorem clouds_after_atmosphere (lib : library) :
  (∀ i self ds iz_plot plot r,
     trace_of lib !! i = Some (Ev (clouds_4d self ds iz_plot plot) r) →
     self = case_3d_clouds ∧ self ≠ case_3d ∧
     ∃ j ds' shift zero_point plot' verbose, j < i ∧
       trace_of lib !! j =
         Some (Ev (atmosphere_4d self ds' shift zero_point plot' verbose) (Returns ()))) ∧
  (outcome_of lib = Finished →
     (∃ i ds iz_plot plot r,
        trace_of lib !! i = Some (Ev (clouds_4d case_3d_clouds ds iz_plot plot) r)) ∧
     (∃ i opacity n_cpu full_output out,
        trace_of lib !! i =
          Some (Ev (phase_curve case_3d opacity n_cpu full_output) (Returns out)))).
Proof.
  split.
  - intros i self ds iz_plot plot r Hi.
    pose proof (history_ok _ _ _ clouds_safe lib i _ Hi) as [-> (ds' & sh & zp & pl & vb & Hin)].
    split; [reflexivity|]. split; [discriminate|].
    apply kept_before in Hin as (j & Hlt & Hj). eauto 10.
  - intros Hfin.
    pose proof (history_final _ _ _ clouds_safe lib Hfin) as [(ds & iz & pl & r & H1) (op & n & f & out & H2)].
    apply kept_somewhere in H1 as [i Hi]. apply kept_somewhere in H2 as [j Hj].
    split; eauto 10.
Qed.

Lemma clouds_after_atmosphere_witness :
  outcome_of demo_lib = Finished ∧
  ∃ ds iz_plot plot r,
    trace_of demo_lib !! 29 = Some (Ev (clouds_4d case_3d_clouds ds iz_plot plot) r) ∧
    ∃ j ds' shift zero_point plot' verbose, j < 29 ∧
      trace_of demo_lib !! j =
        Some (Ev (atmosphere_4d case_3d_clouds ds' shift zero_point plot' verbose) (Returns ())).
Proof.
  split; [vm_compute; reflexivity|].
  lazymatch eval vm_compute in (trace_of demo_lib !! 29) with
  | Some (Ev (clouds_4d _ ?ds ?iz ?pl) ?r) => exists ds, iz, pl, r
  end.
  split; [vm_compute; reflexivity|].
  eapply (proj1 (clouds_after_atmosphere demo_lib) 29 case_3d_clouds).
  vm_compute; reflexivity.
Defined.

(** ** Error handling *)

Lemma handler_free_or_raise {A} e (o : option A) k :
  (∀ a, handler_free (k a)) → handler_free (or_raise e o k).
Proof. intros H. destruct o; simpl; auto. Qed.

Lemma handler_free_for_in {A S} (body : A → S → (S → script) → script) k xs : ∀ s,
  (∀ x s k', (∀ s', handler_free (k' s')) → handler_free (body x s k')) →
  (∀ s', handler_free (k s')) →
  handler_free (for_in xs body s k).
Proof.
  induction xs as [|x xs IH]; intros s Hbody Hk; simpl; [apply Hk|].
  apply Hbody. intros s'. by apply IH.
Qed.

Lemma handler_free_spectra_of out k :
  (∀ s, handler_free (k s)) → handler_free (spectra_of out k).
Proof.
  intros Hk. unfold spectra_of. apply handler_free_for_in; [|exact Hk].
  intros iphase [[wno fpfs] legend] k' Hk'.
  do 3 (apply handler_free_or_raise; intros ?).
  intros [w f]. apply handler_free_or_raise; intros ?. apply Hk'.
Qed.

Lemma handler_free_notebook : handler_free notebook.
Proof.
  unfold notebook, plot_spectra, new_inputs, new_dataset, update.
  repeat first
    [ apply handler_free_or_raise; intros ?
    | apply handler_free_spectra_of; intros [[? ?] ?]
    | lazymatch goal with
      | |- handler_free (Call _ _) => intros ?
      | |- handler_free (NewObj _) => intros ?
      | |- handler_free (DsNew _ _) => intros ?
      | |- handler_free (DsRead _ _) => intros ?
      | |- handler_free (DsWrite _ _ ?k) => change (handler_free k)
      | |- handler_free Done => exact I
      | |- handler_free (let '(_, _) := ?r in _) => destruct r
      end ].
Qed.

(** Without a handler, the first exception ends the run. *)
Lemma run_handler_free lib p : ∀ st,
  handler_free p →
  ∃ ext, trace (run lib p st).1 = trace st ++ ext ∧
         ∀ i ev e, ext !! i = Some ev → raised ev = Some e →
                   (run lib p st).2 = Uncaught e ∧ length ext = S i.
Proof.
  induction p as [|e|R c k IH|k IH|d k IH|r k IH|r d k IH|body IHb handler IHh k IHk];
    intros st Hfree; simpl in *.
  - exists []. rewrite app_nil_r. split; [done|]. by intros [|?] ???.
  - exists []. rewrite app_nil_r. split; [done|]. by intros [|?] ???.
  - destruct (lib R (trace st) c) as [r|e] eqn:Hlib; simpl.
    + destruct (IH r (log (Ev c (Returns r)) st) (Hfree r)) as (ext & Htr & Hext).
      exists (Ev c (Returns r) :: ext). simpl in Htr.
      rewrite Htr, <- app_assoc. split; [done|].
      intros [|i] ev e' Hev Hr; simplify_eq/=.
      destruct (Hext i ev e' Hev Hr) as [? ?]. split; [done | lia].
    + exists [Ev c (Raises e)]. split; [done|].
      intros [|[|i]] ev e' Hev Hr; simplify_eq/=. done.
  - destruct (IH (next_obj st) (mkState (trace st) (heap st) (S (next_obj st)))
                (Hfree _)) as (ext & Htr & Hext).
    eauto.
  - destruct (IH (length (heap st)) (mkState (trace st) (heap st ++ [d]) (next_obj st))
                (Hfree _)) as (ext & Htr & Hext).
    eauto.
  - destruct (heap st !! r) as [d|]; simpl.
    + destruct (IH (mkArg r d) st (Hfree _)) as (ext & Htr & Hext). eauto.
    + exists []. rewrite app_nil_r. split; [done|]. by intros [|?] ???.
  - destruct (IH (mkState (trace st) (<[r := d]> (heap st)) (next_obj st)) Hfree)
      as (ext & Htr & Hext).
    eauto.
  - done.
Qed.

(** A handler does change a run: under [failing_lib] the same failing call,
    wrapped in [try], is caught and the script goes on. *)
Lemma try_catches :
  run failing_lib
    (TryExcept (Call (atmosphere_4d 0 (mkArg 0 demo_gcm) (np_zeros [n_phases])
                        "secondary_eclipse" true false) (λ _, Done))
               (λ _, Done) (Call jpi_output_notebook (λ _, Done)))
    init =
  (mkState
     [Ev (atmosphere_4d 0 (mkArg 0 demo_gcm) (np_zeros [n_phases])
            "secondary_eclipse" true false) (Raises (LibraryError 1));
      Ev jpi_output_notebook (Returns ())] [] 0,
   Finished).
Proof. reflexivity. Qed.

(** C6.  The notebook has no [try]: whatever the libraries do, an exception
    raised by a library call is the outcome of the run, and the failing call
    is the last one made: nothing is retried and nothing runs after it. *)
Theorem no_error_handling (lib : library) :
  handler_free notebook ∧
  ∀ i R (c : call R) e,
    trace_of lib !! i = Some (Ev c (Raises e)) →
    outcome_of lib = Uncaught e ∧ length (trace_of lib) = S i.
Proof.
  split; [exact handler_free_notebook|].
  intros i R c e Hi.
  destruct (run_handler_free lib notebook init handler_free_notebook)
    as (ext & Htr & Hext).
  change (trace init ++ ext) with ext in Htr.
  unfold trace_of, outcome_of in *. rewrite Htr in Hi |- *.
  apply (Hext i _ e Hi). reflexivity.
Qed.

Lemma no_error_handling_witness :
  ∃ R (c : call R) e,
    trace_of failing_lib !! 9 = Some (Ev c (Raises e)) ∧
    outcome_of failing_lib = Uncaught e ∧ length (trace_of failing_lib) = 10.
Proof.
  lazymatch eval vm_compute in (trace_of failing_lib !! 9) with
  | Some (@Ev ?R ?c (Raises ?e)) =>
      exists R, c, e;
      assert (H9 : trace_of failing_lib !! 9 = Some (Ev c (Raises e)))
        by (vm_compute; reflexivity)
  end.
  split; [exact H9|].
  exact (proj2 (no_error_handling failing_lib) 9 _ _ _ H9).
Defined.

(** ** The worker count *)

Lemma imports_not_concurrent (m : string) : m ∈ imports → m ∉ concurrency_modules.
Proof.
  intros Hin.
  assert (H : Forall (λ m, m ∉ concurrency_modules) imports).
  { apply (bool_decide_unpack _). vm_compute. exact I. }
  rewrite Forall_forall in H. by apply H.
Qed.

Lemma workers_safe :
  safe (hstep keep_workers) ok_workers final_workers notebook [] [] 0.
Proof.
  run_notebook ltac:(split; [apply (bool_decide_unpack _); vm_compute; exact I
                            | exact I || reflexivity])
               ltac:(cbn [hstep keep_workers returned app]).
  split; repeat eexists; in_history.
Qed.

(** C7.  Every invocation of [phase_curve] passes [n_cpu = 3].  Every call
    the notebook makes goes to a module it imports, and none of these is a
    module for threads, processes or scheduling.  A run that reaches its end
    has computed both phase curves this way. *)
Theorem worker_count (lib : library) :
  (∀ i self opacity n_cpu full_output r,
     trace_of lib !! i = Some (Ev (phase_curve self opacity n_cpu full_output) r) →
     n_cpu = 3%Z) ∧
  (∀ i R (c : call R) r,
     trace_of lib !! i = Some (Ev c r) →
     module_of c ∈ imports ∧ module_of c ∉ concurrency_modules) ∧
  (outcome_of lib = Finished →
     ∃ i j opacity opacity' out out',
       trace_of lib !! i =
         Some (Ev (phase_curve case_3d opacity 3 true) (Returns out)) ∧
       trace_of lib !! j =
         Some (Ev (phase_curve case_3d_clouds opacity' 3 false) (Returns out'))).
Proof.
  split; [|split].
  - intros i self opacity n_cpu full_output r Hi.
    by pose proof (history_ok _ _ _ workers_safe lib i _ Hi) as [_ ?].
  - intros i R c r Hi.
    pose proof (history_ok _ _ _ workers_safe lib i _ Hi) as [Hm _].
    split; [done | by apply imports_not_concurrent].
  - intros Hfin.
    pose proof (history_final _ _ _ workers_safe lib Hfin)
      as [(op & out & H1) (op' & out' & H2)].
    apply kept_somewhere in H1 as [i Hi]. apply kept_somewhere in H2 as [j Hj].
    eauto 10.
Qed.

Lemma worker_count_witness :
  outcome_of demo_lib = Finished ∧
  (∃ self opacity n_cpu full_output r,
     trace_of demo_lib !! 15 =
       Some (Ev (phase_curve self opacity n_cpu full_output) r) ∧ n_cpu = 3%Z) ∧
  (∃ R (c : call R) r,
     trace_of demo_lib !! 35 = Some (Ev c r) ∧ module_of c ∉ concurrency_modules).
Proof.
  split; [vm_compute; reflexivity|]. split.
  - lazymatch eval vm_compute in (trace_of demo_lib !! 15) with
    | Some (Ev (phase_curve ?o ?op ?n ?f) ?r) =>
        exists o, op, n, f, r;
        assert (H15 : trace_of demo_lib !! 15 = Some (Ev (phase_curve o op n f) r))
          by (vm_compute; reflexivity)
    end.
    split; [exact H15|].
    exact (proj1 (worker_count demo_lib) 15 _ _ _ _ _ H15).
  - lazymatch eval vm_compute in (trace_of demo_lib !! 35) with
    | Some (@Ev ?R ?c ?r) =>
        exists R, c, r;
        assert (H35 : trace_of demo_lib !! 35 = Some (Ev c r))
          by (vm_compute; reflexivity)
    end.
    split; [exact H35|].
    exact (proj2 (proj1 (proj2 (worker_count demo_lib)) 35 _ _ _ H35)).
Defined.

(** ** The phase geometry *)

Lemma geometry_safe :
  safe (hstep keep_geometry) ok_geometry final_geometry notebook [] [] 0.
Proof.
  run_notebook ltac:(first [exact I | repeat split])
               ltac:(cbn [hstep keep_geometry returned app]).
  destruct_units. split; in_history.
Qed.

(** C8.  Every [phase_curve_geometry] call passes 'reflected', the same
    [phase_grid], [num_gangle = 6] and [num_tangle = 6]; a run that reaches
    its end makes this call on both cases.  The grid has exactly 8 points,
    starts at 0, ends at [2*np.pi], and consecutive points are exactly
    [2*np.pi/7] apart. *)
Theorem phase_grid_shared (lib : library) :
  (∀ i self calculation grid num_gangle num_tangle r,
     trace_of lib !! i =
       Some (Ev (phase_curve_geometry self calculation grid num_gangle num_tangle) r) →
     calculation = "reflected" ∧ grid = phase_grid ∧
     num_gangle = 6%Z ∧ num_tangle = 6%Z) ∧
  (outcome_of lib = Finished →
     ∃ i j,
       trace_of lib !! i =
         Some (Ev (phase_curve_geometry case_3d "reflected" phase_grid 6 6)
                 (Returns ())) ∧
       trace_of lib !! j =
         Some (Ev (phase_curve_geometry case_3d_clouds "reflected" phase_grid 6 6)
                 (Returns ()))) ∧
  length phase_grid = 8 ∧
  head phase_grid = Some 0%Q ∧
  last phase_grid = Some (fmul 2 np_pi) ∧
  (fmul 2 np_pi == 2 * np_pi)%Q ∧
  (∀ i x y, phase_grid !! i = Some x → phase_grid !! S i = Some y →
            (y - x == 2 * np_pi / 7)%Q).
Proof.
  split; [|split; [|split; [|split; [|split; [|split]]]]].
  - intros i self calculation grid g t r Hi.
    exact (history_ok _ _ _ geometry_safe lib i _ Hi).
  - intros Hfin.
    pose proof (history_final _ _ _ geometry_safe lib Hfin) as [H1 H2].
    apply kept_somewhere in H1 as [i Hi]. apply kept_somewhere in H2 as [j Hj].
    eauto.
  - vm_compute. reflexivity.
  - vm_compute. reflexivity.
  - vm_compute. reflexivity.
  - vm_compute. reflexivity.
  - intros i x y Hx Hy.
    do 7 (destruct i as [|i];
          [vm_compute in Hx, Hy; injection Hx as <-; injection Hy as <-;
           vm_compute; reflexivity|]).
    destruct i; vm_compute in Hy; discriminate.
Qed.

Lemma phase_grid_shared_witness :
  outcome_of demo_lib = Finished ∧
  (∃ self calculation grid num_gangle num_tangle r,
     trace_of demo_lib !! 26 =
       Some (Ev (phase_curve_geometry self calculation grid num_gangle num_tangle) r) ∧
     grid = phase_grid) ∧
  (∃ x y, phase_grid !! 2 = Some x ∧ phase_grid !! 3 = Some y ∧
          (y - x == 2 * np_pi / 7)%Q).
Proof.
  split; [vm_compute; reflexivity|]. split.
  - lazymatch eval vm_compute in (trace_of demo_lib !! 26) with
    | Some (Ev (phase_curve_geometry ?o ?c ?g ?a ?b) ?r) => exists o, c, g, a, b, r
    end.
    split; [vm_compute; reflexivity|].
    eapply (proj1 (phase_grid_shared demo_lib) 26). vm_compute; reflexivity.
  - lazymatch eval vm_compute in (phase_grid !! 2, phase_grid !! 3) with
    | (Some ?x, Some ?y) => exists x, y
    end.
    split; [vm_compute; reflexivity|]. split; [vm_compute; reflexivity|].
    eapply (proj2 (proj2 (proj2 (proj2 (proj2 (proj2 (phase_grid_shared demo_lib)))))) 2);
      vm_compute; reflexivity.
Defined.

(** ** The dataset handed to atmosphere_4d *)











(** ** The grid of the cloud dataset *)

Lemma drop_last_snoc {A : Type} (l : list A) (x : A) : drop_last (l ++ [x]) = l.
Proof.
  unfold drop_last. rewrite length_app. simpl.
  replace (length l + 1 - 1) with (length l) by lia.
  by rewrite take_app_length.
Qed.

Lemma cloud_grid_safe :
  safe (hstep keep_cloud_grid) ok_cloud_grid (λ _, True) notebook [] [] 0.
Proof.
  run_notebook ltac:(try exact I) ltac:(cbn [hstep keep_cloud_grid returned app]).
  all: try exact I.
  all: match goal with
       | Ha : coord_values ?g "lon" = Some ?a,
         Hb : coord_values ?g "lat" = Some ?a0,
         Hc : coord_values ?g "pressure" = Some ?a1,
         H2 : coord_values (ds_update ?g (ds_chem ?a ?a0 ?a1 ?d)) "lon" = Some ?a2,
         H3 : coord_values (ds_update ?g (ds_chem ?a ?a0 ?a1 ?d)) "lat" = Some ?a3,
         H4 : drop_last <$> coord_values (ds_update ?g (ds_chem ?a ?a0 ?a1 ?d)) "pressure"
              = Some ?a4 |- _ =>
           rewrite (coord_values_update g a a0 a1 d "lon" a eq_refl) in H2;
           rewrite (coord_values_update g a a0 a1 d "lat" a0 eq_refl) in H3;
           rewrite (coord_values_update g a a0 a1 d "pressure" a1 eq_refl) in H4;
           cbn [fmap option_fmap option_map] in H4;
           injection H2 as <-; injection H3 as <-; injection H4 as <-;
           exists g, a, a0, a1
       end.
  all: eexists; split; [in_history|]; repeat split; eassumption || reflexivity.
Qed.

(** C10.  The dataset handed to [clouds_4d] has the longitudes and
    latitudes of the GCM that [HJ_pt_3d] returned, its pressure levels
    without the last one, and [wno_grid] as wavenumbers.  Dropping the last
    level of a non-empty grid leaves one level fewer.  [wno_grid] has 10
    points, starts at 33333, ends at 10000, decreases, and every point is
    within 1e-11 of the line from 33333 to 10000 in 9 equal steps. *)
Theorem cloud_grid (lib : library) :
  (∀ i self ds iz_plot plot r,
     trace_of lib !! i = Some (Ev (clouds_4d self ds iz_plot plot) r) →
     ∃ j gcm lon lat pres,
       j < i ∧
       trace_of lib !! j = Some (Ev (jdi_HJ_pt_3d true) (Returns gcm)) ∧
       coord_values gcm "lon" = Some lon ∧
       coord_values gcm "lat" = Some lat ∧
       coord_values gcm "pressure" = Some pres ∧
       coord_values (arg_ds ds) "lon" = Some lon ∧
       coord_values (arg_ds ds) "lat" = Some lat ∧
       coord_values (arg_ds ds) "pressure" = Some (drop_last pres) ∧
       coord_values (arg_ds ds) "wno" = Some wno_grid) ∧
  (∀ (levels : list Q) (bottom : Q), drop_last (levels ++ [bottom]) = levels) ∧
  length wno_grid = 10 ∧
  head wno_grid = Some 33333%Q ∧
  last wno_grid = Some 10000%Q ∧
  (∀ i x, wno_grid !! i = Some x →
          (Qabs (x - (33333 - inject_Z (Z.of_nat i) * (23333 # 9)))
           <= 1 # 100000000000)%Q) ∧
  (∀ i x y, wno_grid !! i = Some x → wno_grid !! S i = Some y → (y < x)%Q).
Proof.
  split; [|split; [|split; [|split; [|split; [|split]]]]].
  - intros i self ds iz_plot plot r Hi.
    pose proof (history_ok _ _ _ cloud_grid_safe lib i _ Hi)
      as (gcm & lon & lat & pres & opd & Hin & Hlon & Hlat & Hpres & Hopd & Hds).
    apply kept_before in Hin as (j & Hlt & Hj).
    exists j, gcm, lon, lat, pres. rewrite Hds.
    repeat (split; [done|]). reflexivity.
  - intros levels bottom. apply drop_last_snoc.
  - vm_compute. reflexivity.
  - vm_compute. reflexivity.
  - vm_compute. reflexivity.
  - intros i x Hx.
    do 10 (destruct i as [|i];
           [vm_compute in Hx; injection Hx as <-; vm_compute; discriminate|]).
    vm_compute in Hx. discriminate.
  - intros i x y Hx Hy.
    do 9 (destruct i as [|i];
          [vm_compute in Hx, Hy; injection Hx as <-; injection Hy as <-;
           vm_compute; reflexivity|]).
    destruct i; vm_compute in Hy; discriminate.
Qed.

Lemma cloud_grid_witness :
  outcome_of demo_lib = Finished ∧
  (∃ self ds iz_plot plot r,
     trace_of demo_lib !! 29 = Some (Ev (clouds_4d self ds iz_plot plot) r) ∧
     coord_values (arg_ds ds) "pressure" = Some [lit (1 # 1000); 1%Q] ∧
     coord_values (arg_ds ds) "wno" = Some wno_grid) ∧
  (∃ x y, wno_grid !! 4 = Some x ∧ wno_grid !! 5 = Some y ∧ (y < x)%Q ∧
          (Qabs (x - (33333 - inject_Z (Z.of_nat 4) * (23333 # 9)))
           <= 1 # 100000000000)%Q).
Proof.
  split; [vm_compute; reflexivity|]. split.
  - lazymatch eval vm_compute in (trace_of demo_lib !! 29) with
    | Some (Ev (clouds_4d ?o ?ds ?iz ?pl) ?r) =>
        exists o, ds, iz, pl, r;
        assert (H29 : trace_of demo_lib !! 29 = Some (Ev (clouds_4d o ds iz pl) r))
          by (vm_compute; reflexivity)
    end.
    split; [exact H29|].
    destruct (proj1 (cloud_grid demo_lib) 29 _ _ _ _ _ H29)
      as (j & gcm & lon & lat & pres & _ & _ & _ & _ & _ & _ & _ & _ & Hwno).
    split; [vm_compute; reflexivity | exact Hwno].
  - lazymatch eval vm_compute in (wno_grid !! 4, wno_grid !! 5) with
    | (Some ?x, Some ?y) =>
        exists x, y;
        assert (H4 : wno_grid !! 4 = Some x) by (vm_compute; reflexivity);
        assert (H5 : wno_grid !! 5 = Some y) by (vm_compute; reflexivity)
    end.
    split; [exact H4|]. split; [exact H5|]. split.
    + exact (proj2 (proj2 (proj2 (proj2 (proj2 (proj2 (cloud_grid demo_lib)))))) 4 _ _ H4 H5).
    + exact (proj1 (proj2 (proj2 (proj2 (proj2 (proj2 (cloud_grid demo_lib)))))) 4 _ H4).
Defined.

(** * Further properties *)

(** ** The cloud band in pressure *)

Lemma head_where_from mask : ∀ i j,
  head (where_from i mask) = Some j →
  i ≤ j ∧ mask !! (j - i) = Some true ∧
  ∀ k, i ≤ k → k < j → mask !! (k - i) = Some false.
Proof.
  induction mask as [|b mask IH]; intros i j H; [done|].
  cbn [where_from] in H. destruct b; cbn [app head] in H.
  - injection H as <-. rewrite Nat.sub_diag. split; [done|]. split; [done|].
    intros k ? ?. lia.
  - destruct (IH (S i) j H) as (Hle & Hj & Hbefore).
    split; [lia|]. split.
    + replace (j - i) with (S (j - S i)) by lia. exact Hj.
    + intros k Hik Hkj. destruct (decide (k = i)) as [->|Hne].
      * by rewrite Nat.sub_diag.
      * replace (k - i) with (S (k - S i)) by lia. apply Hbefore; lia.
Qed.

Lemma head_np_where {A} (f : A → bool) (l : list A) (j : nat) :
  head (np_where (f <$> l)) = Some j →
  (∃ x, l !! j = Some x ∧ f x = true) ∧
  ∀ k y, k < j → l !! k = Some y → f y = false.
Proof.
  intros H. apply head_where_from in H as (_ & Hj & Hbefore).
  rewrite Nat.sub_0_r, list_lookup_fmap in Hj. split.
  - destruct (l !! j) as [x|]; [|done]. injection Hj as Hj. eauto.
  - intros k y Hk Hy. specialize (Hbefore k (Nat.le_0_l k) Hk).
    rewrite Nat.sub_0_r, list_lookup_fmap, Hy in Hbefore. by injection Hbefore.
Qed.

Ltac gcm_coordinates :=
  repeat match goal with
  | H : coord_values (ds_update ?g (ds_chem ?a ?a0 ?a1 ?d)) "lon" = Some _ |- _ =>
      rewrite (coord_values_update g a a0 a1 d "lon" a eq_refl) in H;
      injection H as <-
  | H : coord_values (ds_update ?g (ds_chem ?a ?a0 ?a1 ?d)) "lat" = Some _ |- _ =>
      rewrite (coord_values_update g a a0 a1 d "lat" a0 eq_refl) in H;
      injection H as <-
  | H : drop_last <$> coord_values (ds_update ?g (ds_chem ?a ?a0 ?a1 ?d)) "pressure"
        = Some _ |- _ =>
      rewrite (coord_values_update g a a0 a1 d "pressure" a1 eq_refl) in H;
      cbn [fmap option_fmap option_map] in H; injection H as <-
  end.

Ltac band_ok :=
  first
    [ reflexivity
    | solve [intros [=]]
    | intros _; gcm_coordinates;
      first
        [ do 3 eexists; split; [in_history|]; split; eassumption
        | do 5 eexists; split; [eassumption|]; split; [reflexivity|];
          split; [eassumption|]; repeat split ] ].

Lemma band_safe : safe (hstep keep_band) ok_band has_band notebook [] [] 0.
Proof.
  run_notebook band_ok ltac:(cbn [hstep keep_band app]).
  gcm_coordinates. do 3 eexists. split; [in_history|]. split; eassumption.
Qed.

Lemma HJ_pt_3d_once (lib : library) i j as_xarray r as_xarray' r' :
  trace_of lib !! i = Some (Ev (jdi_HJ_pt_3d as_xarray) r) →
  trace_of lib !! j = Some (Ev (jdi_HJ_pt_3d as_xarray') r') →
  i = j.
Proof.
  assert (Hlt : ∀ i j a r a' r', i < j →
            trace_of lib !! i = Some (Ev (jdi_HJ_pt_3d a) r) →
            trace_of lib !! j = Some (Ev (jdi_HJ_pt_3d a') r') → False).
  { intros i' j' a s a' s' Hij Hi Hj.
    pose proof (history_ok _ _ _ band_safe lib j' _ Hj) as Hnil.
    pose proof (before_kept keep_band _ j' i' _ Hij Hi eq_refl) as Hin.
    cbn [ok_band] in Hnil. rewrite Hnil in Hin. by apply elem_of_nil in Hin. }
  intros Hi Hj.
  destruct (Nat.lt_trichotomy i j) as [H|[H|H]]; [|done|]; exfalso; eauto.
Qed.

Lemma has_band_loaded (lib : library) (tr : list event) gcm pres :
  (∀ ev, ev ∈ tr → ev ∈ trace_of lib) →
  Ev (jdi_HJ_pt_3d true) (Returns gcm) ∈ trace_of lib →
  coord_values gcm "pressure" = Some pres →
  has_band tr →
  where_pres (drop_last pres) ≠ [].
Proof.
  intros Hsub Hin Hpres (gcm' & pres' & ip & Hin' & Hpres' & Hip) Hnil.
  apply Hsub in Hin'.
  apply list_elem_of_lookup in Hin as [j Hj].
  apply list_elem_of_lookup in Hin' as [j' Hj'].
  pose proof (HJ_pt_3d_once lib j j' _ _ _ _ Hj Hj') as <-.
  rewrite Hj in Hj'. apply (f_equal (λ ev, ev ≫= loaded_gcm)) in Hj'.
  cbn [mbind option_bind loaded_gcm] in Hj'.
  injection Hj' as <-. rewrite Hpres in Hpres'. injection Hpres' as <-.
  by rewrite Hnil in Hip.
Qed.

(** X1.  Without a cloud band the cloudy case is never set up.  When no
    pressure level of the loaded GCM, its last level left aside, lies
    strictly between 1e-5 and 0.01 bar, [where_pres[0][0]] of cell 26 has
    nothing to index: the run does not finish, and no call at all is made
    on [case_3d_clouds].  A GCM with a single pressure level is such a
    case. *)
Theorem no_cloud_band (lib : library) (gcm : Dataset) (pres : list Q) :
  Ev (jdi_HJ_pt_3d true) (Returns gcm) ∈ trace_of lib →
  coord_values gcm "pressure" = Some pres →
  where_pres (drop_last pres) = [] →
  outcome_of lib ≠ Finished ∧
  ∀ R (c : call R) r, Ev c r ∈ trace_of lib → subject c ≠ Some case_3d_clouds.
Proof.
  intros Hin Hpres Hnil. split.
  - intros Hfin.
    pose proof (history_final _ _ _ band_safe lib Hfin) as Hband.
    refine (has_band_loaded lib _ gcm pres _ Hin Hpres Hband Hnil).
    intros ev Hev. by apply list_elem_of_filter in Hev as [_ ?].
  - intros R c r Hev Hsub.
    apply list_elem_of_lookup in Hev as [i Hi].
    pose proof (history_ok _ _ _ band_safe lib i _ Hi) as Hok.
    assert (Hband : has_band (filter (λ ev, keep_band ev) (take i (trace_of lib)))).
    { destruct c; cbn [ok_band subject] in Hok, Hsub; try discriminate Hsub;
        by apply Hok. }
    refine (has_band_loaded lib _ gcm pres _ Hin Hpres Hband Hnil).
    intros ev Hev. apply list_elem_of_filter in Hev as [_ Hev].
    apply list_elem_of_lookup in Hev as [j Hj].
    apply lookup_take_Some in Hj as [Hj _]. by eapply list_elem_of_lookup_2.
Qed.

Lemma no_cloud_band_witness :
  outcome_of deep_lib = Uncaught IndexError ∧
  outcome_of deep_lib ≠ Finished ∧
  ∀ R (c : call R) r, Ev c r ∈ trace_of deep_lib → subject c ≠ Some case_3d_clouds.
Proof.
  split; [reflexivity|].
  apply (no_cloud_band deep_lib deep_gcm [1; 10; 100]%Q).
  - apply (list_elem_of_lookup_2 _ 2). reflexivity.
  - reflexivity.
  - reflexivity.
Defined.

(** X2.  Cell 26 maps the top of the cloud.  The [opd] map is drawn from the
    cloud dataset at wavenumber index 0 and at the pressure index
    [where_pres[0][0]]: the first level of the dataset strictly between
    1e-5 and 0.01 bar.  On that level the optical depth is 10 wherever the
    longitude is strictly between -90 and 0 and the latitude strictly
    between -50 and 50. *)
Theorem cloud_map_level (lib : library) (i : nat) (ds : dsarg)
    (isel : list (string * nat)) (x y : string) (r : reply unit) :
  trace_of lib !! i = Some (Ev (xr_plot ds "opd" isel x y) r) →
  ∃ lon lat pres ip p,
    coord_values (arg_ds ds) "lon" = Some lon ∧
    coord_values (arg_ds ds) "lat" = Some lat ∧
    coord_values (arg_ds ds) "pressure" = Some pres ∧
    isel = [("pressure", ip); ("wno", 0)] ∧ x = "lon" ∧ y = "lat" ∧
    pres !! ip = Some p ∧
    (lit (1 # 100000) < p)%Q ∧ (p < lit (1 # 100))%Q ∧
    (∀ k q, k < ip → pres !! k = Some q →
            ¬ ((lit (1 # 100000) < q)%Q ∧ (q < lit (1 # 100))%Q)) ∧
    (∀ ilon il xlon ylat,
       lon !! ilon = Some xlon → lat !! il = Some ylat →
       (-90 < xlon)%Q → (xlon < 0)%Q → (-50 < ylat)%Q → (ylat < 50)%Q →
       ds_value (arg_ds ds) "opd" [ilon; il; ip; 0] = Some 10%Q).
Proof.
  intros Hi.
  pose proof (history_ok _ _ _ band_safe lib i _ Hi eq_refl)
    as (lon & lat & pres & opd & ip & Hopd & Hds & Hip & Hisel & Hx & Hy).
  apply head_np_where in Hip as [(p & Hp & [Hlt Hgt]%andb_true_iff) Hbefore].
  apply flt_spec in Hlt. apply fgt_spec in Hgt.
  exists lon, lat, pres, ip, p. rewrite Hds.
  do 6 (split; [done|]). split; [exact Hp|]. split; [exact Hgt|]. split; [exact Hlt|].
  split.
  - intros k q Hk Hq [Hq1 Hq2]. specialize (Hbefore k q Hk Hq).
    apply andb_false_iff in Hbefore as [H|H].
    + apply flt_spec in Hq2. congruence.
    + apply fgt_spec in Hq1. congruence.
  - intros ilon il xlon ylat Hlon Hlat H1 H2 H3 H4.
    destruct (fake_opd_slab lon lat pres) as (opd' & Hopd' & Hs).
    rewrite Hopd in Hopd'. injection Hopd' as <-.
    destruct (Hs ilon il ip) as (v & Hv & H10 & _).
    { by eapply lookup_lt_Some. }
    { by eapply lookup_lt_Some. }
    { by eapply lookup_lt_Some. }
    unfold ds_value, ds_cld_of; cbn [data_vars].
    rewrite lookup_insert_eq. cbn [mbind option_bind values].
    assert (Hw : 0 < length wno_grid) by (vm_compute; lia).
    rewrite (nd_get_row opd ilon il ip 0 _ v Hw Hv). rewrite H10; [done|].
    unfold where_lat, where_lon, where_pres. rewrite !np_where_fmap.
    split; [|split]; eexists; (split; [eassumption|]);
      apply andb_true_iff; split; by (apply flt_spec || apply fgt_spec).
Qed.

Lemma cloud_map_level_witness :
  ∃ ds lon lat pres ip p,
    trace_of demo_lib !! 24 =
      Some (Ev (xr_plot ds "opd" [("pressure", 0); ("wno", 0)] "lon" "lat")
              (Returns ())) ∧
    coord_values (arg_ds ds) "lon" = Some lon ∧
    coord_values (arg_ds ds) "lat" = Some lat ∧
    coord_values (arg_ds ds) "pressure" = Some pres ∧
    [("pressure", 0); ("wno", 0)] = [("pressure", ip); ("wno", 0)] ∧
    pres !! ip = Some p ∧ (lit (1 # 100000) < p)%Q ∧ (p < lit (1 # 100))%Q.
Proof.
  set (ds := mkArg 2 (ds_cld_of [-45; 45]%Q [0%Q] [lit (1 # 1000); 1]%Q
                        (Array [Array [Array [np_full [10] 10%Q; np_full [10] 0%Q]];
                                Array [Array [np_full [10] 0%Q; np_full [10] 0%Q]]]))).
  assert (H24 : trace_of demo_lib !! 24 =
                Some (Ev (xr_plot ds "opd" [("pressure", 0); ("wno", 0)] "lon" "lat")
                        (Returns ()))) by reflexivity.
  destruct (cloud_map_level demo_lib 24 ds _ _ _ _ H24)
    as (lon & lat & pres & ip & p & Hlon & Hlat & Hpres & Hisel & _ & _ & Hp & H1 & H2 & _).
  exists ds, lon, lat, pres, ip, p.
  split; [exact H24|]. split; [exact Hlon|]. split; [exact Hlat|].
  split; [exact Hpres|]. split; [exact Hisel|]. split; [exact Hp|].
  split; [exact H1 | exact H2].
Defined.

(** ** What the notebook itself raises *)


Lemma dict_get_key {V : Type} (d : list (Q * V)) (key : Q) :
  key ∈ d.*1 → is_Some (dict_get d key).
Proof.
  unfold dict_get. induction d as [|[q v] d IH]; simpl.
  - by intros ?%elem_of_nil.
  - intros [->|Hin]%elem_of_cons.
    + rewrite Qeq_bool_refl. by eexists.
    + destruct (Qeq_bool q key); [by eexists | by apply IH].
Qed.

Lemma explained_spectra_of out k m h n :
  (∃ self opacity n_cpu full_output,
     Ev (phase_curve self opacity n_cpu full_output) (Returns out) ∈ m) →
  (∀ s, explained (hstep keep_cause) cause (k s) m h n) →
  explained (hstep keep_cause) cause (spectra_of out k) m h n.
Proof.
  intros (self & opacity & n_cpu & full_output & Hin) Hk. unfold spectra_of.
  apply explained_for_in; [|exact Hk].
  intros iphase [[wno fpfs] legend] k' Hkey Hk'.
  apply explained_or_raise.
  { intros Hnone. destruct (dict_get_key out iphase Hkey) as [sp Hsp]. congruence. }
  intros sp Hsp. apply explained_or_raise.
  { intros Hnone. exists self, opacity, n_cpu, full_output, out, iphase, sp. auto. }
  intros wavenumber _. apply explained_or_raise.
  { intros Hnone. exists self, opacity, n_cpu, full_output, out, iphase, sp. auto. }
  intros fpfs_reflected _. apply explained_Call. intros [w f].
  change (hstep keep_cause m _) with m. apply explained_or_raise.
  { intros Hnone. exists self, opacity, n_cpu, full_output, out, iphase.
    split; [exact Hin|]. split; [exact Hkey|].
    unfold degrees in Hnone. by destruct (overflows (iphase * 180)). }
  intros deg _. apply Hk'.
Qed.

Lemma coord_values_None (ds : Dataset) (name : string) :
  coord_values ds name = None ↔ absent ds name.
Proof.
  unfold coord_values, absent.
  destruct (coords ds !! name), (sizes ds !! name); cbn; split;
    first [done | by intros [? ?]].
Qed.

Ltac raise_explained :=
  lazymatch goal with
  | |- cause _ TypeError => do 2 eexists; in_history
  | H : coord_values (ds_update ?g (ds_chem ?a ?a0 ?a1 ?d)) ?name = None |- _ =>
      rewrite (coord_values_update g a a0 a1 d name _ eq_refl) in H; discriminate H
  | H : drop_last <$> coord_values (ds_update ?g (ds_chem ?a ?a0 ?a1 ?d)) ?name = None
    |- _ =>
      rewrite (coord_values_update g a a0 a1 d name _ eq_refl) in H; discriminate H
  | H : fake_opd ?lon ?lat ?pres = None |- _ =>
      destruct (fake_opd_slab lon lat pres) as (? & ? & _); congruence
  | H : head (where_pres ?pres) = None |- _ =>
      gcm_coordinates; do 2 eexists; split; [in_history|];
      split; [eassumption|]; destruct (where_pres _); [reflexivity | discriminate H]
  | H : coord_values _ _ = None |- _ =>
      apply coord_values_None in H; eexists; split; [in_history | auto]
  end.

Lemma notebook_explained : explained (hstep keep_cause) cause notebook [] [] 0.
Proof.
  unfold notebook.
  repeat (explained_step ltac:(idtac; raise_explained)
            ltac:(apply explained_spectra_of;
                  [do 4 eexists; in_history | intros [[? ?] ?]]);
          cbn [hstep keep_cause returned app]).
  exact I.
Qed.

Lemma cause_mono (m m' : list event) (e : exn) :
  (∀ ev, ev ∈ m → ev ∈ m') → cause m e → cause m' e.
Proof.
  intros Hsub. destruct e as [| | | | |code]; cbn [cause].
  - intros (gcm & Hin & H). exists gcm. auto.
  - intros (self & opacity & n_cpu & full_output & out & iphase & sp & Hin & H).
    exists self, opacity, n_cpu, full_output, out, iphase, sp. auto.
  - intros (gcm & pres & Hin & H). exists gcm, pres. auto.
  - intros (self & other & Hin). exists self, other. auto.
  - intros (self & opacity & n_cpu & full_output & out & iphase & Hin & H).
    exists self, opacity, n_cpu, full_output, out, iphase. auto.
  - done.
Qed.

(** X3.  The failures of the notebook.  When a run stops on an exception,
    either the last library call raised it, or the notebook raised it
    itself, and then for one of five reasons: an AttributeError because in
    the dataset [HJ_pt_3d] returned lon, lat or pressure is neither a
    coordinate nor a dimension (cell 6); a TypeError because [update]
    returned None, which cell 7 subscripts; a KeyError because a spectrum of
    a [phase_curve] result lacks 'wavenumber' or 'fpfs_reflected' (cells 22
    and 35); an OverflowError because a key of a [phase_curve] result times
    180 overflows to inf, which [int] refuses (cells 22 and 35); an
    IndexError because no pressure level of that dataset but the last lies
    in the cloud band (cell 26).  The keys of a [phase_curve] result are
    finite numbers here.  The loops of cell 24 stay in range, every key of
    the loops is found, and the coordinates read in cell 24 are there after
    the update. *)
Theorem failure_causes (lib : library) (e : exn) :
  outcome_of lib = Uncaught e →
  (∃ R (c : call R), last (trace_of lib) = Some (Ev c (Raises e))) ∨
  cause (trace_of lib) e.
Proof.
  intros Hout.
  destruct (explained_run (hstep keep_cause) cause lib notebook init [] e
              notebook_explained Hout) as [H|H]; [by left|].
  right. rewrite foldl_hstep in H. eapply cause_mono; [|exact H].
  intros ev Hev. by apply list_elem_of_filter in Hev as [_ ?].
Qed.

Lemma failure_causes_witness :
  ((∃ R (c : call R), last (trace_of deep_lib) = Some (Ev c (Raises IndexError))) ∨
   cause (trace_of deep_lib) IndexError) ∧
  ((∃ R (c : call R), last (trace_of none_lib) = Some (Ev c (Raises TypeError))) ∨
   cause (trace_of none_lib) TypeError).
Proof.
  split.
  - exact (failure_causes deep_lib IndexError eq_refl).
  - exact (failure_causes none_lib TypeError eq_refl).
Defined.

(** ** A GCM without its coordinates *)

Lemma run_Call lib {R} (c : call R) k st :
  run lib (Call c k) st =
    match lib R (trace st) c with
    | Returns r => run lib (k r) (log (Ev c (Returns r)) st)
    | Raises e => (log (Ev c (Raises e)) st, Uncaught e)
    end.
Proof. reflexivity. Qed.

Lemma not_loaded (l : list event) (gcm : Dataset) :
  Forall (λ ev, loaded_gcm ev = None) l → Ev (jdi_HJ_pt_3d true) (Returns gcm) ∉ l.
Proof.
  intros Hall Hin. rewrite Forall_forall in Hall. by apply Hall in Hin.
Qed.

(** X4.  A GCM without lon, lat or pressure stops the notebook in cell 6.
    When in the dataset [HJ_pt_3d] returned one of lon, lat and pressure is
    neither a coordinate nor a dimension, [coords.get] gives None and
    [.values] raises: the run ends with an AttributeError, and the
    [HJ_pt_3d] call is the last call made, so that nothing is drawn and no
    dataset is built or updated.  A name that is still a dimension does not
    stop the run: [coords.get] then gives the default index. *)
Theorem missing_coordinate (lib : library) (gcm : Dataset) :
  Ev (jdi_HJ_pt_3d true) (Returns gcm) ∈ trace_of lib →
  absent gcm "lon" ∨ absent gcm "lat" ∨ absent gcm "pressure" →
  outcome_of lib = Uncaught AttributeError ∧
  last (trace_of lib) = Some (Ev (jdi_HJ_pt_3d true) (Returns gcm)) ∧
  length (trace_of lib) = 3.
Proof.
  intros Hin Hmiss. rewrite <- !coord_values_None in Hmiss.
  pose proof (HJ_pt_3d_once lib) as Honce.
  pose proof handler_free_notebook as Hfree.
  unfold trace_of, outcome_of in *. unfold notebook in *.
  rewrite run_Call in *.
  destruct (lib unit (trace init) jpi_output_notebook) as [u|e0].
  2: { exfalso. revert Hin. apply not_loaded. by repeat constructor. }
  specialize (Hfree u). cbn beta in *.
  rewrite run_Call in *.
  lazymatch goal with
  | |- context [lib ?R ?tr (jdi_opannection ?w ?s)] =>
      destruct (lib R tr (jdi_opannection w s)) as [opacity|e1]
  end.
  2: { exfalso. revert Hin. apply not_loaded. by repeat constructor. }
  specialize (Hfree opacity). cbn beta in *.
  rewrite run_Call in *.
  lazymatch goal with
  | |- context [lib ?R ?tr (jdi_HJ_pt_3d true)] =>
      destruct (lib R tr (jdi_HJ_pt_3d true)) as [g|e2]
  end.
  2: { exfalso. revert Hin. apply not_loaded. by repeat constructor. }
  specialize (Hfree g). cbn beta in *.
  lazymatch goal with
  | |- context [run lib ?p ?st] =>
      destruct (run_handler_free lib p st Hfree) as (ext & Htr & _);
      cbn [trace log init app] in Htr
  end.
  assert (Hg : g = gcm).
  { apply list_elem_of_lookup in Hin as [j Hj].
    assert (H2 : trace (run lib _ _).1 !! 2 = Some (Ev (jdi_HJ_pt_3d true) (Returns g)))
      by (rewrite Htr; reflexivity).
    pose proof (Honce j 2 _ _ _ _ Hj H2) as ->.
    rewrite H2 in Hj. apply (f_equal (λ ev, ev ≫= loaded_gcm)) in Hj.
    cbn [mbind option_bind loaded_gcm] in Hj. by injection Hj. }
  subst g. clear Htr Honce Hin Hfree.
  cbn [run log trace heap next_obj init app length lookup list_lookup arg_ds].
  destruct (coord_values gcm "lon") as [lon|]; [|by cbn].
  destruct (coord_values gcm "lat") as [lat|]; [|by cbn].
  destruct (coord_values gcm "pressure") as [pres|]; [|by cbn].
  by destruct Hmiss as [?|[?|?]].
Qed.

Lemma missing_coordinate_witness :
  outcome_of bare_lib = Uncaught AttributeError ∧
  last (trace_of bare_lib) = Some (Ev (jdi_HJ_pt_3d true) (Returns bare_gcm)) ∧
  length (trace_of bare_lib) = 3.
Proof.
  apply (missing_coordinate bare_lib bare_gcm).
  - apply (list_elem_of_lookup_2 _ 2). reflexivity.
  - right. left. split; reflexivity.
Defined.

(** Where lat is still a dimension of the GCM, the chemistry is built on the
    default index and the run reaches its end. *)
Example dimension_without_coordinate :
  coord_values unindexed_gcm "lat" = Some [0%Q] ∧
  ¬ absent unindexed_gcm "lat" ∧
  outcome_of unindexed_lib = Finished ∧
  length (trace_of unindexed_lib) = 48.
Proof.
  split; [reflexivity|]. split; [by intros [_ [=]]|]. split; reflexivity.
Qed.

(** ** Spectra without their arrays *)

Lemma safe_spectra_complete out k m h n :
  (∀ s, complete out →
        safe (hstep keep_complete) ok_complete all_complete (k s) m h n) →
  safe (hstep keep_complete) ok_complete all_complete (spectra_of out k) m h n.
Proof.
  intros Hk. unfold spectra_of.
  apply (safe_for_in_inv _ _ _
    (λ done (_ : list ndarray * list ndarray * list string) m',
       m' = m ∧
       ∀ iphase, iphase ∈ done →
         ∃ sp, dict_get out iphase = Some sp ∧
               is_Some (sp !! "wavenumber") ∧ is_Some (sp !! "fpfs_reflected"))
    _ _ h n out.*1) with (done := []).
  - intros done iphase rest [[wno fpfs] legend] m' k' Hall [-> Hdone] Hk'.
    apply safe_or_raise; intros sp Hsp.
    apply safe_or_raise; intros wn Hwn.
    apply safe_or_raise; intros fp Hfp.
    apply safe_Call; [intros e [=]|].
    intros [w f]. split; [intros [=]|].
    cbn [hstep keep_complete computed].
    apply safe_or_raise; intros deg _. apply Hk'. split; [done|].
    intros iphase' [Hin|Hin%list_elem_of_singleton]%elem_of_app; [by apply Hdone|].
    subst iphase'. exists sp. by rewrite Hwn, Hfp.
  - intros s m' [-> Hdone]. by apply Hk.
  - done.
  - split; [done|]. by intros ? ?%elem_of_nil.
Qed.

Ltac complete_ok :=
  first
    [ solve [intros [=]]
    | intros _ ev out' Hin Hout;
      repeat (apply elem_of_cons in Hin as [->|Hin]);
      [ cbn [computed] in Hout; injection Hout as <-; assumption ..
      | by apply elem_of_nil in Hin ] ].

Lemma complete_safe :
  safe (hstep keep_complete) ok_complete all_complete notebook [] [] 0.
Proof.
  unfold notebook.
  repeat first
    [ safe_step complete_ok; cbn [hstep keep_complete computed returned app]
    | apply safe_spectra_complete; intros [[? ?] ?] ? ].
  intros ev out' Hin Hout.
  repeat (apply elem_of_cons in Hin as [->|Hin]);
    [ cbn [computed] in Hout; injection Hout as <-; assumption ..
    | by apply elem_of_nil in Hin ].
Qed.

(** X5.  A spectrum without its arrays stops the notebook.  When a
    [phase_curve] computation returns a dictionary in which the spectrum of
    some key lacks 'wavenumber' or 'fpfs_reflected', the run does not
    finish; and when it is the computation of the cloud-free case, no call
    is made on [case_3d_clouds] afterwards: the loop of cell 22 fails before
    the cloudy case is set up. *)
Theorem incomplete_spectrum (lib : library) (i : nat) (self : obj) (opacity : pyobj)
    (n_cpu : Z) (full_output : bool) (out : phase_curve_output)
    (iphase : Q) (sp : spectrum) :
  trace_of lib !! i =
    Some (Ev (phase_curve self opacity n_cpu full_output) (Returns out)) →
  iphase ∈ out.*1 →
  dict_get out iphase = Some sp →
  sp !! "wavenumber" = None ∨ sp !! "fpfs_reflected" = None →
  outcome_of lib ≠ Finished ∧
  ∀ j R (c : call R) r,
    i < j → trace_of lib !! j = Some (Ev c r) → subject c ≠ Some case_3d_clouds.
Proof.
  intros Hi Hkey Hsp Hmiss.
  assert (Hbad : ¬ complete out).
  { intros Hc. destruct (Hc iphase Hkey) as (sp' & Hsp' & [? Hw] & [? Hf]).
    rewrite Hsp in Hsp'. injection Hsp' as <-.
    destruct Hmiss; congruence. }
  split.
  - intros Hfin. apply Hbad.
    apply (history_final _ _ _ complete_safe lib Hfin
             (Ev (phase_curve self opacity n_cpu full_output) (Returns out)) out);
      [|done].
    apply list_elem_of_filter. split; [done|]. by eapply list_elem_of_lookup_2.
  - intros j R c r Hij Hj Hsub. apply Hbad.
    pose proof (history_ok _ _ _ complete_safe lib j _ Hj Hsub) as Hall.
    apply (Hall (Ev (phase_curve self opacity n_cpu full_output) (Returns out)) out);
      [|done].
    by apply (before_kept keep_complete _ j i).
Qed.

Lemma incomplete_spectrum_witness :
  outcome_of hollow_lib = Uncaught KeyError ∧
  outcome_of hollow_lib ≠ Finished ∧
  ∀ j R (c : call R) r,
    15 < j → trace_of hollow_lib !! j = Some (Ev c r) →
    subject c ≠ Some case_3d_clouds.
Proof.
  split; [reflexivity|].
  apply (incomplete_spectrum hollow_lib 15 0 1 3 true
           [(0%Q, demo_spectrum); (np_pi, delete "wavenumber" demo_spectrum)]
           np_pi (delete "wavenumber" demo_spectrum)).
  - reflexivity.
  - right. left.
  - reflexivity.
  - left. reflexivity.
Defined.

(** ** The chemistry dataset and the update *)

Lemma ds_update_var (self other : Dataset) (var : string) :
  data_vars other !! var = None →
  data_vars (ds_update self other) !! var = data_vars self !! var.
Proof.
  intros H. cbn [ds_update data_vars].
  destruct (data_vars self !! var) as [da|] eqn:E.
  - by apply lookup_union_Some_raw; right.
  - by apply lookup_union_None.
Qed.

Lemma ds_chem_var lon lat pres draws (var : string) :
  var ≠ "H2O" → var ≠ "H2" → data_vars (ds_chem lon lat pres draws) !! var = None.
Proof.
  intros H1 H2. cbn [ds_chem data_vars].
  rewrite lookup_insert_ne by done. by rewrite lookup_singleton_ne.
Qed.

Lemma ds_chem_coord lon lat pres draws (name : string) :
  coords (ds_chem lon lat pres draws) !! name =
    if decide (name = "lon") then Some (mkCoordinate ["lon"] lon [("units", "degrees")])
    else if decide (name = "lat") then Some (mkCoordinate ["lat"] lat [("units", "degrees")])
    else if decide (name = "pressure")
         then Some (mkCoordinate ["pressure"] pres [("units", "bar")])
    else None.
Proof.
  cbn [ds_chem coords].
  destruct (decide (name = "lon")) as [->|H1]; [by rewrite lookup_insert_eq|].
  rewrite lookup_insert_ne by done.
  destruct (decide (name = "lat")) as [->|H2]; [by rewrite lookup_insert_eq|].
  rewrite lookup_insert_ne by done.
  destruct (decide (name = "pressure")) as [->|H3]; [by rewrite lookup_singleton_eq|].
  by rewrite lookup_singleton_ne.
Qed.

Lemma ds_chem_size lon lat pres draws (name : string) :
  name ≠ "lon" → name ≠ "lat" → name ≠ "pressure" →
  sizes (ds_chem lon lat pres draws) !! name = None.
Proof.
  intros H1 H2 H3. cbn [ds_chem sizes].
  rewrite !lookup_insert_ne by done. by rewrite lookup_singleton_ne.
Qed.

Lemma update_coord_values (gcm : Dataset) lon lat pres draws :
  coord_values gcm "lon" = Some lon →
  coord_values gcm "lat" = Some lat →
  coord_values gcm "pressure" = Some pres →
  ∀ name, coord_values (ds_update gcm (ds_chem lon lat pres draws)) name =
          coord_values gcm name.
Proof.
  intros Hlon Hlat Hpres name.
  destruct (decide (name = "lon")) as [->|H1];
    [rewrite Hlon; by apply coord_values_update|].
  destruct (decide (name = "lat")) as [->|H2];
    [rewrite Hlat; by apply coord_values_update|].
  destruct (decide (name = "pressure")) as [->|H3];
    [rewrite Hpres; by apply coord_values_update|].
  unfold coord_values. cbn [ds_update coords sizes].
  rewrite !lookup_union, ds_chem_coord, ds_chem_size by done.
  rewrite !decide_False by done.
  by destruct (coords gcm !! name), (sizes gcm !! name).
Qed.

(** X6.  Cell 6 augments the GCM: after [gcm_out.update(ds_chem)], with the
    chemistry built on the coordinates read from the GCM, every variable of
    the GCM other than H2O and H2 (the temperature that cell 7 maps, for one)
    is the one it had, every coordinate has the values it had, no name
    gains values that [coords.get] did not give before, and the attributes
    of the dataset are kept. *)
Theorem update_keeps_gcm (gcm : Dataset) (lon lat pres : list Q) (draws : ndarray) :
  coord_values gcm "lon" = Some lon →
  coord_values gcm "lat" = Some lat →
  coord_values gcm "pressure" = Some pres →
  let all_gcm := ds_update gcm (ds_chem lon lat pres draws) in
  (∀ var, var ≠ "H2O" → var ≠ "H2" →
          data_vars all_gcm !! var = data_vars gcm !! var) ∧
  (∀ name, coord_values all_gcm name = coord_values gcm name) ∧
  attrs all_gcm = attrs gcm.
Proof.
  intros Hlon Hlat Hpres all_gcm. split; [|split].
  - intros var H1 H2. apply ds_update_var. by apply ds_chem_var.
  - by apply update_coord_values.
  - reflexivity.
Qed.

Lemma update_keeps_gcm_witness :
  data_vars (ds_update demo_gcm (ds_chem [-45; 45]%Q [0%Q] [lit (1 # 1000); 1; 10]%Q
                                   (np_full [2; 1; 3] (1 # 2)%Q))) !! "temperature" =
    data_vars demo_gcm !! "temperature" ∧
  coord_values (ds_update demo_gcm (ds_chem [-45; 45]%Q [0%Q] [lit (1 # 1000); 1; 10]%Q
                                      (np_full [2; 1; 3] (1 # 2)%Q))) "pressure" =
    coord_values demo_gcm "pressure".
Proof.
  pose proof (update_keeps_gcm demo_gcm [-45; 45]%Q [0%Q] [lit (1 # 1000); 1; 10]%Q
                (np_full [2; 1; 3] (1 # 2)%Q) eq_refl eq_refl eq_refl) as (Hv & Hc & _).
  split; [apply Hv; discriminate | apply Hc].
Defined.

(** ** Shapes *)

Lemma forallb_elem_of {A} (f : A → bool) (l : list A) :
  forallb f l = true ↔ ∀ x, x ∈ l → f x = true.
Proof.
  rewrite forallb_forall. split; intros H x Hx; apply H; by apply list_elem_of_In.
Qed.

Lemma has_shape_full shape : ∀ v, has_shape shape (np_full shape v) = true.
Proof.
  induction shape as [|n shape IH]; intros v; simpl; [done|].
  rewrite length_replicate, Nat.eqb_refl. simpl.
  apply forallb_elem_of. intros x [-> _]%elem_of_replicate. apply IH.
Qed.

Lemma has_shape_map f shape : ∀ a,
  has_shape shape a = true → has_shape shape (nd_map f a) = true.
Proof.
  induction shape as [|n shape IH]; intros [x|xs]; simpl; try done.
  rewrite length_fmap. intros [Hn Hall]%andb_true_iff. rewrite Hn. simpl.
  apply forallb_elem_of. intros y (x & -> & Hx)%list_elem_of_fmap.
  apply IH. by eapply forallb_elem_of in Hall.
Qed.

Lemma has_shape_assign v idx : ∀ shape a a',
  nd_assign idx v a = Some a' →
  has_shape shape a = true → has_shape shape a' = true.
Proof.
  induction idx as [|i idx IH]; intros shape a a' Ha Hs.
  - simpl in Ha. injection Ha as <-. by apply has_shape_map.
  - destruct a as [x|xs]; simpl in Ha; [done|].
    destruct (xs !! i) as [x|] eqn:Hx; simpl in Ha; [|done].
    destruct (nd_assign idx v x) as [x'|] eqn:Hx'; simpl in Ha; [|done].
    injection Ha as <-.
    destruct shape as [|n shape]; simpl in *; [done|].
    apply andb_true_iff in Hs as [Hn Hall]. rewrite length_insert, Hn. simpl.
    apply forallb_elem_of. intros y [j Hj]%list_elem_of_lookup.
    assert (Hall' : ∀ z, z ∈ xs → has_shape shape z = true) by (by apply forallb_elem_of).
    destruct (decide (j = i)) as [->|Hne].
    + rewrite list_lookup_insert_eq in Hj by (by eapply lookup_lt_Some).
      injection Hj as <-. apply (IH shape x x' Hx').
      apply Hall'. by eapply list_elem_of_lookup_2.
    + rewrite list_lookup_insert_ne in Hj by done.
      apply Hall'. by eapply list_elem_of_lookup_2.
Qed.

Lemma for_each_preserves {A S : Type} (P : S → Prop) (body : A → S → option S) xs :
  (∀ x s s', body x s = Some s' → P s → P s') →
  ∀ s s', for_each xs body s = Some s' → P s → P s'.
Proof.
  intros Hbody. induction xs as [|x xs IH]; intros s s' Hs HP; simpl in Hs.
  - by injection Hs as <-.
  - destruct (body x s) as [t|] eqn:Ht; simpl in Hs; [|done].
    eapply IH; [exact Hs|]. eapply Hbody; eassumption.
Qed.

Lemma fake_opd_shape lon lat pres opd :
  fake_opd lon lat pres = Some opd →
  has_shape (cloud_shape lon lat pres) opd = true.
Proof.
  unfold fake_opd. intros H.
  set (P := λ a, has_shape (cloud_shape lon lat pres) a = true).
  refine (for_each_preserves P _ _ _ _ _ H (has_shape_full _ _)).
  intros il a a' Ha. refine (for_each_preserves P _ _ _ _ _ Ha).
  intros ilon b b' Hb. refine (for_each_preserves P _ _ _ _ _ Hb).
  intros ip c c' Hc. by eapply has_shape_assign.
Qed.

Lemma dim_sizes_cld lon lat pres opd :
  dim_sizes (ds_cld_of lon lat pres opd) ["lon"; "lat"; "pressure"; "wno"] =
    Some (cloud_shape lon lat pres).
Proof. reflexivity. Qed.

(** X7.  The cloud dataset of cell 24 is aligned for every grid: the loops
    that fill [fake_opd] end without an IndexError, and [opd], [g0] and [w0]
    all have the shape (len(lon), len(lat), len(pres), len(wno_grid)) that
    the coordinates of [ds_cld] give to their dimensions. *)
Theorem cloud_dataset_aligned (lon lat pres : list Q) :
  ∃ opd, fake_opd lon lat pres = Some opd ∧ aligned (ds_cld_of lon lat pres opd).
Proof.
  destruct (fake_opd_slab lon lat pres) as (opd & Hopd & _).
  exists opd. split; [exact Hopd|].
  intros var da Hda. exists (cloud_shape lon lat pres).
  cbn [ds_cld_of data_vars] in Hda.
  apply lookup_insert_Some in Hda as [[_ <-]|[_ Hda]].
  { split; [apply dim_sizes_cld | by apply fake_opd_shape]. }
  apply lookup_insert_Some in Hda as [[_ <-]|[_ Hda]].
  { split; [apply dim_sizes_cld|]. apply has_shape_map, has_shape_full. }
  apply lookup_singleton_Some in Hda as [_ <-].
  split; [apply dim_sizes_cld|]. apply has_shape_map, has_shape_full.
Qed.

Lemma dim_sizes_ext (ds ds' : Dataset) :
  (∀ name, coord_values ds' name = coord_values ds name) →
  ∀ ds_dims, dim_sizes ds' ds_dims = dim_sizes ds ds_dims.
Proof.
  intros H ds_dims. unfold dim_sizes.
  induction ds_dims as [|d ds_dims IH]; [done|].
  cbn [mapM]. by rewrite H, IH.
Qed.

Lemma dim_sizes_chem (ds : Dataset) lon lat pres :
  coord_values ds "lon" = Some lon →
  coord_values ds "lat" = Some lat →
  coord_values ds "pressure" = Some pres →
  dim_sizes ds ["lon"; "lat"; "pressure"] = Some [length lon; length lat; length pres].
Proof. intros H1 H2 H3. unfold dim_sizes. cbn [mapM]. by rewrite H1, H2, H3. Qed.

Lemma chem_var_inv lon lat pres draws var da :
  data_vars (ds_chem lon lat pres draws) !! var = Some da →
  dims da = ["lon"; "lat"; "pressure"] ∧
  (values da = fake_chem_H2O draws ∨ values da = fake_chem_H2 (fake_chem_H2O draws)).
Proof.
  cbn [ds_chem data_vars]. intros Hda.
  apply lookup_insert_Some in Hda as [[_ <-]|[_ Hda]]; [by split; [|left]|].
  apply lookup_singleton_Some in Hda as [_ <-]. by split; [|right].
Qed.

(** X8.  The chemistry dataset of cell 6 is aligned whenever [np.random.rand]
    returns an array of the shape it was asked for: H2O and H2 have the shape
    (len(lon), len(lat), len(pres)) of the coordinates.  Updating an aligned
    GCM with it, on the GCM's own coordinates, leaves an aligned dataset. *)
Theorem chem_dataset_aligned (gcm : Dataset) (lon lat pres : list Q) (draws : ndarray) :
  coord_values gcm "lon" = Some lon →
  coord_values gcm "lat" = Some lat →
  coord_values gcm "pressure" = Some pres →
  has_shape [length lon; length lat; length pres] draws = true →
  aligned (ds_chem lon lat pres draws) ∧
  (aligned gcm → aligned (ds_update gcm (ds_chem lon lat pres draws))).
Proof.
  intros Hlon Hlat Hpres Hdraws.
  assert (Hchem : ∀ var da,
            data_vars (ds_chem lon lat pres draws) !! var = Some da →
            dims da = ["lon"; "lat"; "pressure"] ∧
            has_shape [length lon; length lat; length pres] (values da) = true).
  { intros var da Hda. destruct (chem_var_inv _ _ _ _ _ _ Hda) as [Hd [-> | ->]].
    - split; [done|]. by apply has_shape_map.
    - split; [done|]. by do 2 apply has_shape_map. }
  split.
  - intros var da Hda. destruct (Hchem var da Hda) as [-> Hs].
    exists [length lon; length lat; length pres]. split; [|done].
    by apply dim_sizes_chem.
  - intros Hgcm var da Hda.
    rewrite (dim_sizes_ext gcm) by (by apply update_coord_values).
    cbn [ds_update data_vars] in Hda.
    apply lookup_union_Some_raw in Hda as [Hda|[_ Hda]].
    + destruct (Hchem var da Hda) as [-> Hs].
      exists [length lon; length lat; length pres]. split; [|done].
      by apply dim_sizes_chem.
    + by apply (Hgcm var).
Qed.

Lemma chem_dataset_aligned_witness :
  aligned (ds_chem [-45; 45]%Q [0%Q] [lit (1 # 1000); 1; 10]%Q
             (np_full [2; 1; 3] (1 # 2)%Q)) ∧
  aligned (ds_update demo_gcm
             (ds_chem [-45; 45]%Q [0%Q] [lit (1 # 1000); 1; 10]%Q
                (np_full [2; 1; 3] (1 # 2)%Q))).
Proof.
  destruct (chem_dataset_aligned demo_gcm [-45; 45]%Q [0%Q]
              [lit (1 # 1000); 1; 10]%Q (np_full [2; 1; 3] (1 # 2)%Q)
              eq_refl eq_refl eq_refl eq_refl) as [Hchem Hall].
  split; [exact Hchem|]. apply Hall.
  intros var da Hda. cbn [demo_gcm data_vars] in Hda.
  apply lookup_singleton_Some in Hda as [_ <-].
  exists [2; 1; 3]. split; reflexivity.
Defined.

(** ** Mixing ratios and legends *)

Section Bounds.
Local Open Scope Q_scope.

Lemma H2_range (h : Q) :
  lit (1 # 10) <= h → h <= lit (2 # 10) →
  lit (8 # 10) <= fsub 1 h <= lit (9 # 10).
Proof.
  intros H1 H2. unfold fsub. split.
  - assert (E : lit (8 # 10) = rnd (1 - lit (2 # 10))) by (vm_compute; reflexivity).
    rewrite E. apply rnd_mono. lra.
  - assert (E : lit (9 # 10) = rnd (1 - lit (1 # 10))) by (vm_compute; reflexivity).
    rewrite E. apply rnd_mono. lra.
Qed.

Lemma py_int_mono (x y : Q) : x <= y → (py_int x <= py_int y)%Z.
Proof.
  intros Hxy. unfold py_int.
  destruct (flt x 0) eqn:Hx, (flt y 0) eqn:Hy.
  - by apply Qceiling_resp_le.
  - apply flt_spec in Hx.
    assert (Hy' : 0 <= y).
    { apply Qnot_lt_le. intros H%flt_spec. congruence. }
    transitivity 0%Z.
    + change 0%Z with (Qceiling 0). apply Qceiling_resp_le. lra.
    + change 0%Z with (Qfloor 0). by apply Qfloor_resp_le.
  - apply flt_spec in Hy.
    assert (Hx' : 0 <= x).
    { apply Qnot_lt_le. intros H%flt_spec. congruence. }
    lra.
  - by apply Qfloor_resp_le.
Qed.

Lemma degrees_mono (x y : Q) :
  x <= y → fdiv (fmul x 180) np_pi <= fdiv (fmul y 180) np_pi.
Proof.
  intros Hxy. unfold fdiv, fmul. apply rnd_mono.
  assert (H : rnd (x * 180) <= rnd (y * 180)) by (apply rnd_mono; lra).
  assert (Hpi : 0 < / np_pi) by reflexivity.
  unfold Qdiv. nra.
Qed.

End Bounds.

(** X9.  H2 is the bulk gas of the chemistry dataset: at every grid point and
    for every draw r with 0 <= r < 1, the H2 mixing ratio lies between the
    doubles 0.8 and 0.9 and exceeds the H2O mixing ratio. *)
Theorem H2_is_bulk_gas (lon lat pres : list Q) (draws : ndarray)
    (idx : list nat) (r : Q) :
  nd_get idx draws = Some (Scalar r) → (0 <= r)%Q → (r < 1)%Q →
  ∃ h2o h2,
    ds_value (ds_chem lon lat pres draws) "H2O" idx = Some h2o ∧
    ds_value (ds_chem lon lat pres draws) "H2" idx = Some h2 ∧
    (lit (8 # 10) <= h2)%Q ∧ (h2 <= lit (9 # 10))%Q ∧ (h2o < h2)%Q.
Proof.
  intros Hget H0 H1.
  destruct (ds_chem_value lon lat pres draws idx r Hget) as [Hh2o Hh2].
  destruct (H2O_range r H0 H1) as [Hlo Hhi].
  destruct (H2_range _ Hlo Hhi) as [Hlo2 Hhi2].
  eexists _, _. split; [exact Hh2o|]. split; [exact Hh2|].
  split; [exact Hlo2|]. split; [exact Hhi2|].
  eapply Qle_lt_trans; [exact Hhi|]. eapply Qlt_le_trans; [|exact Hlo2].
  vm_compute. reflexivity.
Qed.

Lemma H2_is_bulk_gas_witness :
  ∃ h2o h2,
    ds_value (ds_chem [0%Q] [0%Q] [1%Q] (np_full [1; 1; 1] last_draw)) "H2O" [0; 0; 0] =
      Some h2o ∧
    ds_value (ds_chem [0%Q] [0%Q] [1%Q] (np_full [1; 1; 1] last_draw)) "H2" [0; 0; 0] =
      Some h2 ∧
    (lit (8 # 10) <= h2)%Q ∧ (h2 <= lit (9 # 10))%Q ∧ (h2o < h2)%Q.
Proof.
  apply (H2_is_bulk_gas [0%Q] [0%Q] [1%Q] (np_full [1; 1; 1] last_draw)
           [0; 0; 0] last_draw).
  - reflexivity.
  - discriminate.
  - reflexivity.
Defined.

(** X10.  The legend of cells 22 and 35 is the phase in whole degrees, in
    step with the phase: for keys 0 <= x <= y <= 2*np.pi the entries are the
    decimals of integers n <= m between 0 and 360. *)
Theorem legend_in_degrees (x y : Q) :
  (0 <= x)%Q → (x <= y)%Q → (y <= max_phase)%Q →
  ∃ n m : Z,
    legend_entry x = pretty n ∧ legend_entry y = pretty m ∧
    (0 <= n)%Z ∧ (n <= m)%Z ∧ (m <= 360)%Z.
Proof.
  intros H0 Hxy Hy. unfold legend_entry. eexists _, _.
  split; [reflexivity|]. split; [reflexivity|]. split; [|split].
  - assert (E : 0%Z = py_int (fdiv (fmul 0 180) np_pi)) by (vm_compute; reflexivity).
    rewrite E at 1. apply py_int_mono, degrees_mono, H0.
  - apply py_int_mono, degrees_mono, Hxy.
  - assert (E : 360%Z = py_int (fdiv (fmul max_phase 180) np_pi))
      by (vm_compute; reflexivity).
    rewrite E. apply py_int_mono, degrees_mono, Hy.
Qed.

Lemma legend_in_degrees_witness :
  ∃ n m : Z,
    legend_entry 1 = pretty n ∧ legend_entry np_pi = pretty m ∧
    (0 <= n)%Z ∧ (n <= m)%Z ∧ (m <= 360)%Z.
Proof.
  apply (legend_in_degrees 1 np_pi).
  - discriminate.
  - vm_compute. discriminate.
  - vm_compute. discriminate.
Defined.

(** ** The random draw *)

Lemma draw_safe : safe (hstep keep_draw) ok_draw (λ _, True) notebook [] [] 0.
Proof.
  run_notebook
    ltac:(first [exact I
                | split; [ intros ev' Hev'; repeat (apply elem_of_cons in Hev' as [->|Hev']);
                           [reflexivity.. | by apply elem_of_nil in Hev']
                         | do 4 eexists; split; [in_history|]; repeat split; eassumption ]
                | do 5 eexists; split; [in_history|];
                  do 3 (split; [eassumption|]); split; [in_history|]; split; reflexivity ])
    ltac:(cbn [hstep keep_draw returned app]).
  exact I.
Qed.

(** X11.  The chemistry is drawn once, on the grid of the GCM.  Every
    [np.random.rand] call asks for the shape (len(lon), len(lat), len(pres))
    of the coordinates of the dataset [HJ_pt_3d] returned, and no draw
    precedes it.  The update of cell 6 is applied to that dataset, as it was
    loaded, and its argument is the chemistry dataset built from the array
    that draw returned and from those coordinates. *)
Theorem chemistry_drawn_once (lib : library) :
  (∀ i shape r,
     trace_of lib !! i = Some (Ev (np_random_rand shape) r) →
     (∀ j shape' r', j < i → trace_of lib !! j ≠ Some (Ev (np_random_rand shape') r')) ∧
     ∃ j gcm lon lat pres,
       j < i ∧
       trace_of lib !! j = Some (Ev (jdi_HJ_pt_3d true) (Returns gcm)) ∧
       coord_values gcm "lon" = Some lon ∧
       coord_values gcm "lat" = Some lat ∧
       coord_values gcm "pressure" = Some pres ∧
       shape = [length lon; length lat; length pres]) ∧
  (∀ i self other r,
     trace_of lib !! i = Some (Ev (xr_update self other) r) →
     ∃ j k gcm lon lat pres draws,
       j < i ∧ k < i ∧
       trace_of lib !! j = Some (Ev (jdi_HJ_pt_3d true) (Returns gcm)) ∧
       coord_values gcm "lon" = Some lon ∧
       coord_values gcm "lat" = Some lat ∧
       coord_values gcm "pressure" = Some pres ∧
       trace_of lib !! k =
         Some (Ev (np_random_rand [length lon; length lat; length pres])
                 (Returns draws)) ∧
       arg_ds self = gcm ∧
       arg_ds other = ds_chem lon lat pres draws).
Proof.
  split.
  - intros i shape r Hi.
    pose proof (history_ok _ _ _ draw_safe lib i _ Hi)
      as (Hfirst & gcm & lon & lat & pres & Hin & Hlon & Hlat & Hpres & Hshape).
    split.
    + intros j shape' r' Hj Hdraw.
      pose proof (before_kept keep_draw _ i j _ Hj Hdraw eq_refl) as Hin'.
      by apply Hfirst in Hin'.
    + apply kept_before in Hin as (j & Hj & Hin).
      exists j, gcm, lon, lat, pres. done.
  - intros i self other r Hi.
    pose proof (history_ok _ _ _ draw_safe lib i _ Hi)
      as (gcm & lon & lat & pres & draws & Hin & Hlon & Hlat & Hpres & Hd & Hs & Ho).
    apply kept_before in Hd as (k & Hk & Hd).
    apply kept_before in Hin as (j & Hj & Hin).
    exists j, k, gcm, lon, lat, pres, draws. done.
Qed.

Lemma chemistry_drawn_once_witness :
  ∃ j k gcm lon lat pres draws,
    j < 5 ∧ k < 5 ∧
    trace_of demo_lib !! j = Some (Ev (jdi_HJ_pt_3d true) (Returns gcm)) ∧
    coord_values gcm "lon" = Some lon ∧
    coord_values gcm "lat" = Some lat ∧
    coord_values gcm "pressure" = Some pres ∧
    trace_of demo_lib !! k =
      Some (Ev (np_random_rand [length lon; length lat; length pres])
              (Returns draws)) ∧
    demo_gcm = gcm ∧
    ds_chem [-45; 45]%Q [0%Q] [lit (1 # 1000); 1; 10]%Q (np_full [2; 1; 3] (1 # 2)%Q) =
      ds_chem lon lat pres draws.
Proof.
  exact (proj2 (chemistry_drawn_once demo_lib) 5
           (mkArg 0 demo_gcm)
           (mkArg 1 (ds_chem [-45; 45]%Q [0%Q] [lit (1 # 1000); 1; 10]%Q
                       (np_full [2; 1; 3] (1 # 2)%Q)))
           (Returns Receiver) eq_refl).
Defined.

(** ** The opacity connection *)

Lemma opacity_safe :
  safe (hstep keep_opacity) ok_opacity (λ _, True) notebook [] [] 0.
Proof.
  run_notebook ltac:(first [exact I | done | repeat eexists; in_history])
    ltac:(cbn [hstep keep_opacity app]).
  exact I.
Qed.

(** X12.  One opacity connection serves both cases: [jdi.opannection] is
    called at most once, for the band 0.5 to 0.9 micron with resample=100,
    and the opacity every [star] and [phase_curve] call receives is the
    object that call returned. *)
Theorem one_opacity_connection (lib : library) :
  (∀ i j wave_range resample r wave_range' resample' r',
     trace_of lib !! i = Some (Ev (jdi_opannection wave_range resample) r) →
     trace_of lib !! j = Some (Ev (jdi_opannection wave_range' resample') r') →
     i = j ∧ wave_range = (lit (1 # 2), lit (9 # 10)) ∧ resample = 100%Z) ∧
  (∀ i self opacity temp metal logg radius radius_unit semi_major semi_major_unit r,
     trace_of lib !! i =
       Some (Ev (star self opacity temp metal logg radius radius_unit
                   semi_major semi_major_unit) r) →
     ∃ j wave_range resample,
       j < i ∧
       trace_of lib !! j =
         Some (Ev (jdi_opannection wave_range resample) (Returns opacity))) ∧
  (∀ i self opacity n_cpu full_output r,
     trace_of lib !! i = Some (Ev (phase_curve self opacity n_cpu full_output) r) →
     ∃ j wave_range resample,
       j < i ∧
       trace_of lib !! j =
         Some (Ev (jdi_opannection wave_range resample) (Returns opacity))).
Proof.
  split; [|split].
  - assert (Hlt : ∀ i j wave_range resample r wave_range' resample' r',
              i < j →
              trace_of lib !! i = Some (Ev (jdi_opannection wave_range resample) r) →
              trace_of lib !! j = Some (Ev (jdi_opannection wave_range' resample') r') →
              False).
    { intros i j wr rs r wr' rs' r' Hij Hi Hj.
      pose proof (history_ok _ _ _ opacity_safe lib j _ Hj) as (Hnil & _).
      pose proof (before_kept keep_opacity _ j i _ Hij Hi eq_refl) as Hin.
      rewrite Hnil in Hin. by apply elem_of_nil in Hin. }
    intros i j wr rs r wr' rs' r' Hi Hj.
    pose proof (history_ok _ _ _ opacity_safe lib i _ Hi) as (_ & Hwr & Hrs).
    split; [|done].
    destruct (Nat.lt_trichotomy i j) as [H|[H|H]]; [|done|]; exfalso; eauto.
  - intros i self opacity temp metal logg radius ru sm smu r Hi.
    pose proof (history_ok _ _ _ opacity_safe lib i _ Hi) as (wr & rs & Hin).
    apply kept_before in Hin as (j & Hlt & Hj). eauto 10.
  - intros i self opacity n_cpu full_output r Hi.
    pose proof (history_ok _ _ _ opacity_safe lib i _ Hi) as (wr & rs & Hin).
    apply kept_before in Hin as (j & Hlt & Hj). eauto 10.
Qed.

Lemma one_opacity_connection_witness :
  ∃ j wave_range resample,
    j < 32 ∧
    trace_of demo_lib !! j = Some (Ev (jdi_opannection wave_range resample) (Returns 1)).
Proof.
  exact (proj2 (proj2 (one_opacity_connection demo_lib)) 32 1 1 3%Z false
           (Returns [(0%Q, demo_spectrum); (np_pi, demo_spectrum)]) eq_refl).
Defined.

(** ** The configuration of the two cases *)

Lemma omap_filter_kept {B : Type} (f : event → option B) (keep : event → bool)
    (tr : list event) :
  (∀ ev, keep ev = false → f ev = None) →
  omap f (filter (λ ev, keep ev) tr) = omap f tr.
Proof.
  intros Hf. induction tr as [|ev tr IH]; [done|].
  rewrite filter_cons. destruct (keep ev) eqn:K.
  - rewrite decide_True by done. cbn [omap list_omap]. by rewrite IH.
  - rewrite decide_False by (by intros []). cbn [omap list_omap].
    by rewrite (Hf ev K), IH.
Qed.

Lemma config_kept o ev : keep_config ev = false → config_of o ev = None.
Proof. by destruct ev as [R [] r]. Qed.

Lemma config_safe :
  safe (hstep keep_config) (λ _ _, True) final_config notebook [] [] 0.
Proof.
  run_notebook ltac:(exact I) ltac:(cbn [hstep keep_config app]).
  destruct_units. split; reflexivity.
Qed.

(** X13.  The two cases are configured alike.  In a run that finishes, the
    calls that set the phase geometry, the atmosphere, gravity and the star
    are, argument for argument and in this order, the same four on
    [case_3d_clouds] as on [case_3d]: the cloudy case differs from the
    cloud-free one by [clouds_4d] and by the flags of [phase_curve] only. *)
Theorem cases_configured_alike (lib : library) :
  outcome_of lib = Finished →
  omap (config_of case_3d) (trace_of lib) =
    omap (config_of case_3d_clouds) (trace_of lib) ∧
  length (omap (config_of case_3d) (trace_of lib)) = 4.
Proof.
  intros Hfin.
  pose proof (history_final _ _ _ config_safe lib Hfin) as [Heq Hlen].
  rewrite (omap_filter_kept (config_of case_3d) keep_config) in Heq, Hlen
    by (intros ev; apply config_kept).
  rewrite (omap_filter_kept (config_of case_3d_clouds) keep_config) in Heq
    by (intros ev; apply config_kept).
  split; assumption.
Qed.

Lemma cases_configured_alike_witness :
  omap (config_of case_3d) (trace_of demo_lib) =
    omap (config_of case_3d_clouds) (trace_of demo_lib) ∧
  length (omap (config_of case_3d) (trace_of demo_lib)) = 4.
Proof. exact (cases_configured_alike demo_lib eq_refl). Defined.

(** ** The maps of cells 7 and 26 *)

Lemma maps_safe : safe (hstep keep_maps) ok_maps (λ _, True) notebook [] [] 0.
Proof.
  run_notebook ltac:(destruct_units; first [exact I | in_history | eexists; in_history])
    ltac:(cbn [hstep keep_maps returned app]).
  exact I.
Qed.

(** X14.  The maps show what picaso gets.  The dataset handed to each
    [atmosphere_4d] call, object and contents, is the one whose temperature
    cell 7 mapped at pressure index 34, and the dataset handed to
    [clouds_4d] is the one whose optical depth cell 26 mapped: nothing
    changes a dataset between its map and its use. *)
Theorem maps_show_inputs (lib : library) :
  (∀ i self ds shift zero_point plot verbose r,
     trace_of lib !! i =
       Some (Ev (atmosphere_4d self ds shift zero_point plot verbose) r) →
     ∃ j, j < i ∧
       trace_of lib !! j =
         Some (Ev (xr_plot ds "temperature" [("pressure", 34)] "lon" "lat")
                 (Returns ()))) ∧
  (∀ i self ds iz_plot plot r,
     trace_of lib !! i = Some (Ev (clouds_4d self ds iz_plot plot) r) →
     ∃ j ip, j < i ∧
       trace_of lib !! j =
         Some (Ev (xr_plot ds "opd" [("pressure", ip); ("wno", 0)] "lon" "lat")
                 (Returns ()))).
Proof.
  split.
  - intros i self ds shift zero_point plot verbose r Hi.
    pose proof (history_ok _ _ _ maps_safe lib i _ Hi) as Hin.
    apply kept_before in Hin as (j & Hj & Hin). eauto.
  - intros i self ds iz_plot plot r Hi.
    pose proof (history_ok _ _ _ maps_safe lib i _ Hi) as [ip Hin].
    apply kept_before in Hin as (j & Hj & Hin). eauto.
Qed.

Lemma maps_show_inputs_witness :
  ∃ j, j < 28 ∧
    trace_of demo_lib !! j =
      Some (Ev (xr_plot
                  (mkArg 0 (ds_update demo_gcm
                              (ds_chem [-45; 45]%Q [0%Q] [lit (1 # 1000); 1; 10]%Q
                                 (np_full [2; 1; 3] (1 # 2)%Q))))
                  "temperature" [("pressure", 34)] "lon" "lat")
              (Returns ())).
Proof.
  exact (proj1 (maps_show_inputs demo_lib) 28 1
           (mkArg 0 (ds_update demo_gcm
                       (ds_chem [-45; 45]%Q [0%Q] [lit (1 # 1000); 1; 10]%Q
                          (np_full [2; 1; 3] (1 # 2)%Q))))
           (np_zeros [n_phases]) "secondary_eclipse" true false (Returns ())
           eq_refl).
Defined.

(** ** The plotted spectra *)

Lemma safe_spectra_by_key final out k m h n :
  (∀ wno fpfs legend m',
     (∀ ev, ev ∈ m → ev ∈ m') →
     length wno = length out → length fpfs = length out →
     length legend = length out →
     (∀ j iphase, out.*1 !! j = Some iphase →
                  from_key out m' wno fpfs legend j iphase) →
     safe (hstep keep_spectra) ok_by_key final (k (wno, fpfs, legend)) m' h n) →
  safe (hstep keep_spectra) ok_by_key final (spectra_of out k) m h n.
Proof.
  intros Hk. unfold spectra_of.
  apply (safe_for_in_inv _ _ _
    (λ done '(wno, fpfs, legend) m',
       (∀ ev, ev ∈ m → ev ∈ m') ∧
       length wno = length done ∧ length fpfs = length done ∧
       length legend = length done ∧
       ∀ j iphase, done !! j = Some iphase →
                   from_key out m' wno fpfs legend j iphase)
    _ _ h n out.*1) with (done := []).
  - intros done iphase rest [[wno fpfs] legend] m' k' Hall
      (Hsub & Hw & Hf & Hl & Hdone) Hk'.
    apply safe_or_raise; intros sp Hsp.
    apply safe_or_raise; intros wn Hwn.
    apply safe_or_raise; intros fp Hfp.
    apply safe_Call; [intros e; exact I|].
    intros [w f]. split; [exact I|].
    cbn [hstep keep_spectra returned].
    apply safe_or_raise; intros deg ->%degrees_legend. apply Hk'.
    split; [|split; [|split; [|split]]].
    + intros ev Hev. apply elem_of_app. left. by apply Hsub.
    + rewrite !length_app. simpl. lia.
    + rewrite !length_app. simpl. lia.
    + rewrite !length_app. simpl. lia.
    + intros j iphase' Hj.
      apply lookup_app_Some in Hj as [Hj|[Hlen Hj]].
      * destruct (Hdone j iphase' Hj)
          as (sp' & x & y & w' & f' & ? & ? & ? & Hin & Hwj & Hfj & Hlj).
        exists sp', x, y, w', f'. do 3 (split; [done|]).
        split; [apply elem_of_app; by left|].
        split; [by apply lookup_app_l_Some|].
        split; by apply lookup_app_l_Some.
      * apply list_lookup_singleton_Some in Hj as [Hj <-].
        assert (j = length done) as -> by lia.
        exists sp, wn, fp, w, f. do 3 (split; [done|]).
        split; [apply elem_of_app; right; left|].
        split; [by rewrite <- Hw, list_lookup_middle|].
        split; [by rewrite <- Hf, list_lookup_middle|].
        by rewrite <- Hl, list_lookup_middle.
  - intros [[wno fpfs] legend] m' (Hsub & Hw & Hf & Hl & Hdone).
    rewrite length_fmap in Hw, Hf, Hl. by apply Hk.
  - done.
  - split; [done|]. split; [done|]. split; [done|]. split; [done|].
    by intros [|?] ?.
Qed.

Lemma by_key_safe :
  safe (hstep keep_spectra) ok_by_key (λ _, True) notebook [] [] 0.
Proof.
  unfold notebook.
  repeat first
    [ safe_step ltac:(first
        [ exact I
        | split; [reflexivity|]; do 5 eexists;
          split;
            [ lazymatch goal with
              | H : ∀ ev, ev ∈ _ → ev ∈ ?m |- _ ∈ ?m =>
                  apply H; first [in_history | apply elem_of_app; right; in_history]
              end
            | repeat split; eassumption ] ]);
      cbn [hstep keep_spectra returned app]
    | apply safe_spectra_by_key; intros ? ? ? ? ? ? ? ? ? ].
  exact I.
Qed.

(** X15.  The spectra of cells 22 and 35 are plotted key by key.  When a loop
    reaches [jpi.spectrum], the three lists it hands over have one entry for
    each key of a dictionary [phase_curve] returned, and the entries at
    position k all come from the k-th key: the wavenumbers and the flux are
    what [mean_regrid], called with R=100 on the 'wavenumber' and
    'fpfs_reflected' arrays of that key, returned, the flux multiplied by
    1e6 (parts per million), and the legend entry is that key in degrees.
    The plot is 500 wide. *)
Theorem spectra_by_key (lib : library) (i : nat) (wno fpfs : list ndarray)
    (plot_width : Z) (legend : list string) (palette : pyobj) (r : reply pyobj) :
  trace_of lib !! i = Some (Ev (jpi_spectrum wno fpfs plot_width legend palette) r) →
  plot_width = 500%Z ∧
  ∃ j self opacity n_cpu full_output out,
    j < i ∧
    trace_of lib !! j =
      Some (Ev (phase_curve self opacity n_cpu full_output) (Returns out)) ∧
    length wno = length out ∧ length fpfs = length out ∧
    length legend = length out ∧
    ∀ k iphase, out.*1 !! k = Some iphase →
      ∃ l sp wavenumber fpfs_reflected w f,
        l < i ∧
        dict_get out iphase = Some sp ∧
        sp !! "wavenumber" = Some wavenumber ∧
        sp !! "fpfs_reflected" = Some fpfs_reflected ∧
        trace_of lib !! l =
          Some (Ev (jdi_mean_regrid wavenumber fpfs_reflected 100) (Returns (w, f))) ∧
        wno !! k = Some w ∧ fpfs !! k = Some (ppm f) ∧
        legend !! k = Some (legend_entry iphase).
Proof.
  intros Hi.
  pose proof (history_ok _ _ _ by_key_safe lib i _ Hi)
    as (Hwidth & self & opacity & n_cpu & full_output & out & Hin & Hw & Hf & Hl & Hall).
  split; [exact Hwidth|].
  apply kept_before in Hin as (j & Hj & Hin).
  exists j, self, opacity, n_cpu, full_output, out.
  do 5 (split; [done|]).
  intros k iphase Hk.
  destruct (Hall k iphase Hk)
    as (sp & x & y & w & f & Hsp & Hx & Hy & Hreg & Hwk & Hfk & Hlk).
  apply kept_before in Hreg as (l & Hl' & Hreg).
  exists l, sp, x, y, w, f. done.
Qed.

Lemma spectra_by_key_witness :
  ∃ j self opacity n_cpu full_output out,
    j < 21 ∧
    trace_of demo_lib !! j =
      Some (Ev (phase_curve self opacity n_cpu full_output) (Returns out)) ∧
    2 = length out ∧
    ∀ k iphase, out.*1 !! k = Some iphase →
      ∃ w f,
        [np_array [11111; 20000]%Q; np_array [11111; 20000]%Q] !! k = Some w ∧
        [ppm (np_array [lit (1 # 1000000); lit (2 # 1000000)]);
         ppm (np_array [lit (1 # 1000000); lit (2 # 1000000)])] !! k = Some (ppm f) ∧
        [legend_entry 0; legend_entry np_pi] !! k = Some (legend_entry iphase).
Proof.
  destruct (spectra_by_key demo_lib 21
              [np_array [11111; 20000]%Q; np_array [11111; 20000]%Q]
              [ppm (np_array [lit (1 # 1000000); lit (2 # 1000000)]);
               ppm (np_array [lit (1 # 1000000); lit (2 # 1000000)])]
              500 [legend_entry 0; legend_entry np_pi] 9 (Returns 8) eq_refl)
    as (_ & j & self & opacity & n_cpu & full_output & out & Hj & Hout & Hlen & _ & _
        & Hall).
  exists j, self, opacity, n_cpu, full_output, out.
  split; [exact Hj|]. split; [exact Hout|]. split; [exact Hlen|].
  intros k iphase Hk.
  destruct (Hall k iphase Hk) as (_ & _ & _ & _ & w & f & _ & _ & _ & _ & _ & Hw & Hf & Hl).
  exists w, f. split; [exact Hw|]. split; [exact Hf | exact Hl].
Defined.

(** ** The plotted phase curves *)

Lemma curves_safe :
  safe (hstep keep_curves) ok_curves final_curves notebook [] [] 0.
Proof.
  run_notebook
    ltac:(first [exact I
                | repeat eexists; first [in_history | reflexivity | (left; done) | (right; done)]])
    ltac:(cbn [hstep keep_curves returned app]).
  do 6 eexists. split; in_history.
Qed.

(** X16.  The curves of cell 33 are labelled after their case.  Every
    [plt.plot] call draws, against the phases [jpi.phase_curve] returned,
    1e6 times the curve it returned (parts per million) for the output of a
    [phase_curve] computation, in the call of cell 31 with plot_width=1500:
    the computation on [case_3d] under the label "Cloudless", the one on
    [case_3d_clouds] under "Cloudy".  A run that finishes has drawn both. *)
Theorem curves_labelled (lib : library) :
  (∀ i x y label r,
     trace_of lib !! i = Some (Ev (plt_plot x y label) r) →
     ∃ j k self opacity n_cpu full_output out curves ws fig,
       j < i ∧ k < i ∧
       trace_of lib !! j =
         Some (Ev (phase_curve self opacity n_cpu full_output) (Returns out)) ∧
       trace_of lib !! k =
         Some (Ev (jpi_phase_curve out to_plot collapse 10 (Some 1500%Z) true)
                 (Returns (x, curves, ws, fig))) ∧
       y = ppm curves ∧
       ((label = "Cloudless" ∧ self = case_3d) ∨
        (label = "Cloudy" ∧ self = case_3d_clouds))) ∧
  (outcome_of lib = Finished →
     ∃ i x y r j x' y' r',
       trace_of lib !! i = Some (Ev (plt_plot x y "Cloudless") r) ∧
       trace_of lib !! j = Some (Ev (plt_plot x' y' "Cloudy") r')).
Proof.
  split.
  - intros i x y label r Hi.
    pose proof (history_ok _ _ _ curves_safe lib i _ Hi)
      as (self & op & n & f & out & curves & ws & fig & H2 & H1 & Hy & Hl).
    apply kept_before in H1 as (j & Hj & H1).
    apply kept_before in H2 as (k & Hk & H2).
    exists j, k, self, op, n, f, out, curves, ws, fig. done.
  - intros Hfin.
    pose proof (history_final _ _ _ curves_safe lib Hfin)
      as (x & y & r & x' & y' & r' & H1 & H2).
    apply kept_somewhere in H1 as [i Hi]. apply kept_somewhere in H2 as [j Hj].
    eauto 10.
Qed.

Lemma curves_labelled_witness :
  (∃ j k self opacity n_cpu full_output out curves ws fig,
     j < 37 ∧ k < 37 ∧
     trace_of demo_lib !! j =
       Some (Ev (phase_curve self opacity n_cpu full_output) (Returns out)) ∧
     trace_of demo_lib !! k =
       Some (Ev (jpi_phase_curve out to_plot collapse 10 (Some 1500%Z) true)
               (Returns (np_array [0%Q], curves, ws, fig))) ∧
     ppm (np_array [0%Q]) = ppm curves ∧
     (("Cloudy" = "Cloudless" ∧ self = case_3d) ∨
      ("Cloudy" = "Cloudy" ∧ self = case_3d_clouds))) ∧
  ∃ i x y r j x' y' r',
    trace_of demo_lib !! i = Some (Ev (plt_plot x y "Cloudless") r) ∧
    trace_of demo_lib !! j = Some (Ev (plt_plot x' y' "Cloudy") r').
Proof.
  split.
  - exact (proj1 (curves_labelled demo_lib) 37 (np_array [0%Q]) (ppm (np_array [0%Q]))
             "Cloudy" (Returns ()) eq_refl).
  - exact (proj2 (curves_labelled demo_lib) eq_refl).
Defined.
